(** * AlgoBank backend: transfer, audit chain, envelope encryption,
      compliance, risk monitoring and alerting.

    A shallow embedding of the backend services
    (transactionService, auditLogService, encryptionService, vaultService,
    complianceService, riskMonitoringService, alertService, utils/redis,
    utils/isolationForest and the repositories they call) together with the
    properties the system description states about them.

    Conventions.
    - Asynchronous functions are run to completion one after the other; a
      service is a function from the world before the call to an outcome and
      the world after it.  A thrown exception is an [inl].
    - PostgreSQL tables are lists of rows, newest row first, so that
      [ORDER BY created_at DESC] is the list order; [accounts] is a finite map
      keyed by the primary key.  Queries themselves never fail.
    - Monetary columns are [NUMERIC(20,4)]: a value is the integer number of
      ten-thousandths, and a transfer amount is a value of that scale.  Such a
      value is never [NaN], so the [Number.isNaN] tests on stored amounts and
      balances have no branch here.  Arithmetic done by JavaScript on doubles
      is carried out exactly: on rationals for the risk ratios, on real
      numbers for the anomaly detector (logarithms and powers).
    - Library and network calls (node:crypto, Buffer, JSON, Vault, Redis,
      uuid generation, the clock) are the fields of the class [Platform];
      random draws are inputs.  Console output is left out. *)

From Stdlib Require Import ZArith QArith Qminmax Qabs Reals Lra Lia.
From Stdlib Require Import String Ascii List Bool.
From Stdlib Require Import Sorting.Mergesort Orders Sorted Permutation.
From Stdlib.Strings Require Import Byte.
From stdpp Require Import gmap strings pretty.
Import ListNotations.

Set Implicit Arguments.
Unset Strict Implicit.
Set Warnings "-register-all".

(* ===================================================================== *)
(** ** Values *)
(* ===================================================================== *)

(** [NUMERIC(20,4)]: the number of ten-thousandths. *)
Definition money : Type := Z.

Definition SCALE : Z := 10000.

(** A whole amount, as written in the source ([50000], [1], [0]). *)
Definition units (n : Z) : money := (n * SCALE)%Z.

(** [Number(row.balance)], [toNumber(tx.amount)]: the decimal as a number. *)
Definition toNumber (m : money) : Q := Qmake m 10000.

(** JSON values.  A number is a rational; [JReal] carries the one number that
    is computed with logarithms, the anomaly score. *)
Inductive json : Type :=
| JNull
| JBool (b : bool)
| JNum (q : Q)
| JReal (r : R)
| JStr (s : string)
| JArr (items : list json)
| JObj (fields : list (string * json)).

Definition JMoney (m : money) : json := JNum (toNumber m).

Definition json_of_nullable (o : option string) : json :=
  match o with
  | Some s => JStr s
  | None => JNull
  end.

(** Property access [o.k] on a JSON object. *)
Fixpoint assoc_get (k : string) (fields : list (string * json)) : option json :=
  match fields with
  | [] => None
  | (k', v) :: rest => if String.eqb k k' then Some v else assoc_get k rest
  end.

Definition json_get (k : string) (j : json) : option json :=
  match j with
  | JObj fields => assoc_get k fields
  | _ => None
  end.

(** JavaScript truthiness of a string: the empty string is falsy. *)
Definition truthy (s : string) : bool := negb (String.eqb s "").

(* ===================================================================== *)
(** ** utils/isolationForest: path lengths and the score *)
(* ===================================================================== *)

(** The scoring half of the detector, over the real numbers.  A tree is what
    buildTree returns: [size] is [data.length] of the partition the node was
    built from, and the optional fields are present on internal nodes.  The
    sub-sample size of a forest is a number of rows. *)
Module IsolationForest.

Local Open Scope R_scope.

Inductive IsolationTreeNode : Type :=
| Node (size : nat) (splitAttr : option nat) (splitValue : option R)
       (left_ right_ : option IsolationTreeNode) (isLeaf : bool).

Definition averagePathLength (n : nat) : R :=
  if (n <=? 1)%nat then 0
  else 2 * (ln (INR n - 1) + 0.5772156649) - (2 * (INR n - 1)) / INR n.

(** [sample[attr] < value]; a missing entry compares false. *)
Definition below (sample : list R) (attr : nat) (value : R) : bool :=
  match nth_error sample attr with
  | Some x => if Rlt_dec x value then true else false
  | None => false
  end.

Fixpoint pathLength (node : IsolationTreeNode) (sample : list R) : R :=
  match node with
  | Node size splitAttr splitValue left_ right_ isLeaf =>
      if isLeaf then averagePathLength size
      else
        match left_, right_, splitAttr, splitValue with
        | Some l, Some r, Some attr, Some value =>
            if below sample attr value
            then 1 + pathLength l sample
            else 1 + pathLength r sample
        | _, _, _, _ => averagePathLength size
        end
  end.

Record Forest : Type := {
  treeCount : nat;
  subsampleSize : nat;
  trees : list IsolationTreeNode
}.

(** [c || 1] *)
Definition or_one (c : R) : R := if Req_dec_T c 0 then 1 else c.

(** [score(sample)].  The final [Number.isFinite] test always succeeds on
    real numbers. *)
Definition score (f : Forest) (sample : list R) : R :=
  match trees f with
  | [] => 0
  | _ :: _ =>
      let path :=
        fold_left (fun acc tree => acc + pathLength tree sample) (trees f) 0
        / INR (length (trees f)) in
      let c := averagePathLength (subsampleSize f) in
      Rpower 2 (- path / or_one c)
  end.

End IsolationForest.

(* ===================================================================== *)
(** ** Errors *)
(* ===================================================================== *)

(** Modelled from the spec: utils/errors is not among the sources.  [AppError]
    carries a message and an HTTP status, 400 unless one is given (the end to
    end test expects 400 for an insufficient balance); [ForbiddenError] is the
    authorization failure (403).  [JsError] is a plain [Error], as thrown by
    the services themselves and by node:crypto, fetch and redis. *)
Inductive error : Type :=
| AppError (message : string) (status : Z)
| ForbiddenError (message : string)
| JsError (message : string).

Definition AppError400 (message : string) : error := AppError message 400.

(** The error kinds of the system description, as the code raises them. *)
Definition InsufficientFundsError : error := AppError400 "Insufficient funds.".
Definition TransferForbidden : error :=
  ForbiddenError "You may only transfer from your own accounts.".

(* ===================================================================== *)
(** ** Rows *)
(* ===================================================================== *)

Inductive UserRole : Type := admin | auditor | client.

Record AuthenticatedUser : Type := {
  au_id : string;
  au_role : UserRole
}.

Record AccountRecord : Type := {
  acc_id : string;
  acc_user_id : string;
  acc_currency : string;
  acc_balance : money
}.

Inductive Direction : Type := credit | debit.

Record TransactionRecord : Type := {
  tx_id : string;
  tx_account_id : string;
  tx_counterparty_account_id : option string;
  tx_amount : money;
  tx_currency : string;
  tx_direction : Direction;
  tx_memo : option string;
  tx_encrypted_payload : string;
  (** [DEFAULT NOW()], in milliseconds since the epoch *)
  tx_created_at : Z
}.

Record AuditLogRecord : Type := {
  al_id : string;
  al_event_type : string;
  al_payload : json;
  al_hash : string;
  al_previous_hash : option string
}.

Inductive CheckStatus : Type := pending | passed | failed.

Record ComplianceCheckRecord : Type := {
  cc_id : string;
  cc_user_id : string;
  cc_transaction_id : option string;
  cc_check_type : string;
  cc_status : CheckStatus;
  cc_details : json
}.

Record RiskMetricRecord : Type := {
  rm_id : string;
  rm_account_id : string;
  rm_exposure : Q;
  rm_leverage : Q;
  rm_loss_ratio : Q;
  observation_window : Z
}.

Inductive RiskAlertSeverity : Type := low | medium | high | critical.

Record RiskAlertRecord : Type := {
  ra_id : string;
  ra_account_id : option string;
  ra_alert_type : string;
  ra_severity : RiskAlertSeverity;
  ra_details : json;
  (** [DEFAULT NOW()], in milliseconds since the epoch *)
  triggered_at : Z
}.

Record RiskAnomalyRecord : Type := {
  an_id : string;
  an_transaction_id : string;
  an_account_id : string;
  anomaly_score : R;
  score_threshold : R;
  detector_version : string;
  metadata : json
}.

(* ===================================================================== *)
(** ** The world: database, Redis client, statement log *)
(* ===================================================================== *)

Record Db : Type := {
  accounts : gmap string AccountRecord;
  transactions : list TransactionRecord;
  audit_logs : list AuditLogRecord;
  compliance_checks : list ComplianceCheckRecord;
  risk_metrics : list RiskMetricRecord;
  risk_alerts : list RiskAlertRecord;
  risk_anomalies : list RiskAnomalyRecord;
  next_id : nat
}.

(** The statements sent over the connection, oldest first. *)
Inductive Sql : Type :=
| BEGIN
| COMMIT
| ROLLBACK
| SelectAccountForUpdate (accountId : string)
| SelectAccount (accountId : string)
| UpdateBalance (accountId : string) (delta : money)
| InsertTransaction (accountId : string) (d : Direction)
| SelectTransactions (accountId : string) (limit : nat)
| SelectLatestHash
| InsertAuditLog (eventType : string)
| InsertComplianceCheck (checkType : string)
| InsertRiskMetric (accountId : string)
| InsertRiskAlert (alertType : string)
| InsertAnomalyEvent (transactionId : string).

Record World : Type := {
  db : Db;
  (** utils/redis: the module variables [client] and [connectionFailed] *)
  redis_client : bool;
  connectionFailed : bool;
  (** entries added to Redis streams, newest first *)
  streams : list (string * list (string * string));
  statements : list Sql
}.

Definition set_db (d : Db) (w : World) : World :=
  {| db := d; redis_client := redis_client w;
     connectionFailed := connectionFailed w;
     streams := streams w; statements := statements w |}.

Definition log_statement (q : Sql) (w : World) : World :=
  {| db := db w; redis_client := redis_client w;
     connectionFailed := connectionFailed w;
     streams := streams w; statements := statements w ++ [q] |}.

(** [env] of config/env.ts, the fields the services read. *)
Record Env : Type := {
  nodeEnv : string;
  redisUrl : string;
  enableRedisStreams : bool;
  vault_addr : string;
  vault_token : string;
  vault_transitPath : string;
  vault_encryptionKeyName : string;
  rsaPrivateKey : string;
  rsaPublicKey : string
}.

(* ===================================================================== *)
(** ** Outcomes and the service monad *)
(* ===================================================================== *)

Definition outcome (A : Type) : Type := (error + A)%type.

Definition M (A : Type) : Type := World -> outcome A * World.

Definition ret {A} (a : A) : M A := fun w => (inr a, w).

Definition throw {A} (e : error) : M A := fun w => (inl e, w).

Definition bind {A B} (c : M A) (k : A -> M B) : M B :=
  fun w =>
    match c w with
    | (inr a, w') => k a w'
    | (inl e, w') => (inl e, w')
    end.

Declare Scope service_scope.
Delimit Scope service_scope with service.
Notation "x <- c1 ;; c2" := (bind c1 (fun x => c2))
  (at level 100, c1 at next level, right associativity) : service_scope.
Notation "c1 ;;; c2" := (bind c1 (fun _ => c2))
  (at level 100, right associativity) : service_scope.
Open Scope service_scope.

Definition gets {A} (f : World -> A) : M A := fun w => (inr (f w), w).

Definition modify (f : World -> World) : M unit := fun w => (inr tt, f w).

Definition query (q : Sql) : M unit := modify (log_statement q).

Definition lift {A} (o : outcome A) : M A := fun w => (o, w).

(** [when c body]: [if (c) { await body }]. *)
Definition when (c : bool) (body : M unit) : M unit :=
  if c then body else ret tt.

(* ===================================================================== *)
(** ** Libraries and external services *)
(* ===================================================================== *)

Record VaultData : Type := {
  ciphertext_field : option string;
  plaintext_field : option string
}.

(** What [fetch] gives back to vaultFetch: a rejected promise, a response
    whose [ok] is false, or a JSON body [{ data?: ... }]. *)
Inductive HttpResponse : Type :=
| NetworkFailure
| NotOk (status : Z) (text : string)
| Ok (data : option VaultData).

Class Platform : Type := {
  (** [crypto.createHash("sha256").update(s).digest("hex")] *)
  sha256_hex : string -> string;
  JSON_stringify : json -> string;
  JSON_parse : string -> option json;
  (** [buf.toString("base64")] and [Buffer.from(s, "base64")] *)
  base64_encode : list byte -> string;
  base64_decode : string -> list byte;
  (** AES-256-GCM: the counter-mode transform of the data under key and iv
      (its own inverse) and the tag of a ciphertext under key and iv *)
  aes256_ctr : list byte -> list byte -> list byte -> list byte;
  aes256_gcm_tag : list byte -> list byte -> list byte -> list byte;
  (** RSA-OAEP with SHA-256; [None] when node:crypto throws.  Encryption
      takes the PEM key, the padding seed and the data. *)
  rsa_publicEncrypt : string -> list byte -> list byte -> option (list byte);
  rsa_privateDecrypt : string -> list byte -> option (list byte);
  (** [fetch(url, { method, body, headers })] against Vault *)
  vault_http : string -> string -> option string -> HttpResponse;
  (** whether [client.connect()] and [redis.xAdd] resolve *)
  redis_connect : string -> bool;
  redis_xAdd : string -> list (string * string) -> bool;
  (** the n-th identifier produced by [uuid_generate_v4()] *)
  uuid_generate_v4 : nat -> string;
  (** [NOW()] at the insertion of the n-th row *)
  NOW : nat -> Z;
  (** [date.toISOString()] *)
  toISOString : Z -> string;
  (** the trees that
      [new IsolationForest(treeCount, subsampleSize).fit(data)]
      leaves in the forest: buildTree over random sub-samples of the rows,
      drawn with [crypto.randomBytes] *)
  forest_fit : nat -> nat -> list (list R) -> list IsolationForest.IsolationTreeNode
}.

(* ===================================================================== *)
(** ** Repositories *)
(* ===================================================================== *)

Section Repositories.

Context `{Platform}.

Definition with_accounts (f : gmap string AccountRecord -> gmap string AccountRecord)
    (d : Db) : Db :=
  {| accounts := f (accounts d); transactions := transactions d;
     audit_logs := audit_logs d; compliance_checks := compliance_checks d;
     risk_metrics := risk_metrics d; risk_alerts := risk_alerts d;
     risk_anomalies := risk_anomalies d; next_id := next_id d |}.

Definition add_transaction (r : TransactionRecord) (d : Db) : Db :=
  {| accounts := accounts d; transactions := r :: transactions d;
     audit_logs := audit_logs d; compliance_checks := compliance_checks d;
     risk_metrics := risk_metrics d; risk_alerts := risk_alerts d;
     risk_anomalies := risk_anomalies d; next_id := next_id d |}.

Definition add_audit_log (r : AuditLogRecord) (d : Db) : Db :=
  {| accounts := accounts d; transactions := transactions d;
     audit_logs := r :: audit_logs d; compliance_checks := compliance_checks d;
     risk_metrics := risk_metrics d; risk_alerts := risk_alerts d;
     risk_anomalies := risk_anomalies d; next_id := next_id d |}.

Definition add_compliance_check (r : ComplianceCheckRecord) (d : Db) : Db :=
  {| accounts := accounts d; transactions := transactions d;
     audit_logs := audit_logs d; compliance_checks := r :: compliance_checks d;
     risk_metrics := risk_metrics d; risk_alerts := risk_alerts d;
     risk_anomalies := risk_anomalies d; next_id := next_id d |}.

Definition add_risk_metric (r : RiskMetricRecord) (d : Db) : Db :=
  {| accounts := accounts d; transactions := transactions d;
     audit_logs := audit_logs d; compliance_checks := compliance_checks d;
     risk_metrics := r :: risk_metrics d; risk_alerts := risk_alerts d;
     risk_anomalies := risk_anomalies d; next_id := next_id d |}.

Definition add_risk_alert (r : RiskAlertRecord) (d : Db) : Db :=
  {| accounts := accounts d; transactions := transactions d;
     audit_logs := audit_logs d; compliance_checks := compliance_checks d;
     risk_metrics := risk_metrics d; risk_alerts := r :: risk_alerts d;
     risk_anomalies := risk_anomalies d; next_id := next_id d |}.

Definition add_risk_anomaly (r : RiskAnomalyRecord) (d : Db) : Db :=
  {| accounts := accounts d; transactions := transactions d;
     audit_logs := audit_logs d; compliance_checks := compliance_checks d;
     risk_metrics := risk_metrics d; risk_alerts := risk_alerts d;
     risk_anomalies := r :: risk_anomalies d; next_id := next_id d |}.

Definition bump_id (d : Db) : Db :=
  {| accounts := accounts d; transactions := transactions d;
     audit_logs := audit_logs d; compliance_checks := compliance_checks d;
     risk_metrics := risk_metrics d; risk_alerts := risk_alerts d;
     risk_anomalies := risk_anomalies d; next_id := S (next_id d) |}.

Definition update_db (f : Db -> Db) : M unit :=
  modify (fun w => set_db (f (db w)) w).

(** The [DEFAULT uuid_generate_v4()] of a primary key. *)
Definition fresh_id : M string :=
  n <- gets (fun w => next_id (db w));;
  update_db bump_id;;;
  ret (uuid_generate_v4 n).

(** accountRepository *)

Definition findAccountByIdForUpdate (accountId : string) : M (option AccountRecord) :=
  query (SelectAccountForUpdate accountId);;;
  gets (fun w => accounts (db w) !! accountId).

Definition findAccountById (accountId : string) : M (option AccountRecord) :=
  query (SelectAccount accountId);;;
  gets (fun w => accounts (db w) !! accountId).

Definition add_balance (delta : money) (a : AccountRecord) : AccountRecord :=
  {| acc_id := acc_id a; acc_user_id := acc_user_id a;
     acc_currency := acc_currency a; acc_balance := (acc_balance a + delta)%Z |}.

(** [UPDATE accounts SET balance = balance + delta WHERE id = accountId] *)
Definition updateBalance (accountId : string) (delta : money) : M unit :=
  query (UpdateBalance accountId delta);;;
  update_db (with_accounts (alter (add_balance delta) accountId)).

(** auditLogRepository *)

Definition fetchLatestHash : M (option string) :=
  query SelectLatestHash;;;
  gets (fun w => option_map al_hash (head (audit_logs (db w)))).

Definition insertAuditLog (eventType : string) (payload : json)
    (hash : string) (previousHash : option string) : M AuditLogRecord :=
  query (InsertAuditLog eventType);;;
  i <- fresh_id;;
  let row := {| al_id := i; al_event_type := eventType; al_payload := payload;
                al_hash := hash; al_previous_hash := previousHash |} in
  update_db (add_audit_log row);;;
  ret row.

(** transactionRepository *)

Definition insertTransaction (accountId : string)
    (counterpartyAccountId : option string) (amount : money) (currency : string)
    (direction : Direction) (memo : option string) (encryptedPayload : string)
    : M TransactionRecord :=
  query (InsertTransaction accountId direction);;;
  now <- gets (fun w => next_id (db w));;
  i <- fresh_id;;
  let row := {| tx_id := i; tx_account_id := accountId;
                tx_counterparty_account_id := counterpartyAccountId;
                tx_amount := amount; tx_currency := currency;
                tx_direction := direction; tx_memo := memo;
                tx_encrypted_payload := encryptedPayload;
                tx_created_at := NOW now |} in
  update_db (add_transaction row);;;
  ret row.

(** [WHERE account_id = $1 ORDER BY created_at DESC LIMIT $2] *)
Definition transactions_of (accountId : string) (limit : nat) (d : Db)
    : list TransactionRecord :=
  take limit
    (List.filter (fun t => String.eqb (tx_account_id t) accountId) (transactions d)).

Definition listTransactionsForAccount (accountId : string) (limit : nat)
    : M (list TransactionRecord) :=
  query (SelectTransactions accountId limit);;;
  gets (fun w => transactions_of accountId limit (db w)).

(** complianceRepository *)

Definition insertComplianceCheck (userId : string) (transactionId : option string)
    (checkType : string) (status : CheckStatus) (details : json)
    : M ComplianceCheckRecord :=
  query (InsertComplianceCheck checkType);;;
  i <- fresh_id;;
  let row := {| cc_id := i; cc_user_id := userId;
                cc_transaction_id := transactionId; cc_check_type := checkType;
                cc_status := status; cc_details := details |} in
  update_db (add_compliance_check row);;;
  ret row.

(** riskRepository *)

Definition insertRiskMetric (accountId : string) (exposure leverage lossRatio : Q)
    (windowInDays : Z) : M RiskMetricRecord :=
  query (InsertRiskMetric accountId);;;
  i <- fresh_id;;
  let row := {| rm_id := i; rm_account_id := accountId; rm_exposure := exposure;
                rm_leverage := leverage; rm_loss_ratio := lossRatio;
                observation_window := windowInDays |} in
  update_db (add_risk_metric row);;;
  ret row.

Definition insertRiskAlert (accountId : option string) (alertType : string)
    (severity : RiskAlertSeverity) (details : json) : M RiskAlertRecord :=
  query (InsertRiskAlert alertType);;;
  now <- gets (fun w => next_id (db w));;
  i <- fresh_id;;
  let row := {| ra_id := i; ra_account_id := accountId;
                ra_alert_type := alertType; ra_severity := severity;
                ra_details := details; triggered_at := NOW now |} in
  update_db (add_risk_alert row);;;
  ret row.

Definition insertAnomalyEvent (transactionId accountId : string) (score threshold : R)
    (detectorVersion : string) (metadata : json) : M RiskAnomalyRecord :=
  query (InsertAnomalyEvent transactionId);;;
  i <- fresh_id;;
  let row := {| an_id := i; an_transaction_id := transactionId;
                an_account_id := accountId; anomaly_score := score;
                score_threshold := threshold; detector_version := detectorVersion;
                metadata := metadata |} in
  update_db (add_risk_anomaly row);;;
  ret row.

(* ===================================================================== *)
(** ** auditLogService *)
(* ===================================================================== *)

(** [sha256(JSON.stringify({ eventType, payload, previousHash }))] *)
Definition digest (eventType : string) (payload : json) (previousHash : option string)
    : string :=
  sha256_hex
    (JSON_stringify
       (JObj [("eventType", JStr eventType); ("payload", payload);
              ("previousHash", json_of_nullable previousHash)])).

Definition recordAuditEvent (eventType : string) (payload : json) : M unit :=
  previousHash <- fetchLatestHash;;
  let hash := digest eventType payload previousHash in
  insertAuditLog eventType payload hash previousHash;;;
  ret tt.

End Repositories.

(* ===================================================================== *)
(** ** utils/redis and alertService *)
(* ===================================================================== *)

Section Alerts.

Context `{Platform} (env : Env).

Definition set_redis (c failed : bool) (w : World) : World :=
  {| db := db w; redis_client := c; connectionFailed := failed;
     streams := streams w; statements := statements w |}.

Definition add_stream_entry (stream : string) (entry : list (string * string))
    (w : World) : World :=
  {| db := db w; redis_client := redis_client w;
     connectionFailed := connectionFailed w;
     streams := (stream, entry) :: streams w; statements := statements w |}.

(** [true] for a connected client, [false] for [null]. *)
Definition getRedisClient : M bool :=
  if negb (enableRedisStreams env) then ret false
  else
    c <- gets redis_client;;
    if c then ret true
    else
      failed <- gets connectionFailed;;
      if failed then ret false
      else if redis_connect (redisUrl env)
           then modify (set_redis true false);;; ret true
           else modify (set_redis false true);;; ret false.

Definition publishToStream (stream : string) (entry : list (string * string))
    : M unit :=
  if negb (enableRedisStreams env) then ret tt
  else
    redis <- getRedisClient;;
    if negb redis then ret tt
    else if redis_xAdd stream entry
         then modify (add_stream_entry stream entry)
         else throw (JsError "xAdd rejected").

Definition severity_name (s : RiskAlertSeverity) : string :=
  match s with
  | low => "low"
  | medium => "medium"
  | high => "high"
  | critical => "critical"
  end.

Definition RISK_ALERT_STREAM : string := "risk-alerts".

Definition raiseRiskAlert (accountId : option string) (alertType : string)
    (severity : RiskAlertSeverity) (details : json) : M RiskAlertRecord :=
  alert <- insertRiskAlert accountId alertType severity details;;
  recordAuditEvent "risk.alert.raised"
    (JObj [("alertId", JStr (ra_id alert));
           ("alertType", JStr (ra_alert_type alert));
           ("severity", JStr (severity_name (ra_severity alert)));
           ("accountId", json_of_nullable (ra_account_id alert));
           ("details", ra_details alert)]);;;
  when (enableRedisStreams env)
    (publishToStream RISK_ALERT_STREAM
       [("id", ra_id alert);
        ("type", ra_alert_type alert);
        ("severity", severity_name (ra_severity alert));
        ("accountId", default "" (ra_account_id alert));
        ("triggeredAt", toISOString (triggered_at alert))]);;;
  ret alert.

End Alerts.

(* ===================================================================== *)
(** ** complianceService *)
(* ===================================================================== *)

(** The canonical form of a character under the [i] flag of a regular
    expression without the [u] flag: ASCII letters are upper-cased, and no
    other character is mapped onto an ASCII one. *)
Definition canonicalize (c : ascii) : ascii :=
  let n := nat_of_ascii c in
  if (97 <=? n)%nat && (n <=? 122)%nat then ascii_of_nat (n - 32) else c.

(** Whether the literal pattern matches at the start of the string. *)
Fixpoint matches_here (pattern s : string) : bool :=
  match pattern, s with
  | EmptyString, _ => true
  | String _ _, EmptyString => false
  | String p pattern', String c s' =>
      Ascii.eqb (canonicalize p) (canonicalize c) && matches_here pattern' s'
  end.

(** [/pattern/i.test(s)] for a pattern made of literal characters. *)
Fixpoint regex_test_i (pattern s : string) : bool :=
  matches_here pattern s
  || match s with
     | EmptyString => false
     | String _ s' => regex_test_i pattern s'
     end.

Definition AML_THRESHOLD : money := units 50000.

Definition HIGH_RISK_MEMO_PATTERNS : list string :=
  ["offshore"; "crypto"; "shell"; "hawala"].

Record ComplianceResult : Type := {
  checkType : string;
  cr_status : CheckStatus;
  cr_details : json
}.

Definition status_name (s : CheckStatus) : string :=
  match s with
  | pending => "pending"
  | passed => "passed"
  | failed => "failed"
  end.

Definition json_of_result (r : ComplianceResult) : json :=
  JObj [("checkType", JStr (checkType r));
        ("status", JStr (status_name (cr_status r)));
        ("details", cr_details r)].

Section Compliance.

Context `{Platform} (env : Env).

Definition not_test : bool := negb (String.eqb (nodeEnv env) "test").

Definition simulateKyc (userId : string) : M ComplianceResult :=
  result <- insertComplianceCheck userId None "kyc-profile" passed
              (JObj [("verificationProvider", JStr "MockID+");
                     ("riskScore", JNum (12 # 100))]);;
  ret {| checkType := cc_check_type result; cr_status := cc_status result;
         cr_details := cc_details result |}.

(** [memo ? PATTERNS.some((p) => p.test(memo)) : false] *)
Definition memoMatch_of (memo : option string) : bool :=
  match memo with
  | Some m =>
      if truthy m then existsb (fun p => regex_test_i p m) HIGH_RISK_MEMO_PATTERNS
      else false
  | None => false
  end.

Definition simulateAml (userId transactionId : string) (amount : money)
    (currency : string) (memo : option string) : M ComplianceResult :=
  let memoMatch := memoMatch_of memo in
  let isHighValue := (AML_THRESHOLD <=? amount)%Z in
  let flagged := memoMatch || isHighValue in
  let status := if flagged then failed else passed in
  result <- insertComplianceCheck userId (Some transactionId) "aml-transaction" status
              (JObj [("amount", JMoney amount);
                     ("currency", JStr currency);
                     ("memo", json_of_nullable memo);
                     ("rulesTriggered",
                      JObj [("highValue", JBool isHighValue);
                            ("memoPattern", JBool memoMatch)])]);;
  when (match status with failed => not_test | _ => false end)
    (raiseRiskAlert env None "aml_flag" critical
       (JObj [("userId", JStr userId);
              ("transactionId", JStr transactionId);
              ("amount", JMoney amount);
              ("currency", JStr currency);
              ("reason", JStr (if memoMatch then "memo_pattern" else "high_value"))]);;;
     ret tt);;;
  ret {| checkType := cc_check_type result; cr_status := cc_status result;
         cr_details := cc_details result |}.

Definition runComplianceSimulation (userId transactionId : string) (amount : money)
    (currency : string) (memo : option string) : M (list ComplianceResult) :=
  kycResult <- simulateKyc userId;;
  amlResult <- simulateAml userId transactionId amount currency memo;;
  let results := [kycResult; amlResult] in
  when not_test
    (recordAuditEvent "compliance.simulation.completed"
       (JObj [("transactionId", JStr transactionId);
              ("userId", JStr userId);
              ("results", JArr (map json_of_result results))]));;;
  ret results.

End Compliance.

(* ===================================================================== *)
(** ** riskMonitoringService *)
(* ===================================================================== *)

Definition DETECTOR_VERSION : string := "iforest-1.0".
Definition OBSERVATION_WINDOW_DAYS : Z := 90.
Definition ANOMALY_THRESHOLD : R := 0.65%R.

Record RiskEvaluationResult : Type := {
  exposure : Q;
  leverage : Q;
  lossRatio : Q;
  anomalyScore : option R
}.

(** [x > y] on numbers *)
Definition Qgt_bool (x y : Q) : bool := negb (Qle_bool x y).

(** The three accumulators [totalDebits], [totalCredits], [rollingLoss]. *)
Definition accumulate (acc : Q * Q * Q) (tx : TransactionRecord) : Q * Q * Q :=
  let '(totalDebits, totalCredits, rollingLoss) := acc in
  let amount := Qabs (toNumber (tx_amount tx)) in
  match tx_direction tx with
  | debit => (totalDebits + amount, totalCredits, rollingLoss + amount)%Q
  | credit => (totalDebits, totalCredits + amount, rollingLoss - amount)%Q
  end.

Definition computeMetrics (accountBalance : Q) (transactions : list TransactionRecord)
    : RiskEvaluationResult :=
  let '(totalDebits, totalCredits, rollingLoss) :=
    fold_left accumulate transactions (0, 0, 0)%Q in
  let netOutflow := (totalDebits - totalCredits)%Q in
  let exposure := Qmax 0 netOutflow in
  let leverage := (totalDebits / Qmax accountBalance 1)%Q in
  let lossRatio := (Qmax 0 rollingLoss / Qmax totalCredits 1)%Q in
  {| exposure := exposure; leverage := leverage; lossRatio := lossRatio;
     anomalyScore := None |}.

Definition direction_name (d : Direction) : string :=
  match d with
  | credit => "credit"
  | debit => "debit"
  end.

(** [date.getUTCHours()] of an instant in milliseconds *)
Definition getUTCHours (t : Z) : Z := ((t / 3600000) mod 24)%Z.

(** [memo.length] *)
Definition memo_length (memo : option string) : nat :=
  match memo with
  | Some m => String.length m
  | None => 0
  end.

Definition buildFeatureVector (transaction : TransactionRecord) : list R :=
  let amount := Q2R (Qabs (toNumber (tx_amount transaction))) in
  let logAmount := ln (amount + 1)%R in
  let direction :=
    match tx_direction transaction with
    | debit => 1%R
    | credit => 0%R
    end in
  let hourOfDay := (IZR (getUTCHours (tx_created_at transaction)) / 24)%R in
  let counterparty :=
    match tx_counterparty_account_id transaction with
    | Some c => if truthy c then 1%R else 0%R
    | None => 0%R
    end in
  let memoLength := INR (memo_length (tx_memo transaction)) in
  [logAmount; direction; hourOfDay; counterparty; memoLength].

Section Risk.

Context `{Platform} (env : Env).

(** [new IsolationForest(75, Math.min(128, n))] after [fit(features)] *)
Definition fitted_forest (features : list (list R)) : IsolationForest.Forest :=
  let subsampleSize := Nat.min 128 (length features) in
  {| IsolationForest.treeCount := 75;
     IsolationForest.subsampleSize := subsampleSize;
     IsolationForest.trees := forest_fit 75 subsampleSize features |}.

Definition detectAnomaly (accountId : string) (transactions : list TransactionRecord)
    : M (option R) :=
  if (length transactions <? 5)%nat then ret None
  else
    let features := map buildFeatureVector transactions in
    let forest := fitted_forest features in
    let latestFeature := hd [] features in
    let score := IsolationForest.score forest latestFeature in
    when (if Rge_dec score ANOMALY_THRESHOLD then true else false)
      match transactions with
      | [] => ret tt
      | latestTransaction :: _ =>
          insertAnomalyEvent (tx_id latestTransaction) accountId score
            ANOMALY_THRESHOLD DETECTOR_VERSION
            (JObj [("amount", JMoney (tx_amount latestTransaction));
                   ("direction", JStr (direction_name (tx_direction latestTransaction)));
                   ("timestamp", JStr (toISOString (tx_created_at latestTransaction)));
                   ("counterpartyAccountId",
                    json_of_nullable (tx_counterparty_account_id latestTransaction))]);;;
          when (not_test env)
            (raiseRiskAlert env (Some accountId) "anomaly_detection" high
               (JObj [("score", JReal score);
                      ("threshold", JReal ANOMALY_THRESHOLD);
                      ("transactionId", JStr (tx_id latestTransaction))]);;;
             ret tt)
      end;;;
    ret (Some score).

Definition checkThresholds (accountId : string) (metrics : RiskEvaluationResult)
    (accountBalance : Q) : M unit :=
  when (Qgt_bool (leverage metrics) 2 && not_test env)
    (raiseRiskAlert env (Some accountId) "leverage_threshold" high
       (JObj [("leverage", JNum (leverage metrics)); ("threshold", JNum 2%Q)]);;;
     ret tt);;;
  when (Qgt_bool (lossRatio metrics) (1 # 10) && not_test env)
    (raiseRiskAlert env (Some accountId) "loss_threshold" medium
       (JObj [("lossRatio", JNum (lossRatio metrics)); ("threshold", JNum (1 # 10))]);;;
     ret tt);;;
  when (Qgt_bool (exposure metrics) (accountBalance * (1 # 2))%Q
        && Qgt_bool (exposure metrics) 0 && not_test env)
    (raiseRiskAlert env (Some accountId) "exposure_threshold" medium
       (JObj [("exposure", JNum (exposure metrics));
              ("balance", JNum accountBalance);
              ("ratio", if Qeq_bool accountBalance 0 then JNull
                        else JNum (exposure metrics / accountBalance)%Q)]);;;
     ret tt).

Definition evaluateAccountRisk (accountId : string) : M RiskEvaluationResult :=
  account <- findAccountById accountId;;
  match account with
  | None =>
      throw (JsError ("Account " +:+ accountId +:+ " not found for risk evaluation."))
  | Some account =>
      transactions <- listTransactionsForAccount accountId 200;;
      let metrics := computeMetrics (toNumber (acc_balance account)) transactions in
      insertRiskMetric accountId (exposure metrics) (leverage metrics)
        (lossRatio metrics) OBSERVATION_WINDOW_DAYS;;;
      checkThresholds accountId metrics (toNumber (acc_balance account));;;
      anomalyScore <- detectAnomaly accountId transactions;;
      ret {| exposure := exposure metrics; leverage := leverage metrics;
             lossRatio := lossRatio metrics; anomalyScore := anomalyScore |}
  end.

End Risk.

(* ===================================================================== *)
(** ** vaultService and encryptionService *)
(* ===================================================================== *)

#[local] Instance byte_eq_decision : EqDecision byte := Byte.byte_eq_dec.

Record EncryptedPayload : Type := {
  encryptedKey : string;
  iv : string;
  authTag : string;
  ciphertext : string;
  vaultCiphertext : option string
}.

(** The random bytes one call of encryptPayload draws:
    [crypto.randomBytes(32)], [crypto.randomBytes(12)] and the OAEP seed. *)
Record Entropy : Type := {
  rnd_aesKey : list byte;
  rnd_iv : list byte;
  rnd_oaepSeed : list byte
}.

(** [addr.replace] of one trailing slash by nothing *)
Fixpoint strip_trailing_slash (s : string) : string :=
  match s with
  | EmptyString => EmptyString
  | String c EmptyString => if Ascii.eqb c "/" then EmptyString else s
  | String c s' => String c (strip_trailing_slash s')
  end.

Definition AUTH_FAILURE : error :=
  JsError "Unsupported state or unable to authenticate data".

Section Encryption.

Context `{Platform} (env : Env).

Definition isVaultConfigured : bool :=
  truthy (vault_addr env) && truthy (vault_token env).

Definition vaultFetch (endpoint method : string) (body : option string)
    : outcome (option VaultData) :=
  if negb isVaultConfigured then inr None
  else
    match vault_http (strip_trailing_slash (vault_addr env) +:+ "/v1/" +:+ endpoint)
            method body with
    | NetworkFailure => inl (JsError "fetch failed")
    | NotOk _ text => inl (JsError ("Vault request failed: " +:+ text))
    | Ok data => inr data
    end.

Definition encryptWithVault (plaintext : list byte) : outcome string :=
  if negb isVaultConfigured then inr (base64_encode plaintext)
  else
    let body := JSON_stringify (JObj [("plaintext", JStr (base64_encode plaintext))]) in
    match vaultFetch (vault_transitPath env +:+ "/encrypt/" +:+ vault_encryptionKeyName env)
            "POST" (Some body) with
    | inl e => inl e
    | inr result =>
        match result with
        | Some {| ciphertext_field := Some c |} => inr c
        | _ => inr (base64_encode plaintext)
        end
    end.

Definition decryptWithVault (ciphertext : string) : outcome (list byte) :=
  if negb isVaultConfigured then inr (base64_decode ciphertext)
  else
    let body := JSON_stringify (JObj [("ciphertext", JStr ciphertext)]) in
    match vaultFetch (vault_transitPath env +:+ "/decrypt/" +:+ vault_encryptionKeyName env)
            "POST" (Some body) with
    | inl e => inl e
    | inr result =>
        match result with
        | Some {| plaintext_field := Some plain |} =>
            if truthy plain then inr (base64_decode plain)
            else inl (JsError "Vault decrypt response missing plaintext.")
        | _ => inl (JsError "Vault decrypt response missing plaintext.")
        end
    end.

(** [createCipheriv("aes-256-gcm", key, iv)]: ciphertext and tag.  The
    checks node:crypto makes on the lengths of key, nonce and tag are left
    to the two functions of the platform. *)
Definition gcm_encrypt (key iv data : list byte) : list byte * list byte :=
  let encrypted := aes256_ctr key iv data in
  (encrypted, aes256_gcm_tag key iv encrypted).

(** [createDecipheriv] with [setAuthTag]: [final()] throws unless the tag is
    the tag of the ciphertext. *)
Definition gcm_decrypt (key iv encrypted tag : list byte) : outcome (list byte) :=
  if bool_decide (tag = aes256_gcm_tag key iv encrypted)
  then inr (aes256_ctr key iv encrypted)
  else inl AUTH_FAILURE.

(** [Buffer.from(key, "base64").toString("utf8")] *)
Definition pem_of (key : string) : string :=
  string_of_list_byte (base64_decode key).

Definition encryptPayload (payload : json) (rnd : Entropy) : outcome EncryptedPayload :=
  if negb (truthy (rsaPublicKey env)) || negb (truthy (rsaPrivateKey env))
  then inl (JsError "RSA key pair is not configured.")
  else
    let aesKey := rnd_aesKey rnd in
    let iv := rnd_iv rnd in
    let serialized := list_byte_of_string (JSON_stringify payload) in
    let '(encrypted, authTag) := gcm_encrypt aesKey iv serialized in
    match rsa_publicEncrypt (pem_of (rsaPublicKey env)) (rnd_oaepSeed rnd) aesKey with
    | None => inl (JsError "publicEncrypt failed")
    | Some encryptedKey =>
        match encryptWithVault aesKey with
        | inl e => inl e
        | inr vaultCiphertext =>
            inr {| encryptedKey := base64_encode encryptedKey;
                   iv := base64_encode iv;
                   authTag := base64_encode authTag;
                   ciphertext := base64_encode encrypted;
                   vaultCiphertext := Some vaultCiphertext |}
        end
    end.

(** The first half of decryptPayload: the key from Vault, [None] when the
    envelope has no [vaultCiphertext] or the Vault call throws. *)
Definition vault_key (input : EncryptedPayload) : option (list byte) :=
  match vaultCiphertext input with
  | Some vc =>
      if truthy vc then
        match decryptWithVault vc with
        | inr key => Some key
        | inl _ => None
        end
      else None
  | None => None
  end.

Definition decryptPayload (input : EncryptedPayload) : outcome json :=
  let unwrapped :=
    match vault_key input with
    | Some key => inr key
    | None =>
        match rsa_privateDecrypt (pem_of (rsaPrivateKey env))
                (base64_decode (encryptedKey input)) with
        | Some key => inr key
        | None => inl (JsError "privateDecrypt failed")
        end
    end in
  match unwrapped with
  | inl e => inl e
  | inr aesKey =>
      match gcm_decrypt aesKey (base64_decode (iv input))
              (base64_decode (ciphertext input)) (base64_decode (authTag input)) with
      | inl e => inl e
      | inr decrypted =>
          match JSON_parse (string_of_list_byte decrypted) with
          | Some value => inr value
          | None => inl (JsError "Unexpected token in JSON")
          end
      end
  end.

End Encryption.

Definition json_of_envelope (e : EncryptedPayload) : json :=
  JObj ([("encryptedKey", JStr (encryptedKey e));
         ("iv", JStr (iv e));
         ("authTag", JStr (authTag e));
         ("ciphertext", JStr (ciphertext e))]
        ++ match vaultCiphertext e with
           | Some vc => [("vaultCiphertext", JStr vc)]
           | None => []
           end).

(* ===================================================================== *)
(** ** db/pool: withTransaction *)
(* ===================================================================== *)

(** [BEGIN], the handler, then [COMMIT]; when the handler throws, [ROLLBACK]
    puts the database back to what it was at [BEGIN] and the error is thrown
    again.  What the handler did outside the database stays done. *)
Definition withTransaction {A} (handler : M A) : M A :=
  fun w =>
    match handler (log_statement BEGIN w) with
    | (inr result, w') => (inr result, log_statement COMMIT w')
    | (inl e, w') => (inl e, log_statement ROLLBACK (set_db (db w) w'))
    end.

(* ===================================================================== *)
(** ** transactionService *)
(* ===================================================================== *)

(** The request as createTransfer reads it: the messages of
    [validationResult(req)] and the fields of [req.body]; [req_amount] is
    [Number(amount)], [None] for [NaN]. *)
Record TransferRequest : Type := {
  validation_errors : list string;
  req_sourceAccountId : string;
  req_destinationAccountId : string;
  req_amount : option money;
  req_currency : string;
  req_memo : option string
}.

Record TransferResult : Type := {
  tr_debit : TransactionRecord;
  tr_credit : TransactionRecord;
  tr_encryptedPayload : EncryptedPayload;
  tr_compliance : list ComplianceResult;
  tr_sourceRisk : RiskEvaluationResult;
  tr_destinationRisk : RiskEvaluationResult
}.

(** An object property whose value may be [undefined]: JSON.stringify leaves
    it out. *)
Definition optional_field (k : string) (v : option string) : list (string * json) :=
  match v with
  | Some s => [(k, JStr s)]
  | None => []
  end.

Definition is_client (r : UserRole) : bool :=
  match r with
  | client => true
  | _ => false
  end.

Section Transfer.

Context `{Platform} (env : Env).

(** The handler passed to [db.withTransaction].  [sourceBalance] is
    [Number(sourceAccount.balance)], compared with the amount as decimals. *)
Definition transferHandler (sourceAccountId destinationAccountId : string)
    (sanitizedAmount : money) (currency : string) (memo : option string)
    (requester : AuthenticatedUser) (encryptedPayload : EncryptedPayload)
    : M TransferResult :=
  sourceAccount <- findAccountByIdForUpdate sourceAccountId;;
  destinationAccount <- findAccountByIdForUpdate destinationAccountId;;
  match sourceAccount, destinationAccount with
  | Some sourceAccount, Some destinationAccount =>
      if is_client (au_role requester)
         && negb (String.eqb (au_id requester) (acc_user_id sourceAccount))
      then throw TransferForbidden
      else if negb (String.eqb (acc_currency sourceAccount) currency)
              || negb (String.eqb (acc_currency destinationAccount) currency)
      then throw (AppError400 "Currency mismatch between accounts and payload.")
      else
        let sourceBalance := acc_balance sourceAccount in
        if (sourceBalance <? sanitizedAmount)%Z
        then throw InsufficientFundsError
        else
          updateBalance sourceAccountId (- sanitizedAmount)%Z;;;
          updateBalance destinationAccountId sanitizedAmount;;;
          let serializedPayload := JSON_stringify (json_of_envelope encryptedPayload) in
          debit <- insertTransaction sourceAccountId (Some destinationAccountId)
                     sanitizedAmount currency debit memo serializedPayload;;
          credit <- insertTransaction destinationAccountId (Some sourceAccountId)
                      sanitizedAmount currency credit memo serializedPayload;;
          recordAuditEvent "transaction.transfer"
            (JObj [("debitTransactionId", JStr (tx_id debit));
                   ("creditTransactionId", JStr (tx_id credit));
                   ("sourceAccountId", JStr sourceAccountId);
                   ("destinationAccountId", JStr destinationAccountId);
                   ("amount", JMoney sanitizedAmount);
                   ("currency", JStr currency);
                   ("createdBy", JStr (au_id requester))]);;;
          compliance <- runComplianceSimulation env (acc_user_id sourceAccount)
                          (tx_id debit) sanitizedAmount currency memo;;
          sourceRisk <- evaluateAccountRisk env sourceAccountId;;
          destinationRisk <- evaluateAccountRisk env destinationAccountId;;
          ret {| tr_debit := debit; tr_credit := credit;
                 tr_encryptedPayload := encryptedPayload;
                 tr_compliance := compliance;
                 tr_sourceRisk := sourceRisk;
                 tr_destinationRisk := destinationRisk |}
  | _, _ => throw (AppError "Account not found." 404)
  end.

Definition payloadForEncryption (sourceAccountId destinationAccountId : string)
    (sanitizedAmount : money) (currency : string) (memo : option string)
    (requester : AuthenticatedUser) : json :=
  JObj ([("sourceAccountId", JStr sourceAccountId);
         ("destinationAccountId", JStr destinationAccountId);
         ("amount", JMoney sanitizedAmount);
         ("currency", JStr currency)]
        ++ optional_field "memo" memo
        ++ [("createdBy", JStr (au_id requester))]).

Definition createTransfer (req : TransferRequest) (requester : AuthenticatedUser)
    (rnd : Entropy) : M TransferResult :=
  match validation_errors req with
  | _ :: _ =>
      throw (AppError ("Validation failed: "
                       +:+ String.concat ", " (validation_errors req)) 422)
  | [] =>
      let sourceAccountId := req_sourceAccountId req in
      let destinationAccountId := req_destinationAccountId req in
      let currency := req_currency req in
      let memo := req_memo req in
      if String.eqb sourceAccountId destinationAccountId
      then throw (AppError400 "Source and destination accounts must differ.")
      else
        match req_amount req with
        | None => throw (AppError400 "Amount must be a positive number.")
        | Some sanitizedAmount =>
            if (sanitizedAmount <=? 0)%Z
            then throw (AppError400 "Amount must be a positive number.")
            else
              encryptedPayload <-
                lift (encryptPayload env
                        (payloadForEncryption sourceAccountId destinationAccountId
                           sanitizedAmount currency memo requester) rnd);;
              withTransaction
                (transferHandler sourceAccountId destinationAccountId
                   sanitizedAmount currency memo requester encryptedPayload)
        end
  end.

End Transfer.

(* ===================================================================== *)
(** ** Replaying the audit chain *)
(* ===================================================================== *)

Section Replay.

Context `{Platform}.

(** Modelled from the spec: the verification of the audit chain, which no
    function of the repository performs.  The entries are read in creation
    order; each hash is recomputed from the entry's event type and payload
    and the hash stored on the entry before it ([None] before the first), and
    compared with the stored hash. *)
Fixpoint replay (previous : option string) (entries : list AuditLogRecord) : bool :=
  match entries with
  | [] => true
  | e :: rest =>
      String.eqb (al_hash e) (digest (al_event_type e) (al_payload e) previous)
      && replay (Some (al_hash e)) rest
  end.

(** The table holds the newest entry first. *)
Definition creation_order (logs : list AuditLogRecord) : list AuditLogRecord :=
  reverse logs.




End Replay.

(* ===================================================================== *)
(** ** riskRepository and alertService: the recent alerts *)
(* ===================================================================== *)

(** [CASE severity WHEN 'critical' THEN 4 ... ELSE 0 END]; the column admits
    the four values only. *)
Definition severity_rank (s : RiskAlertSeverity) : Z :=
  match s with
  | critical => 4
  | high => 3
  | medium => 2
  | low => 1
  end.

(** [ORDER BY rank DESC, triggered_at DESC]: [a] may come before [b]. *)
Module AlertOrder <: TotalLeBool.

Definition t : Type := RiskAlertRecord.

Definition leb (a b : RiskAlertRecord) : bool :=
  (severity_rank (ra_severity b) <? severity_rank (ra_severity a))%Z
  || ((severity_rank (ra_severity a) =? severity_rank (ra_severity b))%Z
      && (triggered_at b <=? triggered_at a)%Z).

Lemma leb_total (a b : RiskAlertRecord) : leb a b = true \/ leb b a = true.
Proof.
  unfold leb.
  destruct (Z.ltb_spec (severity_rank (ra_severity b)) (severity_rank (ra_severity a)));
    [left; reflexivity|].
  destruct (Z.ltb_spec (severity_rank (ra_severity a)) (severity_rank (ra_severity b)));
    [right; reflexivity|].
  assert (E : severity_rank (ra_severity a) = severity_rank (ra_severity b)) by lia.
  rewrite E, Z.eqb_refl. cbn.
  destruct (Z.leb_spec (triggered_at b) (triggered_at a)); [left; reflexivity|].
  right. apply Z.leb_le. lia.
Qed.

End AlertOrder.

Module AlertSort := Sort AlertOrder.

(** The rows of one ordering the database may return: rows that tie are
    left in the order of the merge sort. *)
Definition listRecentAlerts (limit : nat) : M (list RiskAlertRecord) :=
  gets (fun w => take limit (AlertSort.sort (risk_alerts (db w)))).

(** [fetchRecentAlerts(limit = 100)] *)
Definition fetchRecentAlerts (limit : option nat) : M (list RiskAlertRecord) :=
  listRecentAlerts (default 100%nat limit).

(* ===================================================================== *)
(** ** accountRepository and accountService *)
(* ===================================================================== *)

(** The request as createAccountForUser reads it; [ar_userId] is [None] when
    the body has no [userId]. *)
Record AccountRequest : Type := {
  ar_validation_errors : list string;
  ar_userId : option string;
  ar_name : string;
  ar_currency : string
}.

Definition is_admin (r : UserRole) : bool :=
  match r with
  | admin => true
  | _ => false
  end.

Section Accounts.

Context `{Platform}.

(** [INSERT INTO accounts (user_id, name, currency)]: the key is generated and
    the balance is the column default, 0.  The name is not among the columns
    the services read. *)
Definition createAccount (userId name currency : string) : M AccountRecord :=
  i <- fresh_id;;
  let row := {| acc_id := i; acc_user_id := userId; acc_currency := currency;
                acc_balance := 0%Z |} in
  update_db (with_accounts (insert i row));;;
  ret row.

(** The rows of the table.  [accounts] is keyed by the id and keeps no
    creation time, so the order that [ORDER BY created_at DESC] gives is left
    open: the rows come in the order of the map. *)
Definition account_rows (d : Db) : list AccountRecord :=
  map snd (map_to_list (accounts d)).

Definition listAccounts : M (list AccountRecord) :=
  gets (fun w => account_rows (db w)).

Definition findAccountsByUser (userId : string) : M (list AccountRecord) :=
  gets (fun w =>
          List.filter (fun a => String.eqb (acc_user_id a) userId) (account_rows (db w))).

Definition createAccountForUser (req : AccountRequest) (requester : AuthenticatedUser)
    : M AccountRecord :=
  match ar_validation_errors req with
  | _ :: _ =>
      throw (AppError ("Validation failed: "
                       +:+ String.concat ", " (ar_validation_errors req)) 422)
  | [] =>
      let for_another :=
        match ar_userId req with
        | Some userId =>
            truthy userId && negb (String.eqb (au_id requester) userId)
        | None => false
        end in
      if negb (is_admin (au_role requester)) && for_another
      then throw (ForbiddenError
                    "Insufficient privileges to create accounts for other users.")
      else
        let targetUserId := default (au_id requester) (ar_userId req) in
        createAccount targetUserId (ar_name req) (ar_currency req)
  end.

Definition getAccounts (requester : AuthenticatedUser) : M (list AccountRecord) :=
  match au_role requester with
  | admin | auditor => listAccounts
  | client => findAccountsByUser (au_id requester)
  end.

End Accounts.

(* ===================================================================== *)
(** ** transactionRoutes: the transactions of an account *)
(* ===================================================================== *)

(** What the handler of [GET /transactions/account/:accountId] sends: the
    404 it answers itself, or the rows (status 200).  An error it passes to
    [next] is thrown.  The handler reads the owner with a query of its own,
    which is not among the statements of the repositories that the log
    keeps. *)
Inductive TransactionsReply : Type :=
| AccountNotFound
| TransactionRows (rows : list TransactionRecord).

Definition getAccountTransactions (user : AuthenticatedUser) (accountId : string)
    : M TransactionsReply :=
  ownerId <- gets (fun w => acc_user_id <$> accounts (db w) !! accountId);;
  match ownerId with
  | Some ownerId =>
      if negb (truthy ownerId) then ret AccountNotFound
      else if is_client (au_role user) && negb (String.eqb (au_id user) ownerId)
      then throw (ForbiddenError "You may only view transactions for your accounts.")
      else
        transactions <- listTransactionsForAccount accountId 50;;
        ret (TransactionRows transactions)
  | None => ret AccountNotFound
  end.

(* ===================================================================== *)
(** ** Users and sessions: userRepository, tokenService, authService *)
(* ===================================================================== *)

(** The two tables these services work on.  Their queries go to the pool,
    outside any transaction. *)
Record UserRecord : Type := {
  u_id : string;
  u_email : string;
  u_password_hash : string;
  u_role : UserRole
}.

Record RefreshTokenRecord : Type := {
  rt_id : string;
  rt_user_id : string;
  rt_token_id : string;
  rt_expires_at : Z;
  rt_revoked_at : option Z
}.

Record AuthDb : Type := {
  users : list UserRecord;
  refresh_tokens : list RefreshTokenRecord
}.

(** The payload of a token: [sub] and [role], [tokenId] in a refresh token,
    [jti] in an access token. *)
Record JwtPayload : Type := {
  sub : string;
  role : UserRole;
  tokenId : option string;
  jti : option string
}.

Record TokenPair : Type := {
  accessToken : string;
  refreshToken : string
}.

(** [env.jwtAccessSecret] and the like. *)
Record AuthEnv : Type := {
  jwtAccessSecret : string;
  jwtRefreshSecret : string;
  jwtAccessTtl : string;
  jwtRefreshTtl : string
}.

(** utils/errors is not among the sources: [UnauthorizedError] is the error
    of that name as these services construct it, with the message it is
    given, [None] when it is given none; the other errors are those of the
    services above. *)
Inductive AuthError : Type :=
| UnauthorizedError (message : option string)
| Raised (e : error).

(** jsonwebtoken, utils/password (bcrypt) and the interval arithmetic of
    PostgreSQL.  [jwt_decode token secret] is the payload and the expiry of a
    token signed with the secret, [None] when the signature does not verify;
    signing takes the clock, from which the expiry is computed.  Hashing takes
    the salt it draws. *)
Class AuthPlatform : Type := {
  jwt_sign : JwtPayload -> string -> string -> Z -> string;
  jwt_decode : string -> string -> option (JwtPayload * Z);
  hashPassword : string -> list byte -> string;
  verifyPassword : string -> string -> bool;
  (** [NOW() + $1::interval] *)
  add_interval : Z -> string -> Z
}.

(** The identifiers one call draws: [uuid()] for the token, [uuid()] for the
    row of the refresh token, the key PostgreSQL generates for a new user
    and the salt of the hash. *)
Record Draws : Type := {
  draw_tokenId : string;
  draw_rowId : string;
  draw_userId : string;
  draw_salt : list byte
}.

Section Auth.

Context `{AuthPlatform} (env : AuthEnv).

(** [jwt.verify(token, secret)] at the instant [now]: the payload, or [None]
    when it throws (bad signature, expired token). *)
Definition jwt_verify (token secret : string) (now : Z) : option JwtPayload :=
  match jwt_decode token secret with
  | Some (payload, exp) => if (now <? exp)%Z then Some payload else None
  | None => None
  end.

(** userRepository *)

Definition createUser (email passwordHash : string) (role : UserRole) (id : string)
    (d : AuthDb) : UserRecord * AuthDb :=
  let row := {| u_id := id; u_email := email; u_password_hash := passwordHash;
                u_role := role |} in
  (row, {| users := row :: users d; refresh_tokens := refresh_tokens d |}).

Definition findUserByEmail (email : string) (d : AuthDb) : option UserRecord :=
  List.find (fun u => String.eqb (u_email u) email) (users d).

Definition findUserById (id : string) (d : AuthDb) : option UserRecord :=
  List.find (fun u => String.eqb (u_id u) id) (users d).

(** tokenService *)

Definition generateTokens (user : AuthenticatedUser) (draws : Draws) (now : Z)
    (d : AuthDb) : TokenPair * AuthDb :=
  let tokenId := draw_tokenId draws in
  let accessToken :=
    jwt_sign {| sub := au_id user; role := au_role user; tokenId := None;
                jti := Some tokenId |}
      (jwtAccessSecret env) (jwtAccessTtl env) now in
  let refreshToken :=
    jwt_sign {| sub := au_id user; role := au_role user; tokenId := Some tokenId;
                jti := None |}
      (jwtRefreshSecret env) (jwtRefreshTtl env) now in
  let row := {| rt_id := draw_rowId draws; rt_user_id := au_id user;
                rt_token_id := tokenId;
                rt_expires_at := add_interval now (jwtRefreshTtl env);
                rt_revoked_at := None |} in
  ({| accessToken := accessToken; refreshToken := refreshToken |},
   {| users := users d; refresh_tokens := row :: refresh_tokens d |}).

Definition not_revoked (r : RefreshTokenRecord) : bool :=
  match rt_revoked_at r with
  | None => true
  | Some _ => false
  end.

Definition revoke (now : Z) (r : RefreshTokenRecord) : RefreshTokenRecord :=
  {| rt_id := rt_id r; rt_user_id := rt_user_id r; rt_token_id := rt_token_id r;
     rt_expires_at := rt_expires_at r; rt_revoked_at := Some now |}.

(** [UPDATE refresh_tokens SET revoked_at = NOW() WHERE ...] *)
Definition revoke_where (p : RefreshTokenRecord -> bool) (now : Z) (d : AuthDb) : AuthDb :=
  {| users := users d;
     refresh_tokens := map (fun r => if p r then revoke now r else r) (refresh_tokens d) |}.

(** A parameter that is [undefined] reaches PostgreSQL as NULL, and
    [token_id = NULL] holds for no row. *)
Definition has_token_id (tokenId : option string) (r : RefreshTokenRecord) : bool :=
  match tokenId with
  | Some t => String.eqb (rt_token_id r) t
  | None => false
  end.

Definition rotateRefreshToken (token : string) (draws : Draws) (now : Z) (d : AuthDb)
    : option TokenPair * AuthDb :=
  match jwt_verify token (jwtRefreshSecret env) now with
  | None => (None, d)
  | Some payload =>
      let existing :=
        List.filter (fun r => String.eqb (rt_user_id r) (sub payload)
                              && has_token_id (tokenId payload) r
                              && not_revoked r)
          (refresh_tokens d) in
      match existing with
      | [] => (None, d)
      | _ :: _ =>
          let d1 := revoke_where (has_token_id (tokenId payload)) now d in
          match findUserById (sub payload) d1 with
          | None => (None, d1)
          | Some user =>
              let '(tokens, d2) :=
                generateTokens {| au_id := u_id user; au_role := u_role user |}
                  draws now d1 in
              (Some tokens, d2)
          end
      end
  end.

Definition revokeTokensForUser (userId : string) (now : Z) (d : AuthDb) : AuthDb :=
  revoke_where (fun r => String.eqb (rt_user_id r) userId && not_revoked r) now d.

(** authService *)

Definition registerUser (email password : string) (role : UserRole) (draws : Draws)
    (now : Z) (d : AuthDb) : (AuthError + TokenPair) * AuthDb :=
  match findUserByEmail email d with
  | Some _ => (inl (Raised (AppError "Email already registered." 409)), d)
  | None =>
      let passwordHash := hashPassword password (draw_salt draws) in
      let '(user, d1) := createUser email passwordHash role (draw_userId draws) d in
      let '(tokens, d2) :=
        generateTokens {| au_id := u_id user; au_role := u_role user |} draws now d1 in
      (inr tokens, d2)
  end.

Definition loginUser (email password : string) (draws : Draws) (now : Z) (d : AuthDb)
    : (AuthError + TokenPair) * AuthDb :=
  match findUserByEmail email d with
  | None => (inl (UnauthorizedError (Some "Invalid credentials.")), d)
  | Some user =>
      if negb (verifyPassword password (u_password_hash user))
      then (inl (UnauthorizedError (Some "Invalid credentials.")), d)
      else
        let '(tokens, d1) :=
          generateTokens {| au_id := u_id user; au_role := u_role user |} draws now d in
        (inr tokens, d1)
  end.

Definition refreshUserToken (token : string) (draws : Draws) (now : Z) (d : AuthDb)
    : (AuthError + TokenPair) * AuthDb :=
  match rotateRefreshToken token draws now d with
  | (Some tokens, d1) => (inr tokens, d1)
  | (None, d1) => (inl (UnauthorizedError (Some "Invalid refresh token.")), d1)
  end.

Definition logoutUser (userId : string) (now : Z) (d : AuthDb) : AuthDb :=
  revokeTokensForUser userId now d.

(** authRoutes: [POST /auth/register].  [rr_role] is [None] when the body has
    no [role]. *)
Definition registerRoute (validation_errors : list string) (email password : string)
    (rr_role : option UserRole) (draws : Draws) (now : Z) (d : AuthDb)
    : (AuthError + TokenPair) * AuthDb :=
  match validation_errors with
  | _ :: _ =>
      (inl (Raised (AppError ("Validation failed: "
                              +:+ String.concat ", " validation_errors) 422)), d)
  | [] =>
      match default client rr_role with
      | client => registerUser email password client draws now d
      | _ => (inl (Raised (AppError400 "Only client self-registration is allowed.")), d)
      end
  end.

(** authMiddleware *)

(** [header.split(" ")] *)
Fixpoint split_spaces (s : string) : list string :=
  match s with
  | EmptyString => [EmptyString]
  | String c s' =>
      if Ascii.eqb c " " then EmptyString :: split_spaces s'
      else
        match split_spaces s' with
        | piece :: pieces => String c piece :: pieces
        | [] => [String c EmptyString]
        end
  end.

(** The user put on the request, or the error passed to [next].  [header] is
    [req.headers.authorization]. *)
Definition requireAuth (header : option string) (now : Z)
    : AuthError + AuthenticatedUser :=
  match header with
  | None => inl (UnauthorizedError (Some "Authorization header missing."))
  | Some header =>
      if negb (truthy header)
      then inl (UnauthorizedError (Some "Authorization header missing."))
      else
        match split_spaces header with
        | _ :: token :: _ =>
            if negb (truthy token)
            then inl (UnauthorizedError (Some "Bearer token missing."))
            else
              match jwt_verify token (jwtAccessSecret env) now with
              | Some payload => inr {| au_id := sub payload; au_role := role payload |}
              | None => inl (UnauthorizedError (Some "Invalid or expired token."))
              end
        | _ => inl (UnauthorizedError (Some "Bearer token missing."))
        end
  end.

End Auth.

(* ===================================================================== *)
(** ** utils/isolationForest: building the trees *)
(* ===================================================================== *)

(** The building half of the detector.  The random ratios
    [crypto.randomBytes(4).readUInt32BE() / 0xffffffff] are an input, taken in
    the order the code draws them: a function passes on the number of draws
    made so far.  Rows are rows of real numbers (fit replaces what is not
    finite by 0) with an entry for every attribute. *)
Module ForestBuilding.

Import IsolationForest.

Local Open Scope R_scope.

Section Building.

Variable rand : nat -> R.

Definition randomBetween (min max : R) (drawn : nat) : R * nat :=
  if Req_dec_T min max then (min, drawn)
  else (min + rand drawn * (max - min), S drawn).

(** [Math.min(...values)] and [Math.max(...values)] of values that are not
    empty *)
Definition minimum (values : list R) : R :=
  match values with
  | [] => 0
  | x :: rest => fold_left Rmin rest x
  end.

Definition maximum (values : list R) : R :=
  match values with
  | [] => 0
  | x :: rest => fold_left Rmax rest x
  end.

(** [row[attribute] < splitValue] *)
Definition goes_left (attribute : nat) (splitValue : R) (row : list R) : bool :=
  if Rlt_dec (nth attribute row 0) splitValue then true else false.

Definition leaf (data : list (list R)) : IsolationTreeNode :=
  Node (length data) None None None None true.

(** [buildTree(data, currentDepth, heightLimit)]; [levels] is
    [heightLimit - currentDepth], 0 when the depth has reached the limit. *)
Fixpoint buildTree (levels : nat) (data : list (list R)) (drawn : nat)
    : IsolationTreeNode * nat :=
  match levels with
  | O => (leaf data, drawn)
  | S levels' =>
      if (length data <=? 1)%nat then (leaf data, drawn)
      else
        let dimension := length (hd [] data) in
        if (dimension =? 0)%nat then (leaf data, drawn)
        else
          let '(picked, drawn1) := randomBetween 0 (INR dimension) drawn in
          let attribute := Nat.min (dimension - 1) (Z.to_nat (Int_part picked)) in
          let values := map (fun row => nth attribute row 0) data in
          let min := minimum values in
          let max := maximum values in
          if Req_dec_T min max then (leaf data, drawn1)
          else
            let '(splitValue, drawn2) := randomBetween min max drawn1 in
            let left := List.filter (goes_left attribute splitValue) data in
            let right :=
              List.filter (fun row => negb (goes_left attribute splitValue row)) data in
            let '(l, drawn3) :=
              buildTree levels' (if (0 <? length left)%nat then left else data) drawn2 in
            let '(r, drawn4) :=
              buildTree levels' (if (0 <? length right)%nat then right else data) drawn3 in
            (Node (length data) (Some attribute) (Some splitValue) (Some l) (Some r) false,
             drawn4)
  end.

(** The loop of randomSample: [result] and [used] so far.  [tries] bounds the
    number of draws; the loop of the source goes on until [size] distinct
    indices have come up. *)
Fixpoint sample_loop (tries : nat) (data : list (list R)) (size : nat)
    (result : list (list R)) (used : list nat) (drawn : nat)
    : option (list (list R) * nat) :=
  if (size <=? length result)%nat then Some (result, drawn)
  else
    match tries with
    | O => None
    | S tries' =>
        let '(picked, drawn1) := randomBetween 0 (INR (length data)) drawn in
        let index := Nat.min (length data - 1) (Z.to_nat (Int_part picked)) in
        if (length data <=? index)%nat
        then sample_loop tries' data size result used drawn1
        else if existsb (Nat.eqb index) used
        then sample_loop tries' data size result used drawn1
        else sample_loop tries' data size (result ++ [nth index data []])
               (index :: used) drawn1
    end.

Definition randomSample (tries : nat) (data : list (list R)) (size : nat) (drawn : nat)
    : option (list (list R) * nat) :=
  if (length data <=? size)%nat then Some (data, drawn)
  else sample_loop tries data size [] [] drawn.

(** [Math.ceil(Math.log2(subsampleSize))] *)
Definition heightLimit (subsampleSize : nat) : nat := Nat.log2_up subsampleSize.

(** [Array.from({ length: treeCount }).map(() => buildTree(sample, 0, heightLimit))] *)
Fixpoint build_trees (tries : nat) (count : nat) (subsampleSize : nat)
    (data : list (list R)) (drawn : nat) : option (list IsolationTreeNode * nat) :=
  match count with
  | O => Some ([], drawn)
  | S count' =>
      match randomSample tries data subsampleSize drawn with
      | None => None
      | Some (sample, drawn1) =>
          let '(tree, drawn2) := buildTree (heightLimit subsampleSize) sample drawn1 in
          match build_trees tries count' subsampleSize data drawn2 with
          | None => None
          | Some (trees, drawn3) => Some (tree :: trees, drawn3)
          end
      end
  end.

(** [new IsolationForest(treeCount, subsampleSize).fit(data)]: the trees of
    the forest afterwards. *)
Definition fit (tries : nat) (treeCount subsampleSize : nat) (data : list (list R))
    (drawn : nat) : option (list IsolationTreeNode) :=
  match data with
  | [] => Some []
  | first :: _ =>
      match build_trees tries treeCount subsampleSize data drawn with
      | None => None
      | Some (trees, _) =>
          if (length first =? 0)%nat then Some [] else Some trees
      end
  end.

End Building.

End ForestBuilding.

(* ===================================================================== *)
(** ** A platform to run the services on *)
(* ===================================================================== *)

(** Stand-ins for the libraries, with the algebra the services rely on: an
    injective digest, codecs that invert each other, a transform that is its
    own inverse, a tag that determines the ciphertext, a key wrap that
    unwraps.  Vault and Redis answer every call. *)
Module Demo.

Fixpoint stringify (j : json) : string :=
  match j with
  | JNull => "null"
  | JBool true => "true"
  | JBool false => "false"
  | JNum (Qmake n d) => pretty n +:+ "/" +:+ pretty (Zpos d)
  | JReal _ => "real"
  | JStr s => "<" +:+ s +:+ ">"
  | JArr items =>
      "[" +:+ (fix all (l : list json) : string :=
                 match l with
                 | [] => ""
                 | x :: rest => stringify x +:+ "," +:+ all rest
                 end) items +:+ "]"
  | JObj fields =>
      "{" +:+ (fix all (l : list (string * json)) : string :=
                 match l with
                 | [] => ""
                 | (k, v) :: rest => k +:+ ":" +:+ stringify v +:+ "," +:+ all rest
                 end) fields +:+ "}"
  end.

(** Reads back the three literals. *)
Definition parse (s : string) : option json :=
  if String.eqb s "null" then Some JNull
  else if String.eqb s "true" then Some (JBool true)
  else if String.eqb s "false" then Some (JBool false)
  else None.

#[export] Instance platform : Platform := {|
  sha256_hex := fun s => "sha256:" +:+ s;
  JSON_stringify := stringify;
  JSON_parse := parse;
  base64_encode := string_of_list_byte;
  base64_decode := list_byte_of_string;
  aes256_ctr := fun _ _ data => rev data;
  aes256_gcm_tag := fun key iv encrypted => key ++ iv ++ encrypted;
  rsa_publicEncrypt := fun _ _ data => Some data;
  rsa_privateDecrypt := fun _ data => Some data;
  vault_http := fun _ _ body =>
    Ok (Some {| ciphertext_field := body; plaintext_field := body |});
  redis_connect := fun _ => true;
  redis_xAdd := fun _ _ => true;
  uuid_generate_v4 := fun n => "id-" +:+ pretty n;
  NOW := fun n => (1700000000000 + 1000 * Z.of_nat n)%Z;
  toISOString := fun t => "t" +:+ pretty t;
  forest_fit := fun _ _ _ => []
|}.

(** The configuration of the end to end tests: [NODE_ENV=test], an RSA key
    pair, neither Vault nor Redis streams. *)
Definition test_env : Env := {|
  nodeEnv := "test";
  redisUrl := "redis://localhost:6379";
  enableRedisStreams := false;
  vault_addr := "";
  vault_token := "";
  vault_transitPath := "transit/algobank";
  vault_encryptionKeyName := "algobank-transit";
  rsaPrivateKey := "private";
  rsaPublicKey := "public"
|}.

(** A deployment with Redis streams switched on. *)
Definition streaming_env : Env := {|
  nodeEnv := "production";
  redisUrl := "redis://localhost:6379";
  enableRedisStreams := true;
  vault_addr := "";
  vault_token := "";
  vault_transitPath := "transit/algobank";
  vault_encryptionKeyName := "algobank-transit";
  rsaPrivateKey := "private";
  rsaPublicKey := "public"
|}.

Definition account (i owner : string) (b : money) : AccountRecord :=
  {| acc_id := i; acc_user_id := owner; acc_currency := "USD"; acc_balance := b |}.

(** Two accounts of Alice, one of Bob; the first funded with 1000. *)
Definition bank : Db := {|
  accounts := <["A" := account "A" "alice" (units 1000)]>
              (<["B" := account "B" "alice" (units 0)]>
               (<["C" := account "C" "bob" (units 500)]> ∅));
  transactions := [];
  audit_logs := [];
  compliance_checks := [];
  risk_metrics := [];
  risk_alerts := [];
  risk_anomalies := [];
  next_id := 0
|}.

Definition world : World := {|
  db := bank;
  redis_client := false;
  connectionFailed := false;
  streams := [];
  statements := []
|}.

(** The same libraries, with a Redis that connects and then rejects every
    [xAdd]. *)
Definition rejecting_redis : Platform := {|
  sha256_hex := sha256_hex (Platform := platform);
  JSON_stringify := JSON_stringify (Platform := platform);
  JSON_parse := JSON_parse (Platform := platform);
  base64_encode := base64_encode (Platform := platform);
  base64_decode := base64_decode (Platform := platform);
  aes256_ctr := aes256_ctr (Platform := platform);
  aes256_gcm_tag := aes256_gcm_tag (Platform := platform);
  rsa_publicEncrypt := rsa_publicEncrypt (Platform := platform);
  rsa_privateDecrypt := rsa_privateDecrypt (Platform := platform);
  vault_http := vault_http (Platform := platform);
  redis_connect := fun _ => true;
  redis_xAdd := fun _ _ => false;
  uuid_generate_v4 := uuid_generate_v4 (Platform := platform);
  NOW := NOW (Platform := platform);
  toISOString := toISOString (Platform := platform);
  forest_fit := forest_fit (Platform := platform)
|}.

(** The bank with account A funded with 100000. *)
Definition funded_world : World := {|
  db := with_accounts (alter (add_balance (units 99000)) "A") bank;
  redis_client := false;
  connectionFailed := false;
  streams := [];
  statements := []
|}.

Definition alice : AuthenticatedUser := {| au_id := "alice"; au_role := client |}.

Definition rnd : Entropy := {|
  rnd_aesKey := repeat x2a 32;
  rnd_iv := repeat x07 12;
  rnd_oaepSeed := repeat x00 32
|}.

Definition transfer (src dst : string) (amount : money) : TransferRequest := {|
  validation_errors := [];
  req_sourceAccountId := src;
  req_destinationAccountId := dst;
  req_amount := Some amount;
  req_currency := "USD";
  req_memo := Some "Invoice payment"
|}.

End Demo.

(* ===================================================================== *)
(** ** Further settings to run the services in *)
(* ===================================================================== *)

Module Cases.

Import Demo.

(** The libraries of [Demo] with a Redis that cannot be reached. *)
Definition unreachable_redis : Platform := {|
  sha256_hex := sha256_hex (Platform := platform);
  JSON_stringify := JSON_stringify (Platform := platform);
  JSON_parse := JSON_parse (Platform := platform);
  base64_encode := base64_encode (Platform := platform);
  base64_decode := base64_decode (Platform := platform);
  aes256_ctr := aes256_ctr (Platform := platform);
  aes256_gcm_tag := aes256_gcm_tag (Platform := platform);
  rsa_publicEncrypt := rsa_publicEncrypt (Platform := platform);
  rsa_privateDecrypt := rsa_privateDecrypt (Platform := platform);
  vault_http := vault_http (Platform := platform);
  redis_connect := fun _ => false;
  redis_xAdd := redis_xAdd (Platform := platform);
  uuid_generate_v4 := uuid_generate_v4 (Platform := platform);
  NOW := NOW (Platform := platform);
  toISOString := toISOString (Platform := platform);
  forest_fit := forest_fit (Platform := platform)
|}.

(** The payload of the transfer of 250 from A to B that Alice asks for. *)
Definition transfer_payload : json :=
  payloadForEncryption "A" "B" (units 250) "USD" (Some "Invoice payment") alice.

(** The libraries of [Demo] with a parser that also reads that payload
    back. *)
Definition reading_platform : Platform := {|
  sha256_hex := sha256_hex (Platform := platform);
  JSON_stringify := JSON_stringify (Platform := platform);
  JSON_parse := fun s =>
    if String.eqb s (stringify transfer_payload) then Some transfer_payload
    else parse s;
  base64_encode := base64_encode (Platform := platform);
  base64_decode := base64_decode (Platform := platform);
  aes256_ctr := aes256_ctr (Platform := platform);
  aes256_gcm_tag := aes256_gcm_tag (Platform := platform);
  rsa_publicEncrypt := rsa_publicEncrypt (Platform := platform);
  rsa_privateDecrypt := rsa_privateDecrypt (Platform := platform);
  vault_http := vault_http (Platform := platform);
  redis_connect := redis_connect (Platform := platform);
  redis_xAdd := redis_xAdd (Platform := platform);
  uuid_generate_v4 := uuid_generate_v4 (Platform := platform);
  NOW := NOW (Platform := platform);
  toISOString := toISOString (Platform := platform);
  forest_fit := forest_fit (Platform := platform)
|}.

(** The configuration of the tests with Vault configured. *)
Definition vault_env : Env := {|
  nodeEnv := "test";
  redisUrl := "redis://localhost:6379";
  enableRedisStreams := false;
  vault_addr := "http://vault:8200";
  vault_token := "root";
  vault_transitPath := "transit/algobank";
  vault_encryptionKeyName := "algobank-transit";
  rsaPrivateKey := "private";
  rsaPublicKey := "public"
|}.

(** A Vault that has become unreachable. *)
Definition vault_down (url method : string) (body : option string) : HttpResponse :=
  NetworkFailure.



(** Metrics above the three thresholds, for a balance of 1000. *)
Definition strained : RiskEvaluationResult := {|
  exposure := 600;
  leverage := 3;
  lossRatio := 1 # 5;
  anomalyScore := None
|}.

Definition opening : AccountRequest := {|
  ar_validation_errors := [];
  ar_userId := None;
  ar_name := "Savings";
  ar_currency := "USD"
|}.

(** Tokens that name their secret and their identifier; the one refresh
    token that is read back is the first one issued to user u-1. *)
#[export] Instance auth_platform : AuthPlatform := {|
  jwt_sign := fun payload secret _ _ =>
    secret +:+ ":" +:+ default "" (tokenId payload) +:+ default "" (jti payload);
  jwt_decode := fun token secret =>
    if String.eqb token "refresh:t-1" && String.eqb secret "refresh"
    then Some ({| sub := "u-1"; role := client; tokenId := Some "t-1"; jti := None |},
               1000%Z)
    else None;
  hashPassword := fun password _ => "hash:" +:+ password;
  verifyPassword := fun password hash => String.eqb hash ("hash:" +:+ password);
  add_interval := fun now _ => (now + 604800)%Z
|}.

Definition auth_env : AuthEnv := {|
  jwtAccessSecret := "access";
  jwtRefreshSecret := "refresh";
  jwtAccessTtl := "15m";
  jwtRefreshTtl := "7d"
|}.

Definition no_users : AuthDb := {| users := []; refresh_tokens := [] |}.

Definition draws (n : nat) : Draws := {|
  draw_tokenId := "t-" +:+ pretty n;
  draw_rowId := "r-" +:+ pretty n;
  draw_userId := "u-" +:+ pretty n;
  draw_salt := []
|}.

(** The database once a first user has registered. *)
Definition one_user : AuthDb :=
  snd (registerUser auth_env "ada@example.com" "correct horse" client (draws 1) 0%Z
         no_users).

End Cases.

(* ===================================================================== *)
(** * Properties *)
(* ===================================================================== *)

Unset Implicit Arguments.

(* ===================================================================== *)
(** ** The audit chain *)
(* ===================================================================== *)

Section AuditChain.

Context `{Platform}.


Definition last_hash (previous : option string) (entries : list AuditLogRecord)
    : option string :=
  match last entries with
  | Some e => Some (al_hash e)
  | None => previous
  end.

Lemma last_hash_cons previous e rest :
  last_hash previous (e :: rest) = last_hash (Some (al_hash e)) rest.
Proof.
  unfold last_hash. destruct rest as [|e' rest]; [reflexivity|].
  change (last (e :: e' :: rest)) with (last (e' :: rest)).
  destruct (last (e' :: rest)) eqn:E; [reflexivity|].
  apply last_None in E. discriminate.
Qed.


Lemma last_hash_creation_order (logs : list AuditLogRecord) :
  last_hash None (creation_order logs) = option_map al_hash (head logs).
Proof.
  unfold last_hash, creation_order. rewrite last_reverse.
  destruct logs; reflexivity.
Qed.


Lemma recordAuditEvent_appends eventType payload w :
  let previousHash := option_map al_hash (head (audit_logs (db w))) in
  audit_logs (db (snd (recordAuditEvent eventType payload w))) =
    {| al_id := uuid_generate_v4 (next_id (db w));
       al_event_type := eventType;
       al_payload := payload;
       al_hash := digest eventType payload previousHash;
       al_previous_hash := previousHash |} :: audit_logs (db w).
Proof. reflexivity. Qed.






End AuditChain.

(** ** The audit chain under the services *)

Section ChainInvariant.

Context `{Platform}.

(** The chain of a world replays. *)
Definition chain_verifies (w : World) : Prop :=
  replay None (creation_order (audit_logs (db w))) = true.

Definition preserves {A} (I : World -> Prop) (c : M A) : Prop :=
  forall w, I w -> I (snd (c w)).

Lemma preserves_bind {A B} (I : World -> Prop) (c : M A) (k : A -> M B) :
  preserves I c -> (forall a, preserves I (k a)) -> preserves I (bind c k).
Proof.
  intros Hc Hk w Hw. unfold bind. specialize (Hc w Hw).
  destruct (c w) as [[e|a] w1]; simpl in *.
  - exact Hc.
  - apply Hk, Hc.
Qed.

Lemma preserves_when (I : World -> Prop) (c : bool) (body : M unit) :
  preserves I body -> preserves I (when c body).
Proof. intros Hb. destruct c; [exact Hb|]. intros w Hw. exact Hw. Qed.

Lemma replay_snoc previous entries e :
  replay previous (entries ++ [e])
  = replay previous entries
    && String.eqb (al_hash e)
         (digest (al_event_type e) (al_payload e) (last_hash previous entries)).
Proof.
  revert previous. induction entries as [|x entries IH]; intros previous.
  - cbn. rewrite andb_true_r. reflexivity.
  - change ((x :: entries) ++ [e]) with (x :: (entries ++ [e])).
    cbn [replay]. rewrite IH, last_hash_cons, andb_assoc. reflexivity.
Qed.

Lemma recordAuditEvent_verifies eventType payload :
  preserves chain_verifies (recordAuditEvent eventType payload).
Proof.
  intros w Hw. unfold chain_verifies in *.
  rewrite recordAuditEvent_appends. cbv zeta.
  unfold creation_order at 1. rewrite reverse_cons.
  fold (creation_order (audit_logs (db w))).
  rewrite replay_snoc, Hw, last_hash_creation_order. cbn.
  apply String.eqb_refl.
Qed.

End ChainInvariant.

Create HintDb preserves discriminated.

Ltac preserves_step :=
  lazymatch goal with
  | |- preserves _ (ret _) => intros ? ?; assumption
  | |- preserves _ (throw _) => intros ? ?; assumption
  | |- preserves _ (gets _) => intros ? ?; assumption
  | |- preserves _ (lift _) => intros ? ?; assumption
  | |- preserves _ (query _) => intros ? ?; assumption
  | |- preserves _ (update_db _) => intros ? ?; assumption
  | |- preserves _ (modify _) => intros ? ?; assumption
  | |- preserves _ (when _ _) => apply preserves_when
  | |- preserves _ (bind _ _) => apply preserves_bind; [ | intro ]
  | |- preserves _ (if ?c then _ else _) => destruct c
  | |- preserves _ (match ?x with _ => _ end) => destruct x
  | |- preserves _ _ => solve [ auto with preserves ]
  end.

Ltac preserves_tac := repeat preserves_step.

Section ChainUnderServices.

Context `{Platform} (env : Env).

#[local] Hint Resolve recordAuditEvent_verifies : preserves.

Lemma raiseRiskAlert_verifies accountId alertType severity details :
  preserves chain_verifies (raiseRiskAlert env accountId alertType severity details).
Proof.
  unfold raiseRiskAlert, insertRiskAlert, fresh_id, publishToStream, getRedisClient.
  preserves_tac.
Qed.

#[local] Hint Resolve raiseRiskAlert_verifies : preserves.

Lemma runComplianceSimulation_verifies userId transactionId amount currency memo :
  preserves chain_verifies
    (runComplianceSimulation env userId transactionId amount currency memo).
Proof.
  unfold runComplianceSimulation, simulateKyc, simulateAml, insertComplianceCheck, fresh_id.
  preserves_tac.
Qed.

Lemma evaluateAccountRisk_verifies accountId :
  preserves chain_verifies (evaluateAccountRisk env accountId).
Proof.
  unfold evaluateAccountRisk, findAccountById, listTransactionsForAccount,
    insertRiskMetric, checkThresholds, detectAnomaly, insertAnomalyEvent, fresh_id.
  preserves_tac.
Qed.

#[local] Hint Resolve runComplianceSimulation_verifies evaluateAccountRisk_verifies
  : preserves.


End ChainUnderServices.



Section AuditChainExample.

#[local] Existing Instance Demo.platform.



End AuditChainExample.

(* ===================================================================== *)
(** ** Transfers *)
(* ===================================================================== *)

(** ** Running a service: what a sequence returns, what it leaves alone *)

Section Services.

Lemma bind_returns {A B} (c : M A) (k : A -> M B) (w w' : World) (b : B) :
  bind c k w = (inr b, w') ->
  exists a w1, c w = (inr a, w1) /\ k a w1 = (inr b, w').
Proof.
  unfold bind. destruct (c w) as [[e|a] w1]; intros Hb.
  - discriminate Hb.
  - eauto.
Qed.

Lemma bind_throws {A B} (c : M A) (k : A -> M B) (w w' : World) (e : error) :
  bind c k w = (inl e, w') ->
  c w = (inl e, w') \/ exists a w1, c w = (inr a, w1) /\ k a w1 = (inl e, w').
Proof.
  unfold bind. destruct (c w) as [[e0|a] w1]; intros Hb.
  - left. injection Hb as -> ->. reflexivity.
  - right. eauto.
Qed.

(** [keeps f c]: whatever the outcome, [c] leaves the observation [f] of the
    world as it was. *)
Definition keeps {A B} (f : World -> B) (c : M A) : Prop :=
  forall w, f (snd (c w)) = f w.

Lemma keeps_ret {A B} (f : World -> B) (a : A) : keeps f (ret a).
Proof. intro w. reflexivity. Qed.

Lemma keeps_throw {A B} (f : World -> B) (e : error) : keeps f (@throw A e).
Proof. intro w. reflexivity. Qed.

Lemma keeps_gets {A B} (f : World -> B) (g : World -> A) : keeps f (gets g).
Proof. intro w. reflexivity. Qed.

Lemma keeps_lift {A B} (f : World -> B) (o : outcome A) : keeps f (lift o).
Proof. intro w. reflexivity. Qed.

Lemma keeps_bind {A B C} (f : World -> C) (c : M A) (k : A -> M B) :
  keeps f c -> (forall a, keeps f (k a)) -> keeps f (bind c k).
Proof.
  intros Hc Hk w. unfold bind. specialize (Hc w).
  destruct (c w) as [[e|a] w1]; simpl in *.
  - exact Hc.
  - rewrite Hk. exact Hc.
Qed.

Lemma keeps_when {B} (f : World -> B) (c : bool) (body : M unit) :
  keeps f body -> keeps f (when c body).
Proof. intros Hb. destruct c; [exact Hb | apply keeps_ret]. Qed.

End Services.

Create HintDb keeps discriminated.

Ltac keeps_step :=
  lazymatch goal with
  | |- keeps _ (ret _) => apply keeps_ret
  | |- keeps _ (throw _) => apply keeps_throw
  | |- keeps _ (gets _) => apply keeps_gets
  | |- keeps _ (lift _) => apply keeps_lift
  | |- keeps _ (when _ _) => apply keeps_when
  | |- keeps _ (bind _ _) => apply keeps_bind; [ | intro ]
  | |- keeps _ (query _) => intro; reflexivity
  | |- keeps _ (update_db _) => intro; reflexivity
  | |- keeps _ (modify _) => intro; reflexivity
  | |- keeps _ (if ?c then _ else _) => destruct c
  | |- keeps _ (match ?x with _ => _ end) => destruct x
  | |- keeps _ _ => solve [ auto with keeps ]
  end.

Ltac keeps_tac := repeat keeps_step.

Section Frames.

Context `{Platform} (env : Env).

Definition accounts_of (w : World) : gmap string AccountRecord := accounts (db w).

Lemma fresh_id_keeps_accounts : keeps accounts_of fresh_id.
Proof. unfold fresh_id. keeps_tac. Qed.

Lemma recordAuditEvent_keeps_accounts eventType payload :
  keeps accounts_of (recordAuditEvent eventType payload).
Proof. unfold recordAuditEvent, fetchLatestHash, insertAuditLog, fresh_id. keeps_tac. Qed.
#[local] Hint Resolve recordAuditEvent_keeps_accounts : keeps.

Lemma raiseRiskAlert_keeps_accounts accountId alertType severity details :
  keeps accounts_of (raiseRiskAlert env accountId alertType severity details).
Proof.
  unfold raiseRiskAlert, insertRiskAlert, fresh_id, publishToStream, getRedisClient.
  keeps_tac.
Qed.
#[local] Hint Resolve raiseRiskAlert_keeps_accounts : keeps.

Lemma insertTransaction_keeps_accounts a c m cur d memo p :
  keeps accounts_of (insertTransaction a c m cur d memo p).
Proof. unfold insertTransaction, fresh_id. keeps_tac. Qed.

Lemma runComplianceSimulation_keeps_accounts userId transactionId amount currency memo :
  keeps accounts_of (runComplianceSimulation env userId transactionId amount currency memo).
Proof.
  unfold runComplianceSimulation, simulateKyc, simulateAml, insertComplianceCheck, fresh_id.
  keeps_tac.
Qed.

Lemma evaluateAccountRisk_keeps_accounts accountId :
  keeps accounts_of (evaluateAccountRisk env accountId).
Proof.
  unfold evaluateAccountRisk, findAccountById, listTransactionsForAccount,
    insertRiskMetric, checkThresholds, detectAnomaly, insertAnomalyEvent, fresh_id.
  keeps_tac.
Qed.

#[local] Hint Resolve insertTransaction_keeps_accounts
  runComplianceSimulation_keeps_accounts evaluateAccountRisk_keeps_accounts : keeps.

Lemma findAccountByIdForUpdate_run accountId w :
  findAccountByIdForUpdate accountId w
  = (inr (accounts (db w) !! accountId),
     log_statement (SelectAccountForUpdate accountId) w).
Proof. reflexivity. Qed.



End Frames.

Definition returned {A} (o : outcome A) : bool :=
  match o with
  | inr _ => true
  | inl _ => false
  end.



Section Rejections.

Context `{Platform} (env : Env).


(** The path of a well-formed request up to the checks made under the two
    row locks. *)
Lemma createTransfer_reaches_checks req requester rnd w amount :
  validation_errors req = [] ->
  req_sourceAccountId req <> req_destinationAccountId req ->
  req_amount req = Some amount ->
  (0 < amount)%Z ->
  returned
    (encryptPayload env
       (payloadForEncryption (req_sourceAccountId req) (req_destinationAccountId req)
          amount (req_currency req) (req_memo req) requester) rnd) = true ->
  exists enc,
    createTransfer env req requester rnd w
    = withTransaction
        (transferHandler env (req_sourceAccountId req) (req_destinationAccountId req)
           amount (req_currency req) (req_memo req) requester enc) w.
Proof.
  intros Hv Hne Ha Hpos Henc. unfold createTransfer. rewrite Hv, Ha.
  apply String.eqb_neq in Hne. rewrite Hne.
  apply Z.leb_gt in Hpos. rewrite Hpos.
  unfold bind, lift. destruct (encryptPayload _ _ _) as [e|enc]; [discriminate Henc|].
  exists enc. reflexivity.
Qed.

(** The handler under the two row locks: the ownership check. *)
Lemma transferHandler_forbidden src dst amount currency memo requester enc w
    sourceAccount destinationAccount :
  accounts (db w) !! src = Some sourceAccount ->
  accounts (db w) !! dst = Some destinationAccount ->
  au_role requester = client ->
  au_id requester <> acc_user_id sourceAccount ->
  transferHandler env src dst amount currency memo requester enc w
  = (inl TransferForbidden,
     log_statement (SelectAccountForUpdate dst)
       (log_statement (SelectAccountForUpdate src) w)).
Proof.
  intros Hs Hd Hrole Hown. unfold transferHandler.
  unfold bind at 1. rewrite findAccountByIdForUpdate_run.
  unfold bind at 1. rewrite findAccountByIdForUpdate_run.
  cbn [db log_statement]. rewrite Hs, Hd, Hrole.
  apply String.eqb_neq in Hown. rewrite Hown. reflexivity.
Qed.


End Rejections.


(** C9, as amended.  A well-formed transfer request between two existing
    accounts, made by a client who does not own the source account, fails
    with the authorization error after the rows of the source and of the
    destination account have been locked, in this order, and before any
    balance is updated: the only statements sent are BEGIN, the two
    SELECT ... FOR UPDATE and ROLLBACK, and the database is unchanged. *)
Theorem forbidden_after_both_locks `{Platform} (env : Env) (req : TransferRequest)
    (requester : AuthenticatedUser) (rnd : Entropy) (w : World)
    (amount : money) (sourceAccount destinationAccount : AccountRecord) :
  validation_errors req = [] ->
  req_sourceAccountId req <> req_destinationAccountId req ->
  req_amount req = Some amount ->
  (0 < amount)%Z ->
  returned
    (encryptPayload env
       (payloadForEncryption (req_sourceAccountId req) (req_destinationAccountId req)
          amount (req_currency req) (req_memo req) requester) rnd) = true ->
  accounts (db w) !! req_sourceAccountId req = Some sourceAccount ->
  accounts (db w) !! req_destinationAccountId req = Some destinationAccount ->
  au_role requester = client ->
  au_id requester <> acc_user_id sourceAccount ->
  let run := createTransfer env req requester rnd w in
  fst run = inl TransferForbidden
  /\ statements (snd run)
     = statements w
       ++ [BEGIN;
           SelectAccountForUpdate (req_sourceAccountId req);
           SelectAccountForUpdate (req_destinationAccountId req);
           ROLLBACK]
  /\ db (snd run) = db w.
Proof.
  intros Hv Hne Ha Hpos Henc Hs Hd Hrole Hown run. subst run.
  destruct (createTransfer_reaches_checks env req requester rnd w amount)
    as [enc ->]; try assumption.
  unfold withTransaction.
  rewrite (transferHandler_forbidden env _ _ amount _ _ requester enc _
             sourceAccount destinationAccount) by assumption.
  cbn. repeat split. rewrite <- !app_assoc. reflexivity.
Qed.

Section TransferExamples.

#[local] Existing Instance Demo.platform.

Import Demo.




Lemma forbidden_after_both_locks_witness :
  let run := createTransfer test_env (transfer "C" "B" (units 50)) alice rnd world in
  fst run = inl TransferForbidden
  /\ statements (snd run)
     = [BEGIN; SelectAccountForUpdate "C"; SelectAccountForUpdate "B"; ROLLBACK]
  /\ db (snd run) = bank.
Proof.
  intro run.
  apply (forbidden_after_both_locks test_env (transfer "C" "B" (units 50))
           alice rnd world (units 50)
           (account "C" "bob" (units 500)) (account "B" "alice" (units 0)));
    solve [ vm_compute; reflexivity | discriminate ].
Defined.

(** C9 as stated fails: the client does not own the source account, the
    transfer is rejected with the authorization error, and by then the row of
    the destination account has been locked. *)
Lemma forbidden_before_lock_counterexample :
  let run := createTransfer test_env (transfer "C" "B" (units 50)) alice rnd world in
  au_role alice = client
  /\ (acc_user_id <$> accounts bank !! "C") = Some "bob"
  /\ fst run = inl TransferForbidden
  /\ In (SelectAccountForUpdate "B") (statements (snd run)).
Proof.
  intro run. repeat split; try (vm_compute; reflexivity).
  vm_compute. auto.
Qed.

End TransferExamples.

(* ===================================================================== *)
(** ** Compliance: the AML rules *)

(** What the rules are stated in: a memo contains a keyword when some stretch
    of it equals the keyword once both are put in lower case. *)
Definition to_lower (c : ascii) : ascii :=
  let n := nat_of_ascii c in
  if (65 <=? n)%nat && (n <=? 90)%nat then ascii_of_nat (n + 32) else c.

Fixpoint lower (s : string) : string :=
  match s with
  | EmptyString => EmptyString
  | String c s' => String (to_lower c) (lower s')
  end.

Definition contains_ignoring_case (keyword s : string) : Prop :=
  exists before stretch after,
    s = before +:+ stretch +:+ after /\ lower stretch = lower keyword.

Definition high_risk_memo (memo : option string) : Prop :=
  exists m keyword,
    memo = Some m
    /\ In keyword HIGH_RISK_MEMO_PATTERNS
    /\ contains_ignoring_case keyword m.


Section CaseFolding.

Lemma to_lower_canonicalize c : to_lower (canonicalize c) = to_lower c.
Proof. destruct c as [[] [] [] [] [] [] [] []]; reflexivity. Qed.

Lemma canonicalize_to_lower c : canonicalize (to_lower c) = canonicalize c.
Proof. destruct c as [[] [] [] [] [] [] [] []]; reflexivity. Qed.

Lemma canonicalize_eq_iff a b :
  canonicalize a = canonicalize b <-> to_lower a = to_lower b.
Proof.
  split; intros E.
  - rewrite <- (to_lower_canonicalize a), <- (to_lower_canonicalize b), E. reflexivity.
  - rewrite <- (canonicalize_to_lower a), <- (canonicalize_to_lower b), E. reflexivity.
Qed.

Lemma matches_here_iff pattern s :
  matches_here pattern s = true <->
  exists stretch after, s = stretch +:+ after /\ lower stretch = lower pattern.
Proof.
  revert s. induction pattern as [|p pattern IH]; intros s.
  - split; [|reflexivity]. intros _. exists EmptyString, s. split; reflexivity.
  - destruct s as [|c s]; cbn [matches_here].
    + split; [discriminate|]. intros (stretch & after & Hs & Hl).
      destruct stretch; [discriminate Hl | discriminate Hs].
    + rewrite andb_true_iff, Ascii.eqb_eq, canonicalize_eq_iff, IH. split.
      * intros (Hc & stretch & after & -> & Hl).
        exists (String c stretch), after. split; [reflexivity|].
        cbn [lower]. rewrite Hl, Hc. reflexivity.
      * intros (stretch & after & Hs & Hl).
        destruct stretch as [|c' stretch]; [discriminate Hl|].
        cbn [lower] in Hl. injection Hl as Hc Hl. injection Hs as -> ->.
        split; [symmetry; exact Hc|]. exists stretch, after. split; [reflexivity | exact Hl].
Qed.

Lemma regex_test_i_iff pattern s :
  regex_test_i pattern s = true <-> contains_ignoring_case pattern s.
Proof.
  unfold contains_ignoring_case. induction s as [|c s IH].
  - cbn [regex_test_i]. rewrite orb_false_r, matches_here_iff. split.
    + intros (stretch & after & Hs & Hl). exists EmptyString, stretch, after. auto.
    + intros (before & stretch & after & Hs & Hl).
      destruct before; [|discriminate Hs]. exists stretch, after. auto.
  - cbn [regex_test_i]. rewrite orb_true_iff, matches_here_iff, IH. split.
    + intros [(stretch & after & Hs & Hl) | (before & stretch & after & Hs & Hl)].
      * exists EmptyString, stretch, after. auto.
      * exists (String c before), stretch, after. rewrite Hs. auto.
    + intros (before & stretch & after & Hs & Hl).
      destruct before as [|c' before].
      * left. exists stretch, after. auto.
      * right. injection Hs as -> ->. exists before, stretch, after. auto.
Qed.

Lemma memoMatch_of_iff memo : memoMatch_of memo = true <-> high_risk_memo memo.
Proof.
  unfold memoMatch_of, high_risk_memo. destruct memo as [m|].
  - destruct (truthy m) eqn:Ht.
    + rewrite existsb_exists. split.
      * intros (keyword & Hin & Hm). apply regex_test_i_iff in Hm. eauto.
      * intros (m' & keyword & [= <-] & Hin & Hm). exists keyword.
        split; [exact Hin | apply regex_test_i_iff, Hm].
    + split; [discriminate|]. intros (m' & keyword & [= <-] & Hin & Hm).
      unfold truthy in Ht. apply negb_false_iff, String.eqb_eq in Ht. subst m.
      apply regex_test_i_iff in Hm.
      cbn in Hin. destruct Hin as [<-|[<-|[<-|[<-|[]]]]]; discriminate Hm.
  - split; [discriminate|]. intros (m' & keyword & [=] & _).
Qed.

End CaseFolding.

(** ** Services that return *)

Section Returning.

Definition always_returns {A} (c : M A) : Prop :=
  forall w, returned (fst (c w)) = true.

Lemma returns_ret {A} (a : A) : always_returns (ret a).
Proof. intro w. reflexivity. Qed.

Lemma returns_gets {A} (g : World -> A) : always_returns (gets g).
Proof. intro w. reflexivity. Qed.

Lemma returns_modify (g : World -> World) : always_returns (modify g).
Proof. intro w. reflexivity. Qed.

Lemma returns_bind {A B} (c : M A) (k : A -> M B) :
  always_returns c -> (forall a, always_returns (k a)) -> always_returns (bind c k).
Proof.
  intros Hc Hk w. unfold bind. specialize (Hc w).
  destruct (c w) as [[e|a] w1]; [discriminate Hc | apply Hk].
Qed.

Lemma returns_when (c : bool) (body : M unit) :
  (c = true -> always_returns body) -> always_returns (when c body).
Proof. intros Hb. destruct c; [apply Hb; reflexivity | apply returns_ret]. Qed.


End Returning.

Create HintDb returns discriminated.

Ltac returns_step :=
  lazymatch goal with
  | |- always_returns (ret _) => apply returns_ret
  | |- always_returns (gets _) => apply returns_gets
  | |- always_returns (modify _) => apply returns_modify
  | |- always_returns (query _) => apply returns_modify
  | |- always_returns (update_db _) => apply returns_modify
  | |- always_returns (bind _ _) => apply returns_bind; [ | intro ]
  | |- always_returns (when _ _) => apply returns_when; intro
  | |- always_returns (if ?c then _ else _) => destruct c eqn:?
  | |- always_returns (match ?x with _ => _ end) => destruct x eqn:?
  | |- always_returns _ => solve [ auto with returns ]
  end.

Ltac returns_tac := repeat returns_step.

Section Delivery.

Context `{Platform} (env : Env).

(** The publish to the alert stream cannot throw: streams are switched off,
    or Redis accepts every entry. *)
Definition bus_reliable : Prop :=
  enableRedisStreams env = false
  \/ forall stream entry, redis_xAdd stream entry = true.


Lemma fresh_id_returns : always_returns fresh_id.
Proof. unfold fresh_id. returns_tac. Qed.




Lemma not_test_false : nodeEnv env = "test" -> not_test env = false.
Proof. unfold not_test. intros ->. reflexivity. Qed.


End Delivery.

Section AmlResult.

Context `{Platform} (env : Env).

Lemma insertComplianceCheck_run userId transactionId checkType status details w :
  fst (insertComplianceCheck userId transactionId checkType status details w)
  = inr {| cc_id := uuid_generate_v4 (next_id (db w)); cc_user_id := userId;
           cc_transaction_id := transactionId; cc_check_type := checkType;
           cc_status := status; cc_details := details |}.
Proof. reflexivity. Qed.

(** What simulateAml returns, when it returns. *)
Lemma simulateAml_result userId transactionId amount currency memo w r :
  fst (simulateAml env userId transactionId amount currency memo w) = inr r ->
  r = {| checkType := "aml-transaction";
         cr_status := if memoMatch_of memo || (AML_THRESHOLD <=? amount)%Z
                      then failed else passed;
         cr_details :=
           JObj [("amount", JMoney amount);
                 ("currency", JStr currency);
                 ("memo", json_of_nullable memo);
                 ("rulesTriggered",
                  JObj [("highValue", JBool (AML_THRESHOLD <=? amount)%Z);
                        ("memoPattern", JBool (memoMatch_of memo))])] |}.
Proof.
  unfold simulateAml. intros Hrun.
  destruct (bind _ _ w) as [o w'] eqn:Hb. cbn [fst] in Hrun. subst o.
  apply bind_returns in Hb as (row & w1 & Hrow & Hb).
  apply (f_equal fst) in Hrow. rewrite insertComplianceCheck_run in Hrow.
  cbn [fst] in Hrow. injection Hrow as <-.
  apply bind_returns in Hb as ([] & w2 & _ & Hb).
  injection Hb as <- _. reflexivity.
Qed.

End AmlResult.


Section AmlExample.

#[local] Existing Instance Demo.platform.

Import Demo.


End AmlExample.

(* ===================================================================== *)
(** ** Risk metrics *)

(** The figures of the metrics, as sums over the window of transactions. *)
Definition absolute_amount (tx : TransactionRecord) : Q :=
  Qabs (toNumber (tx_amount tx)).

Definition is_debit (tx : TransactionRecord) : bool :=
  match tx_direction tx with
  | debit => true
  | credit => false
  end.

Definition Qsum (l : list Q) : Q := fold_right Qplus 0%Q l.

Definition totalDebits (window : list TransactionRecord) : Q :=
  Qsum (map absolute_amount (List.filter is_debit window)).

Definition totalCredits (window : list TransactionRecord) : Q :=
  Qsum (map absolute_amount (List.filter (fun tx => negb (is_debit tx)) window)).

(** Debit amounts added, credit amounts subtracted. *)
Definition rollingLoss (window : list TransactionRecord) : Q :=
  Qsum (map (fun tx => if is_debit tx then absolute_amount tx
                       else (- absolute_amount tx)%Q) window).

Section Metrics.

Local Open Scope Q_scope.



End Metrics.

Section RiskEvaluation.

Context `{Platform} (env : Env).

Lemma findAccountById_run accountId w :
  findAccountById accountId w
  = (inr (accounts (db w) !! accountId), log_statement (SelectAccount accountId) w).
Proof. reflexivity. Qed.

Lemma listTransactionsForAccount_run accountId limit w :
  listTransactionsForAccount accountId limit w
  = (inr (transactions_of accountId limit (db w)),
     log_statement (SelectTransactions accountId limit) w).
Proof. reflexivity. Qed.

(** evaluateAccountRisk on an existing account: the steps after the two
    reads, on the window read. *)
Definition evaluation_of (accountId : string) (account : AccountRecord)
    (window : list TransactionRecord) : M RiskEvaluationResult :=
  let metrics := computeMetrics (toNumber (acc_balance account)) window in
  insertRiskMetric accountId (exposure metrics) (leverage metrics)
    (lossRatio metrics) OBSERVATION_WINDOW_DAYS;;;
  checkThresholds env accountId metrics (toNumber (acc_balance account));;;
  anomalyScore <- detectAnomaly env accountId window;;
  ret {| exposure := exposure metrics; leverage := leverage metrics;
         lossRatio := lossRatio metrics; anomalyScore := anomalyScore |}.

Lemma evaluateAccountRisk_found accountId account w :
  accounts (db w) !! accountId = Some account ->
  evaluateAccountRisk env accountId w
  = evaluation_of accountId account (transactions_of accountId 200 (db w))
      (log_statement (SelectTransactions accountId 200)
         (log_statement (SelectAccount accountId) w)).
Proof.
  intros Ha. unfold evaluateAccountRisk.
  unfold bind at 1. rewrite findAccountById_run, Ha.
  unfold bind at 1. rewrite listTransactionsForAccount_run. reflexivity.
Qed.

Lemma evaluateAccountRisk_missing accountId w :
  accounts (db w) !! accountId = None ->
  evaluateAccountRisk env accountId w
  = (inl (JsError ("Account " +:+ accountId +:+ " not found for risk evaluation.")),
     log_statement (SelectAccount accountId) w).
Proof.
  intros Ha. unfold evaluateAccountRisk.
  unfold bind at 1. rewrite findAccountById_run, Ha. reflexivity.
Qed.




End RiskEvaluation.


Section RiskExample.

#[local] Existing Instance Demo.platform.

Import Demo.

(** The world after 250 has been moved from account A (funded with 1000). *)
Definition after_transfer : World :=
  snd (createTransfer test_env (transfer "A" "B" (units 250)) alice rnd world).


End RiskExample.

(* ===================================================================== *)
(** ** The anomaly detector *)

Section ScoreBounds.

Import IsolationForest.

Local Open Scope R_scope.

Lemma div_nonneg (a b : R) : 0 <= a -> 0 < b -> 0 <= a / b.
Proof.
  intros Ha Hb. unfold Rdiv. apply Rmult_le_pos; [exact Ha|].
  left. apply Rinv_0_lt_compat, Hb.
Qed.

Lemma div_le (a b c : R) : 0 < b -> a <= c * b -> a / b <= c.
Proof.
  intros Hb Hab. apply (Rmult_le_reg_r b); [exact Hb|].
  unfold Rdiv. rewrite Rmult_assoc, Rinv_l by lra. lra.
Qed.

Lemma ln_monotone (x y : R) : 0 < x -> x <= y -> ln x <= ln y.
Proof.
  intros Hx [Hlt | ->]; [left; apply ln_increasing; assumption | right; reflexivity].
Qed.

Lemma averagePathLength_nonneg (n : nat) : 0 <= averagePathLength n.
Proof.
  unfold averagePathLength. destruct (n <=? 1)%nat eqn:Hn; [lra|].
  apply Nat.leb_gt in Hn.
  assert (Hn2 : 2 <= INR n).
  { replace 2 with (INR 2) by (simpl; lra). apply le_INR. lia. }
  assert (Hfrac : 2 * (INR n - 1) / INR n <= 2).
  { apply div_le; lra. }
  destruct (Nat.eq_dec n 2%nat) as [->|Hne].
  - replace (INR 2 - 1) with 1 by (simpl; lra). rewrite ln_1. simpl. lra.
  - assert (Hn3 : 3 <= INR n).
    { replace 3 with (INR 3) by (simpl; lra). apply le_INR. lia. }
    assert (Hln : ln 2 <= ln (INR n - 1)) by (apply ln_monotone; lra).
    pose proof ln_lt_2. lra.
Qed.

Fixpoint pathLength_nonneg (node : IsolationTreeNode) (sample : list R) {struct node}
  : 0 <= pathLength node sample.
Proof.
  destruct node as [size splitAttr splitValue l r leaf]. cbn [pathLength].
  destruct leaf; [apply averagePathLength_nonneg|].
  destruct l as [l|]; [|apply averagePathLength_nonneg].
  destruct r as [r|]; [|apply averagePathLength_nonneg].
  destruct splitAttr as [attr|]; [|apply averagePathLength_nonneg].
  destruct splitValue as [value|]; [|apply averagePathLength_nonneg].
  destruct (below sample attr value).
  - pose proof (pathLength_nonneg l sample). lra.
  - pose proof (pathLength_nonneg r sample). lra.
Qed.

Lemma total_path_nonneg (ts : list IsolationTreeNode) (sample : list R) (acc : R) :
  0 <= acc ->
  0 <= fold_left (fun acc tree => acc + pathLength tree sample) ts acc.
Proof.
  revert acc. induction ts as [|t ts IH]; intros acc Hacc; cbn [fold_left].
  - exact Hacc.
  - apply IH. pose proof (pathLength_nonneg t sample). lra.
Qed.

Lemma or_one_pos (c : R) : 0 <= c -> 0 < or_one c.
Proof. intros Hc. unfold or_one. destruct (Req_dec_T c 0); lra. Qed.

Lemma score_bounds (f : Forest) (sample : list R) : 0 <= score f sample <= 1.
Proof.
  unfold score. destruct (trees f) as [|t ts] eqn:Ht; [lra|].
  set (total := fold_left _ _ _).
  assert (Htotal : 0 <= total) by (apply total_path_nonneg; lra).
  assert (Hlen : 0 < INR (length (t :: ts))) by (apply lt_0_INR; simpl; lia).
  assert (Hc : 0 < or_one (averagePathLength (subsampleSize f)))
    by apply or_one_pos, averagePathLength_nonneg.
  assert (Hpath : 0 <= total / INR (length (t :: ts))).
  { apply div_nonneg; lra. }
  assert (Hx : - (total / INR (length (t :: ts)))
               / or_one (averagePathLength (subsampleSize f)) <= 0).
  { apply div_le; lra. }
  unfold Rpower. split.
  - left. apply exp_pos.
  - rewrite <- exp_0. pose proof ln_lt_2 as Hln2.
    destruct Hx as [Hx|Hx].
    + left. apply exp_increasing. nra.
    + rewrite Hx. right. f_equal. lra.
Qed.

End ScoreBounds.

(** The alerts raised by the detector, and its events. *)
Definition is_anomaly_alert (a : RiskAlertRecord) : bool :=
  String.eqb (ra_alert_type a) "anomaly_detection".

Definition anomaly_alerts (w : World) : list RiskAlertRecord :=
  List.filter is_anomaly_alert (risk_alerts (db w)).

Definition anomaly_events (w : World) : list RiskAnomalyRecord :=
  risk_anomalies (db w).

(** The transactions recorded for an account, newest first. *)
Definition history (accountId : string) (w : World) : list TransactionRecord :=
  List.filter (fun t => String.eqb (tx_account_id t) accountId) (transactions (db w)).

Section SmallHistory.

Context `{Platform} (env : Env).

Lemma detectAnomaly_skipped accountId window :
  (length window < 5)%nat ->
  detectAnomaly env accountId window = ret None.
Proof.
  intros Hlen. unfold detectAnomaly.
  apply Nat.ltb_lt in Hlen. rewrite Hlen. reflexivity.
Qed.

Lemma recordAuditEvent_keeps_anomalies eventType payload :
  keeps anomaly_events (recordAuditEvent eventType payload)
  /\ keeps anomaly_alerts (recordAuditEvent eventType payload).
Proof.
  unfold recordAuditEvent, fetchLatestHash, insertAuditLog, fresh_id.
  split; keeps_tac.
Qed.

(** An alert of another type adds nothing to the detector's alerts. *)
Lemma raiseRiskAlert_keeps_anomalies accountId alertType severity details :
  String.eqb alertType "anomaly_detection" = false ->
  keeps anomaly_events (raiseRiskAlert env accountId alertType severity details)
  /\ keeps anomaly_alerts (raiseRiskAlert env accountId alertType severity details).
Proof.
  intros Htype.
  pose proof (fun e p => proj1 (recordAuditEvent_keeps_anomalies e p)).
  pose proof (fun e p => proj2 (recordAuditEvent_keeps_anomalies e p)).
  unfold raiseRiskAlert, insertRiskAlert, fresh_id, publishToStream, getRedisClient.
  split; keeps_tac.
  intro w. unfold anomaly_alerts. cbn. unfold is_anomaly_alert at 1. cbn.
  rewrite Htype. reflexivity.
Qed.

Lemma evaluation_of_small accountId account window :
  (length window < 5)%nat ->
  keeps anomaly_events (evaluation_of env accountId account window)
  /\ keeps anomaly_alerts (evaluation_of env accountId account window)
  /\ forall w r,
       fst (evaluation_of env accountId account window w) = inr r ->
       anomalyScore r = None.
Proof.
  intros Hlen.
  pose proof (fun a t s d (E : String.eqb t "anomaly_detection" = false) =>
                proj1 (raiseRiskAlert_keeps_anomalies a t s d E)) as Hev.
  pose proof (fun a t s d (E : String.eqb t "anomaly_detection" = false) =>
                proj2 (raiseRiskAlert_keeps_anomalies a t s d E)) as Hal.
  unfold evaluation_of. rewrite (detectAnomaly_skipped accountId window Hlen).
  unfold insertRiskMetric, checkThresholds, fresh_id.
  split; [|split].
  - keeps_tac; apply Hev; reflexivity.
  - keeps_tac; apply Hal; reflexivity.
  - intros w r Hrun.
    destruct (bind _ _ w) as [o w'] eqn:Hb. cbn [fst] in Hrun. subst o.
    apply bind_returns in Hb as (? & w1 & _ & Hb).
    apply bind_returns in Hb as (? & w2 & _ & Hb).
    apply bind_returns in Hb as (score & w3 & Hs & Hb).
    injection Hs as <- _. injection Hb as <- _. reflexivity.
Qed.

(** The score of an evaluation is the score of the forest fitted on the
    window, at the features of its newest transaction. *)
Lemma evaluation_of_score accountId account window w r s :
  fst (evaluation_of env accountId account window w) = inr r ->
  anomalyScore r = Some s ->
  s = IsolationForest.score (fitted_forest (map buildFeatureVector window))
        (hd [] (map buildFeatureVector window)).
Proof.
  unfold evaluation_of. intros Hrun Hs.
  destruct (bind _ _ w) as [o w'] eqn:Hb. cbn [fst] in Hrun. subst o.
  apply bind_returns in Hb as (? & w1 & _ & Hb).
  apply bind_returns in Hb as (? & w2 & _ & Hb).
  apply bind_returns in Hb as (score & w3 & Hd & Hb).
  injection Hb as <- _. cbn [anomalyScore] in Hs. subst score.
  unfold detectAnomaly in Hd.
  destruct (length window <? 5)%nat; [discriminate Hd|].
  apply bind_returns in Hd as ([] & w4 & _ & Hd).
  injection Hd as <- _. reflexivity.
Qed.

End SmallHistory.

(** C6.  For every forest and every query sample, the anomaly score lies
    within [0,1], and so does the score any risk evaluation returns; and for
    every account with fewer than 5 recorded transactions, the risk
    evaluation produces no anomaly score, persists no anomaly event and
    raises no anomaly alert. *)
Theorem anomaly_score_bounds `{Platform} (forest : IsolationForest.Forest)
    (sample : list R) (env : Env) (accountId : string) (w : World) :
  (length (history accountId w) < 5)%nat ->
  let run := evaluateAccountRisk env accountId w in
  (0 <= IsolationForest.score forest sample <= 1)%R
  /\ (forall accountId' w' r s,
        fst (evaluateAccountRisk env accountId' w') = inr r ->
        anomalyScore r = Some s ->
        (0 <= s <= 1)%R)
  /\ (forall r, fst run = inr r -> anomalyScore r = None)
  /\ anomaly_events (snd run) = anomaly_events w
  /\ anomaly_alerts (snd run) = anomaly_alerts w.
Proof.
  intros Hlen run. split; [apply score_bounds|]. split.
  { intros accountId' w' r s Hr Hs.
    destruct (accounts (db w') !! accountId') as [account|] eqn:Ha.
    - rewrite (evaluateAccountRisk_found env accountId' account w' Ha) in Hr.
      rewrite (evaluation_of_score env _ _ _ _ _ _ Hr Hs). apply score_bounds.
    - rewrite (evaluateAccountRisk_missing env accountId' w' Ha) in Hr.
      discriminate Hr. }
  subst run.
  destruct (accounts (db w) !! accountId) as [account|] eqn:Ha.
  - rewrite (evaluateAccountRisk_found env accountId account w Ha).
    assert (Hwin : (length (transactions_of accountId 200 (db w)) < 5)%nat).
    { unfold transactions_of. rewrite length_take. unfold history in Hlen. lia. }
    destruct (evaluation_of_small env accountId account _ Hwin) as (Hev & Hal & Hsc).
    split; [|split].
    + intros r Hr. apply (Hsc _ _ Hr).
    + rewrite Hev. reflexivity.
    + rewrite Hal. reflexivity.
  - rewrite (evaluateAccountRisk_missing env accountId w Ha).
    split; [|split]; [discriminate | reflexivity | reflexivity].
Qed.

Section DetectorExample.

#[local] Existing Instance Demo.platform.

Import Demo IsolationForest.

(** One tree that separates two points on their first feature. *)
Definition small_forest : Forest := {|
  treeCount := 1;
  subsampleSize := 2;
  trees := [Node 2 (Some 0%nat) (Some 1%R)
              (Some (Node 1 None None None None true))
              (Some (Node 1 None None None None true))
              false]
|}.

Lemma anomaly_score_bounds_witness :
  let run := evaluateAccountRisk test_env "A" after_transfer in
  (0 <= score small_forest [0%R] <= 1)%R
  /\ (forall accountId' w' r s,
        fst (evaluateAccountRisk test_env accountId' w') = inr r ->
        anomalyScore r = Some s ->
        (0 <= s <= 1)%R)
  /\ (forall r, fst run = inr r -> anomalyScore r = None)
  /\ anomaly_events (snd run) = anomaly_events after_transfer
  /\ anomaly_alerts (snd run) = anomaly_alerts after_transfer.
Proof.
  apply (anomaly_score_bounds small_forest [0%R] test_env "A" after_transfer).
  vm_compute. lia.
Defined.

End DetectorExample.

(* ===================================================================== *)
(** ** Alerts *)

Section Raising.

Context `{Platform} (env : Env).

(** Whatever becomes of the publish, the alert has been inserted and its
    audit entry appended. *)
Lemma raiseRiskAlert_persists accountId alertType severity details w :
  let run := raiseRiskAlert env accountId alertType severity details w in
  exists alert entry,
    risk_alerts (db (snd run)) = alert :: risk_alerts (db w)
    /\ ra_alert_type alert = alertType
    /\ ra_severity alert = severity
    /\ audit_logs (db (snd run)) = entry :: audit_logs (db w)
    /\ al_event_type entry = "risk.alert.raised"
    /\ (forall returned_alert, fst run = inr returned_alert -> returned_alert = alert).
Proof.
  cbv zeta.
  unfold raiseRiskAlert, publishToStream, getRedisClient, when, recordAuditEvent,
    insertRiskAlert, insertAuditLog, fetchLatestHash, fresh_id, bind, query, modify,
    update_db, gets, ret, throw.
  cbn.
  repeat match goal with
         | |- context [if ?c then _ else _] => destruct c; cbn
         end.
  all: do 2 eexists; repeat split; try reflexivity.
  all: intros returned_alert E; try discriminate E; injection E as <-; reflexivity.
Qed.

End Raising.

Section AlertExample.

Import Demo.

(** C8, where the code departs from it.  Redis streams are switched on, the
    client is connected, and Redis rejects the [xAdd]: raiseRiskAlert throws
    the error of the publish instead of returning the alert it has persisted
    and audited.  Inside a transfer (60000, which fails the AML check and so
    raises an alert) the error aborts the transfer and the rollback removes
    the alert and its audit entry as well. *)
Theorem raise_surfaces_publish_failure :
  let run := raiseRiskAlert (H := rejecting_redis) streaming_env
               (Some "A") "leverage_threshold" high JNull world in
  let transfer_run := createTransfer (H := rejecting_redis) streaming_env
                        (transfer "A" "B" (units 60000)) alice rnd funded_world in
  bus_reliable (H := platform) streaming_env
  /\ returned (fst (raiseRiskAlert (H := platform) streaming_env
                      (Some "A") "leverage_threshold" high JNull world)) = true
  /\ fst run = inl (JsError "xAdd rejected")
  /\ length (risk_alerts (db (snd run))) = 1%nat
  /\ length (audit_logs (db (snd run))) = 1%nat
  /\ fst transfer_run = inl (JsError "xAdd rejected")
  /\ db (snd transfer_run) = db funded_world.
Proof.
  cbv zeta. split; [right; reflexivity|].
  repeat split; vm_compute; reflexivity.
Qed.

End AlertExample.

(* ===================================================================== *)
(** ** Envelope encryption *)

(** What the services take from the libraries. *)
Class PlatformLaws `{Platform} : Prop := {
  base64_decode_encode : forall b, base64_decode (base64_encode b) = b;
  base64_decode_empty : base64_decode "" = [];
  aes256_ctr_involutive :
    forall key iv data, aes256_ctr key iv (aes256_ctr key iv data) = data
}.

Section Envelope.

Context `{Platform} (env : Env).

(** The configured private key unwraps what the configured public key
    wraps. *)
Definition matching_keys : Prop :=
  forall seed data wrapped,
    rsa_publicEncrypt (pem_of (rsaPublicKey env)) seed data = Some wrapped ->
    rsa_privateDecrypt (pem_of (rsaPrivateKey env)) wrapped = Some data.

(** When Vault unwraps a token it has issued for a key, it gives that key. *)
Definition vault_faithful : Prop :=
  forall key token key',
    encryptWithVault env key = inr token ->
    decryptWithVault env token = inr key' ->
    key' = key.


(** A payload that JSON can carry: parsing its text gives it back. *)
Definition structurally_valid (payload : json) : Prop :=
  JSON_parse (JSON_stringify payload) = Some payload.


(** The key decryptPayload works with. *)
Definition unwrapped_key (input : EncryptedPayload) : outcome (list byte) :=
  match vault_key env input with
  | Some key => inr key
  | None =>
      match rsa_privateDecrypt (pem_of (rsaPrivateKey env))
              (base64_decode (encryptedKey input)) with
      | Some key => inr key
      | None => inl (JsError "privateDecrypt failed")
      end
  end.

Lemma decryptPayload_unwrapped input :
  decryptPayload env input =
    match unwrapped_key input with
    | inl e => inl e
    | inr aesKey =>
        match gcm_decrypt aesKey (base64_decode (iv input))
                (base64_decode (ciphertext input)) (base64_decode (authTag input)) with
        | inl e => inl e
        | inr decrypted =>
            match JSON_parse (string_of_list_byte decrypted) with
            | Some value => inr value
            | None => inl (JsError "Unexpected token in JSON")
            end
        end
    end.
Proof. reflexivity. Qed.

Context {L : PlatformLaws}.


Lemma vault_faithful_unconfigured : isVaultConfigured env = false -> vault_faithful.
Proof.
  intros Hc key token key'. unfold encryptWithVault, decryptWithVault.
  rewrite Hc. cbn [negb]. intros [= <-] [= <-]. apply base64_decode_encode.
Qed.

(** The fields of the envelope encryptPayload returns. *)
Lemma encryptPayload_fields payload rnd envelope :
  encryptPayload env payload rnd = inr envelope ->
  let encrypted := aes256_ctr (rnd_aesKey rnd) (rnd_iv rnd)
                     (list_byte_of_string (JSON_stringify payload)) in
  exists wrapped token,
    rsa_publicEncrypt (pem_of (rsaPublicKey env)) (rnd_oaepSeed rnd) (rnd_aesKey rnd)
      = Some wrapped
    /\ encryptWithVault env (rnd_aesKey rnd) = inr token
    /\ envelope = {| encryptedKey := base64_encode wrapped;
                     iv := base64_encode (rnd_iv rnd);
                     authTag := base64_encode
                                  (aes256_gcm_tag (rnd_aesKey rnd) (rnd_iv rnd) encrypted);
                     ciphertext := base64_encode encrypted;
                     vaultCiphertext := Some token |}.
Proof.
  unfold encryptPayload, gcm_encrypt. intros Henc.
  destruct (negb _ || negb _); [discriminate Henc|].
  destruct (rsa_publicEncrypt _ _ _) as [wrapped|]; [|discriminate Henc].
  destruct (encryptWithVault env _) as [e|token]; [discriminate Henc|].
  injection Henc as <-. exists wrapped, token. repeat split.
Qed.

(** Decryption works with the key the envelope was made with, whether Vault
    answers or the RSA unwrap is used. *)
Lemma unwrapped_key_of_envelope rnd wrapped token input :
  matching_keys -> vault_faithful ->
  rsa_publicEncrypt (pem_of (rsaPublicKey env)) (rnd_oaepSeed rnd) (rnd_aesKey rnd)
    = Some wrapped ->
  encryptWithVault env (rnd_aesKey rnd) = inr token ->
  encryptedKey input = base64_encode wrapped ->
  vaultCiphertext input = Some token ->
  unwrapped_key input = inr (rnd_aesKey rnd).
Proof.
  intros Hkeys Hvault Hw Ht Hk Hv. unfold unwrapped_key, vault_key. rewrite Hv.
  assert (Hrsa : rsa_privateDecrypt (pem_of (rsaPrivateKey env))
                   (base64_decode (encryptedKey input)) = Some (rnd_aesKey rnd)).
  { rewrite Hk, base64_decode_encode. apply (Hkeys _ _ _ Hw). }
  destruct (truthy token); [|rewrite Hrsa; reflexivity].
  destruct (decryptWithVault env token) as [e|key'] eqn:Hd; [rewrite Hrsa; reflexivity|].
  rewrite (Hvault _ _ _ Ht Hd). reflexivity.
Qed.

End Envelope.




Section EnvelopeExample.

#[local] Existing Instance Demo.platform.

Import Demo.

Lemma demo_laws : PlatformLaws.
Proof.
  split.
  - apply list_byte_of_string_of_list_byte.
  - reflexivity.
  - intros key iv data. apply rev_involutive.
Qed.





End EnvelopeExample.

(* ===================================================================== *)
(** * Further properties of the services *)
(* ===================================================================== *)

(** ** The course of a transfer *)

Section TransferCourse.

Context `{Platform} (env : Env).

(** A transfer that returns has passed every check before the transaction,
    and its handler has returned. *)
Lemma createTransfer_committed req requester rnd w r w' :
  createTransfer env req requester rnd w = (inr r, w') ->
  exists amount enc w2,
    validation_errors req = []
    /\ req_sourceAccountId req <> req_destinationAccountId req
    /\ req_amount req = Some amount
    /\ (0 < amount)%Z
    /\ encryptPayload env
         (payloadForEncryption (req_sourceAccountId req) (req_destinationAccountId req)
            amount (req_currency req) (req_memo req) requester) rnd = inr enc
    /\ transferHandler env (req_sourceAccountId req) (req_destinationAccountId req)
         amount (req_currency req) (req_memo req) requester enc (log_statement BEGIN w)
       = (inr r, w2)
    /\ w' = log_statement COMMIT w2.
Proof.
  unfold createTransfer. intros Hrun.
  destruct (validation_errors req); [|discriminate Hrun].
  destruct (String.eqb _ _) eqn:Hne; [discriminate Hrun|].
  apply String.eqb_neq in Hne.
  destruct (req_amount req) as [amount|]; [|discriminate Hrun].
  destruct (amount <=? 0)%Z eqn:Hpos; [discriminate Hrun|].
  apply Z.leb_gt in Hpos.
  apply bind_returns in Hrun as (enc & w1 & Henc & Hrun).
  unfold lift in Henc. injection Henc as Henc <-.
  unfold withTransaction in Hrun.
  destruct (transferHandler _ _ _ _ _ _ _ _ _) as [[e|r'] w2] eqn:Hh;
    [discriminate Hrun|].
  injection Hrun as <- <-.
  exists amount, enc, w2. repeat split; try assumption.
Qed.

(** A transfer that fails has been rejected before the transaction, the world
    untouched, or inside it, the database put back by the rollback. *)
Lemma createTransfer_failed req requester rnd w e w' :
  createTransfer env req requester rnd w = (inl e, w') ->
  w' = w
  \/ exists amount enc w2,
       transferHandler env (req_sourceAccountId req) (req_destinationAccountId req)
         amount (req_currency req) (req_memo req) requester enc (log_statement BEGIN w)
       = (inl e, w2)
       /\ w' = log_statement ROLLBACK (set_db (db w) w2).
Proof.
  unfold createTransfer. intros Hrun.
  destruct (validation_errors req); [|left; injection Hrun as _ <-; reflexivity].
  destruct (String.eqb _ _); [left; injection Hrun as _ <-; reflexivity|].
  destruct (req_amount req) as [amount|]; [|left; injection Hrun as _ <-; reflexivity].
  destruct (amount <=? 0)%Z; [left; injection Hrun as _ <-; reflexivity|].
  unfold bind, lift in Hrun.
  destruct (encryptPayload _ _ _) as [e'|enc]; [left; injection Hrun as _ <-; reflexivity|].
  unfold withTransaction in Hrun.
  destruct (transferHandler _ _ _ _ _ _ _ _ _) as [[e'|r'] w2] eqn:Hh;
    [|discriminate Hrun].
  injection Hrun as <- <-. right. exists amount, enc, w2. split; [exact Hh | reflexivity].
Qed.

End TransferCourse.

(** ** Money is neither created nor destroyed *)

Section Conservation.




End Conservation.

Section Balances.

Context `{Platform} (env : Env).



End Balances.



(** ** What a service appends *)

Section Growth.

(** [grows f c]: whatever the outcome, what [f] lists after [c] is what it
    listed before with new rows put in front: no row is removed or changed. *)
Definition grows {A B} (f : World -> list B) (c : M A) : Prop :=
  forall w, exists new, f (snd (c w)) = new ++ f w.

Lemma grows_keeps {A B} (f : World -> list B) (c : M A) : keeps f c -> grows f c.
Proof. intros Hk w. exists []. apply Hk. Qed.

Lemma grows_bind {A B C} (f : World -> list C) (c : M A) (k : A -> M B) :
  grows f c -> (forall a, grows f (k a)) -> grows f (bind c k).
Proof.
  intros Hc Hk w. unfold bind. destruct (Hc w) as [new Hnew].
  destruct (c w) as [[e|a] w1]; cbn [snd] in *.
  - eauto.
  - destruct (Hk a w1) as [new' Hnew']. exists (new' ++ new).
    rewrite Hnew', Hnew, app_assoc. reflexivity.
Qed.

Lemma grows_when {B} (f : World -> list B) (c : bool) (body : M unit) :
  grows f body -> grows f (when c body).
Proof. intros Hb. destruct c; [exact Hb|]. intro w. exists []. reflexivity. Qed.

(** A transaction appends what its handler appends, or nothing. *)
Lemma grows_withTransaction {A B} (g : Db -> list B) (handler : M A) :
  grows (fun w => g (db w)) handler ->
  grows (fun w => g (db w)) (withTransaction handler).
Proof.
  intros Hh w. unfold withTransaction. destruct (Hh (log_statement BEGIN w)) as [new Hnew].
  destruct (handler _) as [[e|a] w2]; cbn [snd] in *.
  - exists []. reflexivity.
  - exists new. exact Hnew.
Qed.

(** The tables, and the counter behind the generated keys. *)
Inductive Table : Type :=
| Ids | Accounts | Transactions | AuditLogs | ComplianceChecks
| RiskMetrics | RiskAlerts | RiskAnomalies.

(** The updates the repositories make, by table. *)
Inductive writes : Table -> (Db -> Db) -> Prop :=
| writes_id : writes Ids bump_id
| writes_accounts f : writes Accounts (with_accounts f)
| writes_transactions r : writes Transactions (add_transaction r)
| writes_audit_logs r : writes AuditLogs (add_audit_log r)
| writes_compliance_checks r : writes ComplianceChecks (add_compliance_check r)
| writes_risk_metrics r : writes RiskMetrics (add_risk_metric r)
| writes_risk_alerts r : writes RiskAlerts (add_risk_alert r)
| writes_risk_anomalies r : writes RiskAnomalies (add_risk_anomaly r).

(** A reading of the database that every update leaves alone or extends. *)
Definition append_only {B} (g : Db -> list B) : Prop :=
  forall t u, writes t u -> forall d, exists new, g (u d) = new ++ g d.

Lemma grows_update_db {B} (g : Db -> list B) (t : Table) (u : Db -> Db) :
  append_only g -> writes t u -> grows (fun w => g (db w)) (update_db u).
Proof. intros Hg Hu w. apply (Hg t u Hu). Qed.

(** A reading of the database that the updates of a table leave alone. *)
Definition blind_to {B} (g : Db -> B) (t : Table) : Prop :=
  forall u, writes t u -> forall d, g (u d) = g d.

Lemma keeps_update_db {B} (g : Db -> B) (t : Table) (u : Db -> Db) :
  blind_to g t -> writes t u -> keeps (fun w => g (db w)) (update_db u).
Proof. intros Hg Hu w. apply (Hg u Hu). Qed.

End Growth.

Create HintDb grows discriminated.

Ltac grows_step :=
  lazymatch goal with
  | |- grows _ (ret _) => intro; exists []; reflexivity
  | |- grows _ (throw _) => intro; exists []; reflexivity
  | |- grows _ (gets _) => intro; exists []; reflexivity
  | |- grows _ (lift _) => intro; exists []; reflexivity
  | |- grows _ (query _) => intro; exists []; reflexivity
  | |- grows _ (update_db _) => eapply grows_update_db; [assumption | constructor]
  | |- grows _ (modify _) => intro; exists []; reflexivity
  | |- grows _ (when _ _) => apply grows_when
  | |- grows _ (bind _ _) => apply grows_bind; [ | intro ]
  | |- grows _ (withTransaction _) => apply grows_withTransaction
  | |- grows _ (if ?c then _ else _) => destruct c
  | |- grows _ (match ?x with _ => _ end) => destruct x
  | |- grows _ _ => solve [ auto with grows ]
  end.

Ltac grows_tac := repeat grows_step.

Section GrowthOfServices.

Context `{Platform} (env : Env) {B : Type} (g : Db -> list B) (Hg : append_only g).

Let f (w : World) : list B := g (db w).

Lemma fresh_id_grows : grows f fresh_id.
Proof. unfold fresh_id, f. grows_tac. Qed.
#[local] Hint Resolve fresh_id_grows : grows.

Lemma recordAuditEvent_grows eventType payload :
  grows f (recordAuditEvent eventType payload).
Proof. unfold recordAuditEvent, fetchLatestHash, insertAuditLog, f. grows_tac. Qed.
#[local] Hint Resolve recordAuditEvent_grows : grows.

Lemma raiseRiskAlert_grows accountId alertType severity details :
  grows f (raiseRiskAlert env accountId alertType severity details).
Proof.
  unfold raiseRiskAlert, insertRiskAlert, publishToStream, getRedisClient. grows_tac.
Qed.
#[local] Hint Resolve raiseRiskAlert_grows : grows.

Lemma runComplianceSimulation_grows userId transactionId amount currency memo :
  grows f (runComplianceSimulation env userId transactionId amount currency memo).
Proof.
  unfold runComplianceSimulation, simulateKyc, simulateAml, insertComplianceCheck.
  grows_tac.
Qed.

Lemma evaluateAccountRisk_grows accountId : grows f (evaluateAccountRisk env accountId).
Proof.
  unfold evaluateAccountRisk, findAccountById, listTransactionsForAccount,
    insertRiskMetric, checkThresholds, detectAnomaly, insertAnomalyEvent.
  grows_tac.
Qed.
#[local] Hint Resolve runComplianceSimulation_grows evaluateAccountRisk_grows : grows.

Lemma createTransfer_grows req requester rnd :
  grows f (createTransfer env req requester rnd).
Proof.
  unfold createTransfer, transferHandler, findAccountByIdForUpdate, updateBalance,
    insertTransaction.
  grows_tac.
Qed.

End GrowthOfServices.

Ltac append_only_tac :=
  intros t u Hu d; destruct Hu;
  first [ exists []; reflexivity | eexists [_]; reflexivity ].

(** X3.  createTransfer never removes or rewrites a stored row: whatever
    its outcome, each of the tables audit_logs, transactions,
    compliance_checks, risk_metrics, risk_alerts and risk_anomalies
    afterwards is the table before with zero or more new rows added. *)
Theorem transfer_appends_only `{Platform} (env : Env) (req : TransferRequest)
    (requester : AuthenticatedUser) (rnd : Entropy) (w : World) :
  let w' := snd (createTransfer env req requester rnd w) in
  (exists new, audit_logs (db w') = new ++ audit_logs (db w))
  /\ (exists new, transactions (db w') = new ++ transactions (db w))
  /\ (exists new, compliance_checks (db w') = new ++ compliance_checks (db w))
  /\ (exists new, risk_metrics (db w') = new ++ risk_metrics (db w))
  /\ (exists new, risk_alerts (db w') = new ++ risk_alerts (db w))
  /\ (exists new, risk_anomalies (db w') = new ++ risk_anomalies (db w)).
Proof.
  cbv zeta.
  repeat split;
    [ apply (createTransfer_grows env audit_logs)
    | apply (createTransfer_grows env transactions)
    | apply (createTransfer_grows env compliance_checks)
    | apply (createTransfer_grows env risk_metrics)
    | apply (createTransfer_grows env risk_alerts)
    | apply (createTransfer_grows env risk_anomalies) ];
    append_only_tac.
Qed.

(** ** The statements a service sends *)

Definition is_control (q : Sql) : bool :=
  match q with
  | BEGIN | COMMIT | ROLLBACK => true
  | _ => false
  end.

Section Statements.

(** [issues c]: the statements sent before [c] stay as they are, and those
    [c] adds are no BEGIN, COMMIT or ROLLBACK. *)
Definition issues {A} (c : M A) : Prop :=
  forall w, exists more,
    statements (snd (c w)) = statements w ++ more
    /\ forallb (fun q => negb (is_control q)) more = true.

Lemma issues_none {A} (c : M A) : keeps statements c -> issues c.
Proof. intros Hk w. exists []. rewrite Hk, app_nil_r. split; reflexivity. Qed.

Lemma issues_query (q : Sql) : is_control q = false -> issues (query q).
Proof. intros Hq w. exists [q]. cbn. rewrite Hq. split; reflexivity. Qed.

Lemma issues_bind {A B} (c : M A) (k : A -> M B) :
  issues c -> (forall a, issues (k a)) -> issues (bind c k).
Proof.
  intros Hc Hk w. unfold bind. destruct (Hc w) as (more & Hm & Hf).
  destruct (c w) as [[e|a] w1]; cbn [snd] in *.
  - eauto.
  - destruct (Hk a w1) as (more' & Hm' & Hf'). exists (more ++ more').
    rewrite Hm', Hm, app_assoc, forallb_app, Hf, Hf'. split; reflexivity.
Qed.

Lemma issues_when (c : bool) (body : M unit) : issues body -> issues (when c body).
Proof.
  intros Hb. destruct c; [exact Hb|]. intro w. exists [].
  rewrite app_nil_r. split; reflexivity.
Qed.

End Statements.

Create HintDb issues discriminated.

Ltac issues_step :=
  lazymatch goal with
  | |- issues (ret _) => apply issues_none; intro; reflexivity
  | |- issues (throw _) => apply issues_none; intro; reflexivity
  | |- issues (gets _) => apply issues_none; intro; reflexivity
  | |- issues (lift _) => apply issues_none; intro; reflexivity
  | |- issues (query _) => apply issues_query; reflexivity
  | |- issues (update_db _) => apply issues_none; intro; reflexivity
  | |- issues (modify _) => apply issues_none; intro; reflexivity
  | |- issues (when _ _) => apply issues_when
  | |- issues (bind _ _) => apply issues_bind; [ | intro ]
  | |- issues (if ?c then _ else _) => destruct c
  | |- issues (match ?x with _ => _ end) => destruct x
  | |- issues _ => solve [ auto with issues ]
  end.

Ltac issues_tac := repeat issues_step.

Section StatementsOfServices.

Context `{Platform} (env : Env).

Lemma fresh_id_issues : issues fresh_id.
Proof. unfold fresh_id. issues_tac. Qed.
#[local] Hint Resolve fresh_id_issues : issues.

Lemma recordAuditEvent_issues eventType payload :
  issues (recordAuditEvent eventType payload).
Proof. unfold recordAuditEvent, fetchLatestHash, insertAuditLog. issues_tac. Qed.
#[local] Hint Resolve recordAuditEvent_issues : issues.

Lemma raiseRiskAlert_issues accountId alertType severity details :
  issues (raiseRiskAlert env accountId alertType severity details).
Proof.
  unfold raiseRiskAlert, insertRiskAlert, publishToStream, getRedisClient. issues_tac.
Qed.
#[local] Hint Resolve raiseRiskAlert_issues : issues.

Lemma runComplianceSimulation_issues userId transactionId amount currency memo :
  issues (runComplianceSimulation env userId transactionId amount currency memo).
Proof.
  unfold runComplianceSimulation, simulateKyc, simulateAml, insertComplianceCheck.
  issues_tac.
Qed.

Lemma evaluateAccountRisk_issues accountId : issues (evaluateAccountRisk env accountId).
Proof.
  unfold evaluateAccountRisk, findAccountById, listTransactionsForAccount,
    insertRiskMetric, checkThresholds, detectAnomaly, insertAnomalyEvent.
  issues_tac.
Qed.
#[local] Hint Resolve runComplianceSimulation_issues evaluateAccountRisk_issues : issues.

(** The handler locks the source row, then the destination row, before
    anything else. *)
Lemma transferHandler_statements src dst amount currency memo requester enc w :
  exists more,
    statements (snd (transferHandler env src dst amount currency memo requester enc w))
    = statements w ++ SelectAccountForUpdate src :: SelectAccountForUpdate dst :: more
    /\ forallb (fun q => negb (is_control q)) more = true.
Proof.
  unfold transferHandler.
  unfold bind at 1. rewrite findAccountByIdForUpdate_run.
  unfold bind at 1. rewrite findAccountByIdForUpdate_run.
  cbn [db log_statement].
  match goal with
  | |- context [snd (?c ?w0)] =>
      assert (Hc : issues c);
      [ unfold updateBalance, insertTransaction; issues_tac
      | destruct (Hc w0) as (more & Hm & Hf) ]
  end.
  exists more. rewrite Hm. cbn [statements log_statement].
  rewrite <- !app_assoc. split; [reflexivity | exact Hf].
Qed.

End StatementsOfServices.

(** X4.  A createTransfer that is rejected before its transaction throws
    and leaves the world untouched. Otherwise the statements it sends are
    BEGIN, SELECT ... FOR UPDATE on the source account, SELECT ... FOR
    UPDATE on the destination account, then statements none of which is
    BEGIN, COMMIT or ROLLBACK, and last exactly one COMMIT if the transfer
    returns or exactly one ROLLBACK if it throws. *)
Theorem transfer_transaction_bracket `{Platform} (env : Env) (req : TransferRequest)
    (requester : AuthenticatedUser) (rnd : Entropy) (w : World) :
  let run := createTransfer env req requester rnd w in
  (returned (fst run) = false /\ snd run = w)
  \/ exists body,
       statements (snd run)
       = statements w
         ++ [BEGIN;
             SelectAccountForUpdate (req_sourceAccountId req);
             SelectAccountForUpdate (req_destinationAccountId req)]
         ++ body
         ++ [if returned (fst run) then COMMIT else ROLLBACK]
       /\ forallb (fun q => negb (is_control q)) body = true.
Proof.
  cbv zeta.
  destruct (createTransfer env req requester rnd w) as [[e|r] w'] eqn:Hrun; cbn [fst snd].
  - apply createTransfer_failed in Hrun as [->|(amount & enc & w2 & Hh & ->)];
      [left; split; reflexivity|].
    right.
    destruct (transferHandler_statements env (req_sourceAccountId req)
                (req_destinationAccountId req) amount (req_currency req) (req_memo req)
                requester enc (log_statement BEGIN w)) as (more & Hm & Hf).
    rewrite Hh in Hm. cbn [snd] in Hm. exists more.
    cbn [statements log_statement set_db returned]. rewrite Hm.
    cbn [statements log_statement]. rewrite <- !app_assoc. split; [reflexivity | exact Hf].
  - apply createTransfer_committed in Hrun
      as (amount & enc & w2 & _ & _ & _ & _ & _ & Hh & ->).
    right.
    destruct (transferHandler_statements env (req_sourceAccountId req)
                (req_destinationAccountId req) amount (req_currency req) (req_memo req)
                requester enc (log_statement BEGIN w)) as (more & Hm & Hf).
    rewrite Hh in Hm. cbn [snd] in Hm. exists more.
    cbn [statements log_statement returned]. rewrite Hm.
    cbn [statements log_statement]. rewrite <- !app_assoc. split; [reflexivity | exact Hf].
Qed.

(** ** What a committed transfer writes *)

Section Postings.

Context `{Platform} (env : Env).

(** The two balance updates and the two ledger rows. *)
Definition postings (src dst : string) (amount : money) (currency : string)
    (memo : option string) (enc : EncryptedPayload)
    : M (TransactionRecord * TransactionRecord) :=
  updateBalance src (- amount)%Z;;;
  updateBalance dst amount;;;
  let serializedPayload := JSON_stringify (json_of_envelope enc) in
  debit <- insertTransaction src (Some dst) amount currency debit memo serializedPayload;;
  credit <- insertTransaction dst (Some src) amount currency credit memo serializedPayload;;
  ret (debit, credit).

(** What follows them: the audit entry, the compliance checks, the two risk
    evaluations. *)
Definition followup (src dst : string) (amount : money) (currency : string)
    (memo : option string) (requester : AuthenticatedUser) (enc : EncryptedPayload)
    (owner : string) (debit credit : TransactionRecord) : M TransferResult :=
  recordAuditEvent "transaction.transfer"
    (JObj [("debitTransactionId", JStr (tx_id debit));
           ("creditTransactionId", JStr (tx_id credit));
           ("sourceAccountId", JStr src);
           ("destinationAccountId", JStr dst);
           ("amount", JMoney amount);
           ("currency", JStr currency);
           ("createdBy", JStr (au_id requester))]);;;
  compliance <- runComplianceSimulation env owner (tx_id debit) amount currency memo;;
  sourceRisk <- evaluateAccountRisk env src;;
  destinationRisk <- evaluateAccountRisk env dst;;
  ret {| tr_debit := debit; tr_credit := credit;
         tr_encryptedPayload := enc;
         tr_compliance := compliance;
         tr_sourceRisk := sourceRisk;
         tr_destinationRisk := destinationRisk |}.

Definition debit_row (src dst : string) (amount : money) (currency : string)
    (memo : option string) (enc : EncryptedPayload) (n : nat) : TransactionRecord :=
  {| tx_id := uuid_generate_v4 n; tx_account_id := src;
     tx_counterparty_account_id := Some dst; tx_amount := amount;
     tx_currency := currency; tx_direction := debit; tx_memo := memo;
     tx_encrypted_payload := JSON_stringify (json_of_envelope enc);
     tx_created_at := NOW n |}.

Definition credit_row (src dst : string) (amount : money) (currency : string)
    (memo : option string) (enc : EncryptedPayload) (n : nat) : TransactionRecord :=
  {| tx_id := uuid_generate_v4 (S n); tx_account_id := dst;
     tx_counterparty_account_id := Some src; tx_amount := amount;
     tx_currency := currency; tx_direction := credit; tx_memo := memo;
     tx_encrypted_payload := JSON_stringify (json_of_envelope enc);
     tx_created_at := NOW (S n) |}.

Lemma postings_run src dst amount currency memo enc w :
  let n := next_id (db w) in
  fst (postings src dst amount currency memo enc w)
  = inr (debit_row src dst amount currency memo enc n,
         credit_row src dst amount currency memo enc n)
  /\ transactions (db (snd (postings src dst amount currency memo enc w)))
     = credit_row src dst amount currency memo enc n
       :: debit_row src dst amount currency memo enc n :: transactions (db w)
  /\ audit_logs (db (snd (postings src dst amount currency memo enc w)))
     = audit_logs (db w)
  /\ compliance_checks (db (snd (postings src dst amount currency memo enc w)))
     = compliance_checks (db w)
  /\ risk_metrics (db (snd (postings src dst amount currency memo enc w)))
     = risk_metrics (db w)
  /\ risk_alerts (db (snd (postings src dst amount currency memo enc w)))
     = risk_alerts (db w)
  /\ streams (snd (postings src dst amount currency memo enc w)) = streams w.
Proof. repeat split. Qed.

(** A handler that returns has made the postings and then run the
    follow-up to its end. *)
Lemma transferHandler_followup src dst amount currency memo requester enc w r w' :
  transferHandler env src dst amount currency memo requester enc w = (inr r, w') ->
  exists sourceAccount,
    accounts (db w) !! src = Some sourceAccount
    /\ followup src dst amount currency memo requester enc (acc_user_id sourceAccount)
         (debit_row src dst amount currency memo enc (next_id (db w)))
         (credit_row src dst amount currency memo enc (next_id (db w)))
         (snd (postings src dst amount currency memo enc
                 (log_statement (SelectAccountForUpdate dst)
                    (log_statement (SelectAccountForUpdate src) w))))
       = (inr r, w').
Proof.
  unfold transferHandler. intros Hrun.
  apply bind_returns in Hrun as (sa & w1 & H1 & Hrun).
  rewrite findAccountByIdForUpdate_run in H1. injection H1 as <- <-.
  apply bind_returns in Hrun as (da & w2 & H2 & Hrun).
  rewrite findAccountByIdForUpdate_run in H2. injection H2 as <- <-.
  cbn [db log_statement] in Hrun.
  destruct (accounts (db w) !! src) as [sourceAccount|] eqn:Hs;
    destruct (accounts (db w) !! dst) as [destinationAccount|] eqn:Hd;
    try discriminate Hrun.
  destruct (is_client _ && _); [discriminate Hrun|].
  destruct (negb _ || negb _); [discriminate Hrun|].
  destruct (acc_balance sourceAccount <? amount)%Z; [discriminate Hrun|].
  exists sourceAccount. split; [reflexivity|].
  apply bind_returns in Hrun as ([] & w3 & H3 & Hrun).
  apply bind_returns in Hrun as ([] & w4 & H4 & Hrun).
  apply bind_returns in Hrun as (debit & w5 & H5 & Hrun).
  apply bind_returns in Hrun as (credit & w6 & H6 & Hrun).
  apply (f_equal snd) in H3. cbn [snd] in H3. subst w3.
  apply (f_equal snd) in H4. cbn [snd] in H4. subst w4.
  pose proof (f_equal fst H5) as E5. apply (f_equal snd) in H5.
  cbn [fst snd] in E5, H5. subst w5.
  pose proof (f_equal fst H6) as E6. apply (f_equal snd) in H6.
  cbn [fst snd] in E6, H6. subst w6.
  injection E5 as <-. injection E6 as <-.
  exact Hrun.
Qed.

End Postings.

Create HintDb frames discriminated.

Ltac frame_step :=
  lazymatch goal with
  | |- keeps _ (ret _) => apply keeps_ret
  | |- keeps _ (throw _) => apply keeps_throw
  | |- keeps _ (gets _) => apply keeps_gets
  | |- keeps _ (lift _) => apply keeps_lift
  | |- keeps _ (when _ _) => apply keeps_when
  | |- keeps _ (bind _ _) => apply keeps_bind; [ | intro ]
  | |- keeps _ (query _) => intro; reflexivity
  | |- keeps _ (update_db _) => eapply keeps_update_db; [ | solve [constructor] ]; assumption
  | |- keeps _ (modify _) => intro; reflexivity
  | |- keeps _ (if ?c then _ else _) => destruct c
  | |- keeps _ (match ?x with _ => _ end) => destruct x
  | |- keeps _ _ => solve [ auto with frames ]
  end.

Ltac frame_tac := repeat frame_step.

Section FramesOfServices.

Context `{Platform} (env : Env) {B : Type} (g : Db -> B).

Let f (w : World) : B := g (db w).

Hypothesis ids : blind_to g Ids.

Lemma fresh_id_frame : keeps f fresh_id.
Proof. unfold fresh_id, f. frame_tac. Qed.
#[local] Hint Resolve fresh_id_frame : frames.

Lemma insertRiskMetric_frame accountId e l r window :
  blind_to g RiskMetrics -> keeps f (insertRiskMetric accountId e l r window).
Proof. intros ?. unfold insertRiskMetric, f. frame_tac. Qed.

Lemma insertComplianceCheck_frame userId transactionId checkType status details :
  blind_to g ComplianceChecks ->
  keeps f (insertComplianceCheck userId transactionId checkType status details).
Proof. intros ?. unfold insertComplianceCheck, f. frame_tac. Qed.

Lemma insertAnomalyEvent_frame transactionId accountId score threshold version metadata :
  blind_to g RiskAnomalies ->
  keeps f (insertAnomalyEvent transactionId accountId score threshold version metadata).
Proof. intros ?. unfold insertAnomalyEvent, f. frame_tac. Qed.

Hypothesis audit_logs_ : blind_to g AuditLogs.

Lemma recordAuditEvent_frame eventType payload :
  keeps f (recordAuditEvent eventType payload).
Proof. unfold recordAuditEvent, fetchLatestHash, insertAuditLog, f. frame_tac. Qed.
#[local] Hint Resolve recordAuditEvent_frame : frames.

Hypothesis risk_alerts_ : blind_to g RiskAlerts.

Lemma raiseRiskAlert_frame accountId alertType severity details :
  keeps f (raiseRiskAlert env accountId alertType severity details).
Proof.
  unfold raiseRiskAlert, insertRiskAlert, publishToStream, getRedisClient, f. frame_tac.
Qed.
#[local] Hint Resolve raiseRiskAlert_frame : frames.

Lemma checkThresholds_frame accountId metrics balance :
  keeps f (checkThresholds env accountId metrics balance).
Proof. unfold checkThresholds. frame_tac. Qed.

Lemma detectAnomaly_frame accountId window :
  blind_to g RiskAnomalies -> keeps f (detectAnomaly env accountId window).
Proof.
  intros ?. pose proof insertAnomalyEvent_frame. unfold detectAnomaly. frame_tac.
Qed.

Lemma evaluateAccountRisk_frame accountId :
  blind_to g RiskMetrics -> blind_to g RiskAnomalies ->
  keeps f (evaluateAccountRisk env accountId).
Proof.
  intros ? ?. pose proof insertRiskMetric_frame. pose proof checkThresholds_frame.
  pose proof detectAnomaly_frame.
  unfold evaluateAccountRisk, findAccountById, listTransactionsForAccount. frame_tac.
Qed.

Lemma simulateAml_frame userId transactionId amount currency memo :
  blind_to g ComplianceChecks ->
  keeps f (simulateAml env userId transactionId amount currency memo).
Proof.
  intros ?. pose proof insertComplianceCheck_frame. unfold simulateAml. frame_tac.
Qed.

Lemma runComplianceSimulation_frame userId transactionId amount currency memo :
  blind_to g ComplianceChecks ->
  keeps f (runComplianceSimulation env userId transactionId amount currency memo).
Proof.
  intros ?. pose proof insertComplianceCheck_frame. pose proof simulateAml_frame.
  unfold runComplianceSimulation, simulateKyc. frame_tac.
Qed.

End FramesOfServices.

Ltac blind_tac := intros u Hu d; inversion Hu; reflexivity.

Lemma keeps_run {A B} (f : World -> B) (c : M A) (w w' : World) (o : outcome A) :
  keeps f c -> c w = (o, w') -> f w' = f w.
Proof. intros Hk Hrun. specialize (Hk w). rewrite Hrun in Hk. exact Hk. Qed.

Section Rows.

Context `{Platform} (env : Env).

Definition result_of (row : ComplianceCheckRecord) : ComplianceResult :=
  {| checkType := cc_check_type row; cr_status := cc_status row;
     cr_details := cc_details row |}.

Lemma insertComplianceCheck_row userId transactionId checkType status details w row w' :
  insertComplianceCheck userId transactionId checkType status details w = (inr row, w') ->
  compliance_checks (db w') = row :: compliance_checks (db w)
  /\ cc_user_id row = userId /\ cc_transaction_id row = transactionId
  /\ cc_check_type row = checkType /\ cc_status row = status.
Proof. intros [= <- <-]. repeat split. Qed.

(** The rows a compliance simulation that returns has stored, and its
    results. *)
Lemma runComplianceSimulation_rows userId transactionId amount currency memo w results w' :
  runComplianceSimulation env userId transactionId amount currency memo w
  = (inr results, w') ->
  exists kyc aml,
    compliance_checks (db w') = aml :: kyc :: compliance_checks (db w)
    /\ results = [result_of kyc; result_of aml]
    /\ cc_user_id kyc = userId /\ cc_transaction_id kyc = None
    /\ cc_check_type kyc = "kyc-profile" /\ cc_status kyc = passed
    /\ cc_user_id aml = userId /\ cc_transaction_id aml = Some transactionId
    /\ cc_check_type aml = "aml-transaction"
    /\ cc_status aml = (if memoMatch_of memo || (AML_THRESHOLD <=? amount)%Z
                        then failed else passed).
Proof.
  unfold runComplianceSimulation. intros Hrun.
  apply bind_returns in Hrun as (kycResult & w1 & Hk & Hrun).
  apply bind_returns in Hrun as (amlResult & w2 & Ha & Hrun).
  apply bind_returns in Hrun as ([] & w3 & Hr & Hrun).
  injection Hrun as <- <-.
  unfold simulateKyc in Hk.
  apply bind_returns in Hk as (kyc & wk & Hk & Hk').
  injection Hk' as <- <-.
  apply insertComplianceCheck_row in Hk as (Ek & Hk1 & Hk2 & Hk3 & Hk4).
  unfold simulateAml in Ha.
  apply bind_returns in Ha as (aml & wa & Ha & Ha').
  apply bind_returns in Ha' as ([] & wb & Hal & Ha').
  injection Ha' as <- <-.
  apply insertComplianceCheck_row in Ha as (Ea & Ha1 & Ha2 & Ha3 & Ha4).
  assert (Eb : compliance_checks (db wb) = compliance_checks (db wa)).
  { refine (keeps_run (fun w => compliance_checks (db w)) _ _ _ _ _ Hal).
    apply keeps_when. apply keeps_bind; [|intro; apply keeps_ret].
    apply (raiseRiskAlert_frame env compliance_checks); blind_tac. }
  assert (E3 : compliance_checks (db w3) = compliance_checks (db wb)).
  { refine (keeps_run (fun w => compliance_checks (db w)) _ _ _ _ _ Hr).
    apply keeps_when.
    apply (recordAuditEvent_frame compliance_checks); blind_tac. }
  exists kyc, aml. rewrite E3, Eb, Ea, Ek.
  repeat split; assumption.
Qed.

Lemma insertRiskMetric_row accountId exposure leverage lossRatio window w row w' :
  insertRiskMetric accountId exposure leverage lossRatio window w = (inr row, w') ->
  risk_metrics (db w') = row :: risk_metrics (db w)
  /\ row = {| rm_id := uuid_generate_v4 (next_id (db w)); rm_account_id := accountId;
              rm_exposure := exposure; rm_leverage := leverage;
              rm_loss_ratio := lossRatio; observation_window := window |}.
Proof. intros [= <- <-]. repeat split. Qed.

(** The row a risk evaluation that returns has stored. *)
Lemma evaluateAccountRisk_row accountId w r w' :
  evaluateAccountRisk env accountId w = (inr r, w') ->
  exists row,
    risk_metrics (db w') = row :: risk_metrics (db w)
    /\ rm_account_id row = accountId
    /\ rm_exposure row = exposure r
    /\ rm_leverage row = leverage r
    /\ rm_loss_ratio row = lossRatio r
    /\ observation_window row = 90%Z.
Proof.
  intros Hrun.
  destruct (accounts (db w) !! accountId) as [account|] eqn:Ha;
    [|rewrite (evaluateAccountRisk_missing env accountId w Ha) in Hrun; discriminate Hrun].
  rewrite (evaluateAccountRisk_found env accountId account w Ha) in Hrun.
  unfold evaluation_of in Hrun.
  apply bind_returns in Hrun as (row & w1 & Hrow & Hrun).
  apply bind_returns in Hrun as ([] & w2 & Hth & Hrun).
  apply bind_returns in Hrun as (score & w3 & Hde & Hrun).
  injection Hrun as <- <-.
  apply insertRiskMetric_row in Hrow as (E1 & ->).
  assert (E2 : risk_metrics (db w2) = risk_metrics (db w1)).
  { refine (keeps_run (fun w => risk_metrics (db w)) _ _ _ _ _ Hth).
    apply (checkThresholds_frame env risk_metrics); blind_tac. }
  assert (E3 : risk_metrics (db w3) = risk_metrics (db w2)).
  { refine (keeps_run (fun w => risk_metrics (db w)) _ _ _ _ _ Hde).
    apply (detectAnomaly_frame env risk_metrics); blind_tac. }
  eexists. rewrite E3, E2, E1. repeat split.
Qed.

End Rows.

Section Followup.

Context `{Platform} (env : Env).

Lemma followup_run src dst amount currency memo requester enc owner debit credit w r w' :
  followup env src dst amount currency memo requester enc owner debit credit w
  = (inr r, w') ->
  tr_debit r = debit /\ tr_credit r = credit /\ tr_encryptedPayload r = enc
  /\ transactions (db w') = transactions (db w)
  /\ (exists kyc aml,
        compliance_checks (db w') = aml :: kyc :: compliance_checks (db w)
        /\ tr_compliance r = [result_of kyc; result_of aml]
        /\ cc_user_id kyc = owner /\ cc_transaction_id kyc = None
        /\ cc_check_type kyc = "kyc-profile" /\ cc_status kyc = passed
        /\ cc_user_id aml = owner /\ cc_transaction_id aml = Some (tx_id debit)
        /\ cc_check_type aml = "aml-transaction"
        /\ cc_status aml = (if memoMatch_of memo || (AML_THRESHOLD <=? amount)%Z
                            then failed else passed))
  /\ (exists sourceRow destinationRow,
        risk_metrics (db w') = destinationRow :: sourceRow :: risk_metrics (db w)
        /\ rm_account_id sourceRow = src
        /\ rm_exposure sourceRow = exposure (tr_sourceRisk r)
        /\ rm_leverage sourceRow = leverage (tr_sourceRisk r)
        /\ rm_loss_ratio sourceRow = lossRatio (tr_sourceRisk r)
        /\ observation_window sourceRow = 90%Z
        /\ rm_account_id destinationRow = dst
        /\ rm_exposure destinationRow = exposure (tr_destinationRisk r)
        /\ rm_leverage destinationRow = leverage (tr_destinationRisk r)
        /\ rm_loss_ratio destinationRow = lossRatio (tr_destinationRisk r)
        /\ observation_window destinationRow = 90%Z).
Proof.
  unfold followup. intros Hrun.
  apply bind_returns in Hrun as ([] & w1 & Hau & Hrun).
  apply bind_returns in Hrun as (compliance & w2 & Hco & Hrun).
  apply bind_returns in Hrun as (sourceRisk & w3 & Hsr & Hrun).
  apply bind_returns in Hrun as (destinationRisk & w4 & Hdr & Hrun).
  injection Hrun as <- <-. cbn [tr_debit tr_credit tr_encryptedPayload tr_compliance
                                 tr_sourceRisk tr_destinationRisk].
  split; [reflexivity|]. split; [reflexivity|]. split; [reflexivity|].
  split; [|split].
  - rewrite (keeps_run (fun w => transactions (db w)) _ _ _ _
               ltac:(apply (evaluateAccountRisk_frame env transactions); blind_tac) Hdr).
    rewrite (keeps_run (fun w => transactions (db w)) _ _ _ _
               ltac:(apply (evaluateAccountRisk_frame env transactions); blind_tac) Hsr).
    rewrite (keeps_run (fun w => transactions (db w)) _ _ _ _
               ltac:(apply (runComplianceSimulation_frame env transactions); blind_tac) Hco).
    apply (keeps_run (fun w => transactions (db w)) _ _ _ _
               ltac:(apply (recordAuditEvent_frame transactions); blind_tac) Hau).
  - apply runComplianceSimulation_rows in Hco
      as (kyc & aml & Ec & Hres & Hf).
    exists kyc, aml.
    rewrite (keeps_run (fun w => compliance_checks (db w)) _ _ _ _
               ltac:(apply (evaluateAccountRisk_frame env compliance_checks); blind_tac) Hdr).
    rewrite (keeps_run (fun w => compliance_checks (db w)) _ _ _ _
               ltac:(apply (evaluateAccountRisk_frame env compliance_checks); blind_tac) Hsr).
    rewrite Ec.
    rewrite (keeps_run (fun w => compliance_checks (db w)) _ _ _ _
               ltac:(apply (recordAuditEvent_frame compliance_checks); blind_tac) Hau).
    split; [reflexivity|]. split; [exact Hres | exact Hf].
  - apply evaluateAccountRisk_row in Hsr as (ms & Es & Hs).
    apply evaluateAccountRisk_row in Hdr as (md & Ed & Hd).
    exists ms, md. rewrite Ed, Es.
    rewrite (keeps_run (fun w => risk_metrics (db w)) _ _ _ _
               ltac:(apply (runComplianceSimulation_frame env risk_metrics); blind_tac) Hco).
    rewrite (keeps_run (fun w => risk_metrics (db w)) _ _ _ _
               ltac:(apply (recordAuditEvent_frame risk_metrics); blind_tac) Hau).
    split; [reflexivity|].
    destruct Hs as (? & ? & ? & ? & ?). destruct Hd as (? & ? & ? & ? & ?).
    repeat split; assumption.
Qed.

End Followup.



(** ** Rejected transfers *)

Section RejectedTransfers.

Context `{Platform} (env : Env).

(** The request passes the checks made before the transaction, and its
    payload encrypts. *)
Definition reaches_database (req : TransferRequest) (requester : AuthenticatedUser)
    (rnd : Entropy) : Prop :=
  validation_errors req = []
  /\ req_sourceAccountId req <> req_destinationAccountId req
  /\ exists amount,
       req_amount req = Some amount
       /\ (0 < amount)%Z
       /\ returned
            (encryptPayload env
               (payloadForEncryption (req_sourceAccountId req)
                  (req_destinationAccountId req) amount (req_currency req)
                  (req_memo req) requester) rnd) = true.

Lemma createTransfer_early req requester rnd w :
  ~ reaches_database req requester rnd ->
  returned (fst (createTransfer env req requester rnd w)) = false
  /\ snd (createTransfer env req requester rnd w) = w.
Proof.
  intros Hn. unfold createTransfer.
  destruct (validation_errors req) eqn:Hv; [|split; reflexivity].
  destruct (String.eqb _ _) eqn:Hne; [split; reflexivity|].
  apply String.eqb_neq in Hne.
  destruct (req_amount req) as [amount|] eqn:Ha; [|split; reflexivity].
  destruct (amount <=? 0)%Z eqn:Hpos; [split; reflexivity|].
  apply Z.leb_gt in Hpos.
  unfold bind, lift. destruct (encryptPayload _ _ _) as [e|enc] eqn:Henc;
    [split; reflexivity|].
  exfalso. apply Hn. split; [exact Hv|]. split; [exact Hne|].
  exists amount. rewrite Henc. repeat split; assumption.
Qed.

Lemma createTransfer_begins req requester rnd w :
  reaches_database req requester rnd ->
  exists more,
    statements (snd (createTransfer env req requester rnd w))
    = statements w ++ BEGIN :: more.
Proof.
  intros (Hv & Hne & amount & Ha & Hpos & Henc).
  destruct (createTransfer_reaches_checks env req requester rnd w amount Hv Hne Ha Hpos Henc)
    as [enc ->].
  unfold withTransaction.
  destruct (transferHandler_statements env (req_sourceAccountId req)
              (req_destinationAccountId req) amount (req_currency req) (req_memo req)
              requester enc (log_statement BEGIN w)) as (more & Hm & _).
  destruct (transferHandler _ _ _ _ _ _ _ _ _) as [[e|r] w2]; cbn [snd] in *.
  - eexists. cbn [statements log_statement set_db]. rewrite Hm.
    cbn [statements log_statement]. rewrite <- !app_assoc. reflexivity.
  - eexists. cbn [statements log_statement]. rewrite Hm.
    cbn [statements log_statement]. rewrite <- !app_assoc. reflexivity.
Qed.

Lemma reaches_database_dec req requester rnd :
  reaches_database req requester rnd \/ ~ reaches_database req requester rnd.
Proof.
  unfold reaches_database.
  destruct (validation_errors req) eqn:Hv; [|right; intros (E & _); discriminate E].
  destruct (String.eqb (req_sourceAccountId req) (req_destinationAccountId req)) eqn:Hne.
  { apply String.eqb_eq in Hne. right. intros (_ & N & _). contradiction. }
  apply String.eqb_neq in Hne.
  destruct (req_amount req) as [amount|] eqn:Ha;
    [|right; intros (_ & _ & a & E & _); discriminate E].
  destruct (Z.ltb_spec 0 amount) as [Hpos|Hpos];
    [|right; intros (_ & _ & a & [= <-] & P & _); lia].
  destruct (returned (encryptPayload env
              (payloadForEncryption (req_sourceAccountId req)
                 (req_destinationAccountId req) amount (req_currency req)
                 (req_memo req) requester) rnd)) eqn:Henc.
  - left. split; [reflexivity|]. split; [exact Hne|]. exists amount. auto.
  - right. intros (_ & _ & a & [= <-] & _ & E). congruence.
Qed.

(** The handler when an account is missing. *)
Lemma transferHandler_not_found src dst amount currency memo requester enc w :
  accounts (db w) !! src = None \/ accounts (db w) !! dst = None ->
  transferHandler env src dst amount currency memo requester enc w
  = (inl (AppError "Account not found." 404),
     log_statement (SelectAccountForUpdate dst)
       (log_statement (SelectAccountForUpdate src) w)).
Proof.
  intros Hmiss. unfold transferHandler.
  unfold bind at 1. rewrite findAccountByIdForUpdate_run.
  unfold bind at 1. rewrite findAccountByIdForUpdate_run.
  cbn [db log_statement].
  destruct Hmiss as [-> | ->]; [reflexivity|].
  destruct (accounts (db w) !! src); reflexivity.
Qed.

(** The handler when a currency differs. *)
Lemma transferHandler_currency src dst amount currency memo requester enc w
    sourceAccount destinationAccount :
  accounts (db w) !! src = Some sourceAccount ->
  accounts (db w) !! dst = Some destinationAccount ->
  (au_role requester = client -> au_id requester = acc_user_id sourceAccount) ->
  acc_currency sourceAccount <> currency \/ acc_currency destinationAccount <> currency ->
  transferHandler env src dst amount currency memo requester enc w
  = (inl (AppError400 "Currency mismatch between accounts and payload."),
     log_statement (SelectAccountForUpdate dst)
       (log_statement (SelectAccountForUpdate src) w)).
Proof.
  intros Hs Hd Hown Hcur. unfold transferHandler.
  unfold bind at 1. rewrite findAccountByIdForUpdate_run.
  unfold bind at 1. rewrite findAccountByIdForUpdate_run.
  cbn [db log_statement]. rewrite Hs, Hd.
  assert (Hc : is_client (au_role requester)
               && negb (String.eqb (au_id requester) (acc_user_id sourceAccount))
               = false).
  { destruct (au_role requester) eqn:Hr; try reflexivity.
    rewrite Hown by reflexivity. rewrite String.eqb_refl. reflexivity. }
  rewrite Hc.
  assert (Hm : negb (String.eqb (acc_currency sourceAccount) currency)
               || negb (String.eqb (acc_currency destinationAccount) currency) = true).
  { apply orb_true_iff.
    destruct Hcur as [Hcur|Hcur]; [left|right];
      apply negb_true_iff, String.eqb_neq, Hcur. }
  rewrite Hm. reflexivity.
Qed.

End RejectedTransfers.

(** X7.  createTransfer sends a statement to the database exactly when the
    request has no validation error, names two different accounts, has a
    positive amount and its payload can be encrypted. In every other case
    it throws and leaves the whole world (rows, statement log, Redis
    state) as it was. *)
Theorem transfer_reaches_database_iff `{Platform} (env : Env) (req : TransferRequest)
    (requester : AuthenticatedUser) (rnd : Entropy) (w : World) :
  let run := createTransfer env req requester rnd w in
  (reaches_database env req requester rnd <-> statements (snd run) <> statements w)
  /\ (~ reaches_database env req requester rnd ->
      returned (fst run) = false /\ snd run = w).
Proof.
  cbv zeta. split; [|apply createTransfer_early]. split.
  - intros Hr. destruct (createTransfer_begins env req requester rnd w Hr) as [more ->].
    intros E. apply (f_equal (@length Sql)) in E. rewrite length_app in E.
    cbn [length] in E. lia.
  - intros Hne. destruct (reaches_database_dec env req requester rnd) as [Hr|Hn];
      [exact Hr|].
    destruct (createTransfer_early env req requester rnd w Hn) as [_ E].
    rewrite E in Hne. contradiction.
Qed.

(** X8.  For a transfer request that reaches the database: if the source
    or the destination account does not exist, createTransfer fails with
    AppError('Account not found.', 404); if both exist, the ownership
    check passes and the currency of either account differs from the
    requested one, it fails with AppError('Currency mismatch between
    accounts and payload.') (status 400). In both cases the statements
    sent are BEGIN, the two SELECT ... FOR UPDATE and ROLLBACK, and the
    database is unchanged. *)
Theorem transfer_rejects_unknown_account_and_currency `{Platform} (env : Env)
    (req : TransferRequest) (requester : AuthenticatedUser) (rnd : Entropy) (w : World) :
  reaches_database env req requester rnd ->
  let run := createTransfer env req requester rnd w in
  let locked_and_rolled_back :=
    statements (snd run)
    = statements w
      ++ [BEGIN;
          SelectAccountForUpdate (req_sourceAccountId req);
          SelectAccountForUpdate (req_destinationAccountId req);
          ROLLBACK]
    /\ db (snd run) = db w in
  (accounts (db w) !! req_sourceAccountId req = None
   \/ accounts (db w) !! req_destinationAccountId req = None ->
   fst run = inl (AppError "Account not found." 404) /\ locked_and_rolled_back)
  /\ (forall sourceAccount destinationAccount,
        accounts (db w) !! req_sourceAccountId req = Some sourceAccount ->
        accounts (db w) !! req_destinationAccountId req = Some destinationAccount ->
        (au_role requester = client -> au_id requester = acc_user_id sourceAccount) ->
        acc_currency sourceAccount <> req_currency req
        \/ acc_currency destinationAccount <> req_currency req ->
        fst run = inl (AppError400 "Currency mismatch between accounts and payload.")
        /\ locked_and_rolled_back).
Proof.
  intros (Hv & Hne & amount & Ha & Hpos & Henc). cbv zeta.
  destruct (createTransfer_reaches_checks env req requester rnd w amount Hv Hne Ha Hpos Henc)
    as [enc ->].
  unfold withTransaction. split.
  - intros Hmiss.
    rewrite (transferHandler_not_found env _ _ amount _ _ requester enc
               (log_statement BEGIN w) Hmiss).
    cbn. repeat split. rewrite <- !app_assoc. reflexivity.
  - intros sa da Hs Hd Hown Hcur.
    rewrite (transferHandler_currency env _ _ amount _ _ requester enc
               (log_statement BEGIN w) sa da) by assumption.
    cbn. repeat split. rewrite <- !app_assoc. reflexivity.
Qed.

(** ** Envelopes: decryption without Vault, and what is stored *)

(** The platform with another Vault endpoint, everything else alike. *)
Definition with_vault_http (http : string -> string -> option string -> HttpResponse)
    (P : Platform) : Platform := {|
  sha256_hex := sha256_hex (Platform := P);
  JSON_stringify := JSON_stringify (Platform := P);
  JSON_parse := JSON_parse (Platform := P);
  base64_encode := base64_encode (Platform := P);
  base64_decode := base64_decode (Platform := P);
  aes256_ctr := aes256_ctr (Platform := P);
  aes256_gcm_tag := aes256_gcm_tag (Platform := P);
  rsa_publicEncrypt := rsa_publicEncrypt (Platform := P);
  rsa_privateDecrypt := rsa_privateDecrypt (Platform := P);
  vault_http := http;
  redis_connect := redis_connect (Platform := P);
  redis_xAdd := redis_xAdd (Platform := P);
  uuid_generate_v4 := uuid_generate_v4 (Platform := P);
  NOW := NOW (Platform := P);
  toISOString := toISOString (Platform := P);
  forest_fit := forest_fit (Platform := P)
|}.

(** A Vault answer that carries no plaintext: the request fails, or the
    answer is not ok, or its body has no (or an empty) [data.plaintext]. *)
Definition no_plaintext (r : HttpResponse) : bool :=
  match r with
  | Ok (Some {| plaintext_field := Some plain |}) => negb (truthy plain)
  | _ => true
  end.

Section EnvelopeWithoutVault.

Context {P : Platform} {L : PlatformLaws} (env : Env).

Lemma encryptPayload_decrypts payload rnd envelope :
  matching_keys env -> vault_faithful env -> structurally_valid payload ->
  encryptPayload env payload rnd = inr envelope ->
  decryptPayload env envelope = inr payload.
Proof.
  intros Hkeys Hvault Hvalid Henc.
  destruct (encryptPayload_fields env payload rnd envelope Henc)
    as (wrapped & token & Hw & Ht & Hfields).
  assert (Hkey : unwrapped_key env envelope = inr (rnd_aesKey rnd)).
  { apply (unwrapped_key_of_envelope env rnd wrapped token envelope Hkeys Hvault Hw Ht);
      rewrite Hfields; reflexivity. }
  rewrite decryptPayload_unwrapped, Hkey, Hfields.
  cbn [iv ciphertext authTag]. rewrite !base64_decode_encode.
  unfold gcm_decrypt. rewrite bool_decide_eq_true_2 by reflexivity.
  rewrite aes256_ctr_involutive, string_of_list_byte_of_string, Hvalid. reflexivity.
Qed.

Lemma decryptWithVault_down down token :
  isVaultConfigured env = true ->
  (forall url method body, no_plaintext (down url method body) = true) ->
  exists e, decryptWithVault (H := with_vault_http down P) env token = inl e.
Proof.
  intros Hc Hdown. unfold decryptWithVault, vaultFetch.
  rewrite Hc. cbn [negb].
  match goal with
  | |- context [vault_http ?u ?m ?b] =>
      specialize (Hdown u m b); change (vault_http u m b) with (down u m b);
      destruct (down u m b) as [|status text|[[c [plain|]]|]]
  end; eauto.
  cbn in Hdown. apply negb_true_iff in Hdown. rewrite Hdown. eauto.
Qed.

End EnvelopeWithoutVault.

(** X9.  With Vault configured, for an envelope produced by encryptPayload
    (matching RSA keys, a payload that survives JSON): if at decryption
    time Vault is unreachable, answers with a non-ok status or answers
    without a plaintext, decryptPayload obtains no key from Vault, falls
    back to unwrapping encryptedKey with the RSA private key, and still
    returns the original payload. *)
Theorem decrypt_falls_back_to_rsa {P : Platform} {L : PlatformLaws} (env : Env)
    (payload : json) (rnd : Entropy) (envelope : EncryptedPayload)
    (down : string -> string -> option string -> HttpResponse) :
  matching_keys env ->
  structurally_valid payload ->
  isVaultConfigured env = true ->
  encryptPayload env payload rnd = inr envelope ->
  (forall url method body, no_plaintext (down url method body) = true) ->
  vault_key (H := with_vault_http down P) env envelope = None
  /\ decryptPayload (H := with_vault_http down P) env envelope = inr payload.
Proof.
  intros Hkeys Hvalid Hc Henc Hdown.
  destruct (encryptPayload_fields env payload rnd envelope Henc)
    as (wrapped & token & Hw & Ht & Hfields).
  assert (Hvk : vault_key (H := with_vault_http down P) env envelope = None).
  { unfold vault_key. rewrite Hfields. cbn [vaultCiphertext].
    destruct (truthy token); [|reflexivity].
    destruct (decryptWithVault_down env down token Hc Hdown) as [e ->]. reflexivity. }
  split; [exact Hvk|].
  rewrite (decryptPayload_unwrapped (H := with_vault_http down P)).
  unfold unwrapped_key. rewrite Hvk.
  change (rsa_privateDecrypt (Platform := with_vault_http down P))
    with (rsa_privateDecrypt (Platform := P)).
  change (base64_decode (Platform := with_vault_http down P))
    with (base64_decode (Platform := P)).
  change (pem_of (H := with_vault_http down P)) with (pem_of (H := P)).
  rewrite Hfields. cbn [encryptedKey iv ciphertext authTag].
  rewrite !base64_decode_encode, (Hkeys _ _ _ Hw).
  unfold gcm_decrypt.
  change (aes256_gcm_tag (Platform := with_vault_http down P))
    with (aes256_gcm_tag (Platform := P)).
  change (aes256_ctr (Platform := with_vault_http down P))
    with (aes256_ctr (Platform := P)).
  change (JSON_parse (Platform := with_vault_http down P))
    with (JSON_parse (Platform := P)).
  rewrite bool_decide_eq_true_2 by reflexivity.
  rewrite aes256_ctr_involutive, string_of_list_byte_of_string, Hvalid. reflexivity.
Qed.

(** X10.  For a transfer that returns (matching RSA keys, a faithful
    Vault, a payload that survives JSON): the encrypted_payload stored in
    the debit row and in the credit row is the JSON text of the returned
    envelope, and decryptPayload applied to that envelope returns the
    payload of the transfer: source, destination, amount, currency, memo
    and the requester as createdBy. *)
Theorem stored_payload_decrypts {P : Platform} {L : PlatformLaws} (env : Env)
    (req : TransferRequest) (requester : AuthenticatedUser) (rnd : Entropy) (w : World)
    (r : TransferResult) :
  matching_keys env ->
  vault_faithful env ->
  (forall amount,
      req_amount req = Some amount ->
      structurally_valid
        (payloadForEncryption (req_sourceAccountId req) (req_destinationAccountId req)
           amount (req_currency req) (req_memo req) requester)) ->
  fst (createTransfer env req requester rnd w) = inr r ->
  exists amount,
    req_amount req = Some amount
    /\ tx_encrypted_payload (tr_debit r)
       = JSON_stringify (json_of_envelope (tr_encryptedPayload r))
    /\ tx_encrypted_payload (tr_credit r)
       = JSON_stringify (json_of_envelope (tr_encryptedPayload r))
    /\ decryptPayload env (tr_encryptedPayload r)
       = inr (payloadForEncryption (req_sourceAccountId req) (req_destinationAccountId req)
                amount (req_currency req) (req_memo req) requester).
Proof.
  intros Hkeys Hvault Hvalid Hr.
  destruct (createTransfer env req requester rnd w) as [o w'] eqn:Hrun.
  cbn [fst] in Hr. subst o.
  apply createTransfer_committed in Hrun
    as (amount & enc & w2 & _ & _ & Ha & _ & Henc & Hh & ->).
  apply transferHandler_followup in Hh as (sa & _ & Hf).
  apply followup_run in Hf as (Hd & Hc & He & _).
  exists amount. rewrite Hd, Hc, He. split; [exact Ha|].
  split; [reflexivity|]. split; [reflexivity|].
  apply (encryptPayload_decrypts env _ rnd enc Hkeys Hvault (Hvalid _ Ha) Henc).
Qed.

(** ** Alerts: the row, the audit entry, the stream entry *)

Section AlertRows.

Context `{Platform} (env : Env).

Definition alert_row (accountId : option string) (alertType : string)
    (severity : RiskAlertSeverity) (details : json) (n : nat) : RiskAlertRecord :=
  {| ra_id := uuid_generate_v4 n; ra_account_id := accountId;
     ra_alert_type := alertType; ra_severity := severity;
     ra_details := details; triggered_at := NOW n |}.

(** The publish leaves the database alone. *)
Lemma publishToStream_keeps_db stream entry : keeps db (publishToStream env stream entry).
Proof. unfold publishToStream, getRedisClient. keeps_tac. Qed.

(** An alert that is raised without error is the row stored. *)
Lemma raiseRiskAlert_row accountId alertType severity details w alert w' :
  raiseRiskAlert env accountId alertType severity details w = (inr alert, w') ->
  alert = alert_row accountId alertType severity details (next_id (db w))
  /\ risk_alerts (db w') = alert :: risk_alerts (db w).
Proof.
  unfold raiseRiskAlert. intros Hrun.
  apply bind_returns in Hrun as (row & w1 & Hrow & Hrun).
  injection Hrow as <- <-.
  apply bind_returns in Hrun as ([] & w2 & Hau & Hrun).
  apply bind_returns in Hrun as ([] & w3 & Hpub & Hrun).
  injection Hrun as <- <-. split; [reflexivity|].
  rewrite (keeps_run db _ _ _ _ (keeps_when db _ _ (publishToStream_keeps_db _ _)) Hpub).
  rewrite (keeps_run (fun w => risk_alerts (db w)) _ _ _ _
             ltac:(apply (recordAuditEvent_frame risk_alerts); blind_tac) Hau).
  reflexivity.
Qed.

End AlertRows.

Section AmlAlert.

Context `{Platform} (env : Env).

Lemma not_test_true : nodeEnv env <> "test" -> not_test env = true.
Proof. intros Hn. unfold not_test. apply negb_true_iff, String.eqb_neq, Hn. Qed.

End AmlAlert.

(** X11.  When simulateAml returns: if the check failed and NODE_ENV is
    not 'test', exactly one alert row has been added, of type aml_flag and
    severity critical, with no account, whose details hold the userId, the
    transactionId and the reason, which is memo_pattern when the memo
    matches a high-risk pattern and high_value otherwise. If the check
    passed, or NODE_ENV is 'test', no alert row is added. *)
Theorem aml_flag_alert `{Platform} (env : Env) (userId transactionId : string)
    (amount : money) (currency : string) (memo : option string) (w : World)
    (r : ComplianceResult) :
  fst (simulateAml env userId transactionId amount currency memo w) = inr r ->
  let w' := snd (simulateAml env userId transactionId amount currency memo w) in
  (cr_status r = failed -> nodeEnv env <> "test" ->
   exists alert,
     risk_alerts (db w') = alert :: risk_alerts (db w)
     /\ ra_alert_type alert = "aml_flag"
     /\ ra_severity alert = critical
     /\ ra_account_id alert = None
     /\ json_get "userId" (ra_details alert) = Some (JStr userId)
     /\ json_get "transactionId" (ra_details alert) = Some (JStr transactionId)
     /\ (high_risk_memo memo ->
         json_get "reason" (ra_details alert) = Some (JStr "memo_pattern"))
     /\ (~ high_risk_memo memo ->
         json_get "reason" (ra_details alert) = Some (JStr "high_value")))
  /\ (cr_status r <> failed \/ nodeEnv env = "test" ->
      risk_alerts (db w') = risk_alerts (db w)).
Proof.
  intros Hr w'. subst w'.
  destruct (simulateAml env userId transactionId amount currency memo w) as [o w'] eqn:Hrun.
  cbn [fst snd] in *. subst o.
  pose proof (simulateAml_result env userId transactionId amount currency memo w r) as Hres.
  rewrite Hrun in Hres. specialize (Hres eq_refl).
  unfold simulateAml in Hrun.
  apply bind_returns in Hrun as (row & w1 & Hrow & Hrun).
  apply bind_returns in Hrun as ([] & w2 & Hal & Hrun).
  injection Hrun as _ <-.
  injection Hrow as _ <-.
  rewrite Hres. cbn [cr_status]. clear Hres r.
  destruct (memoMatch_of memo || (AML_THRESHOLD <=? amount)%Z) eqn:Hflag.
  - split.
    + intros _ Hnt. rewrite (not_test_true env Hnt) in Hal. cbn [when] in Hal.
      apply bind_returns in Hal as (alert & w3 & Hraise & Hal).
      injection Hal as <-.
      apply raiseRiskAlert_row in Hraise as (-> & ->).
      eexists. split; [reflexivity|]. cbn.
      repeat split.
      * intros Hm. apply memoMatch_of_iff in Hm. rewrite Hm. reflexivity.
      * intros Hm. destruct (memoMatch_of memo) eqn:E; [|reflexivity].
        exfalso. apply Hm, memoMatch_of_iff, E.
    + intros [Hs|Ht]; [congruence|].
      rewrite (not_test_false env Ht) in Hal. injection Hal as <-. reflexivity.
  - split; [discriminate|]. intros _. injection Hal as <-. reflexivity.
Qed.

(** ** Threshold alerts *)

Section Thresholds.

Context `{Platform} (env : Env).

Lemma Qgt_bool_iff (x y : Q) : Qgt_bool x y = true <-> (y < x)%Q.
Proof.
  unfold Qgt_bool. rewrite negb_true_iff, <- not_true_iff_false, Qle_bool_iff.
  split; [apply Qnot_le_lt | apply Qlt_not_le].
Qed.

(** One guarded alert: [if (c) { await raiseRiskAlert(...) }]. *)
Lemma guarded_alert (c : bool) accountId alertType severity details w w' :
  when c (raiseRiskAlert env accountId alertType severity details;;; ret tt) w
  = (inr tt, w') ->
  exists new,
    risk_alerts (db w') = new ++ risk_alerts (db w)
    /\ map ra_alert_type new = (if c then [alertType] else [])
    /\ Forall (fun alert => ra_account_id alert = accountId
                           /\ ra_alert_type alert = alertType
                           /\ ra_severity alert = severity) new.
Proof.
  destruct c; cbn [when]; intros Hrun.
  - apply bind_returns in Hrun as (alert & w1 & Hraise & Hrun).
    injection Hrun as <-. apply raiseRiskAlert_row in Hraise as (-> & ->).
    eexists [_]. split; [reflexivity|]. split; [reflexivity|].
    constructor; [|constructor]. repeat split.
  - injection Hrun as <-. exists []. split; [reflexivity|].
    split; [reflexivity | constructor].
Qed.

Lemma live_iff (b : bool) :
  b && not_test env = true <-> b = true /\ nodeEnv env <> "test".
Proof.
  rewrite andb_true_iff. unfold not_test.
  rewrite negb_true_iff, String.eqb_neq. reflexivity.
Qed.

End Thresholds.

(** X12.  When checkThresholds returns it has added at most three alert
    rows, all for the evaluated account: a leverage_threshold alert
    (severity high) exactly when leverage > 2, a loss_threshold alert
    (medium) exactly when lossRatio > 0.1, and an exposure_threshold alert
    (medium) exactly when exposure > balance * 0.5 and exposure > 0; and
    each of them only when NODE_ENV is not 'test'. *)
Theorem threshold_alerts `{Platform} (env : Env) (accountId : string)
    (metrics : RiskEvaluationResult) (accountBalance : Q) (w : World) :
  fst (checkThresholds env accountId metrics accountBalance w) = inr tt ->
  let w' := snd (checkThresholds env accountId metrics accountBalance w) in
  let live := nodeEnv env <> "test" in
  exists new,
    risk_alerts (db w') = new ++ risk_alerts (db w)
    /\ (length new <= 3)%nat
    /\ (forall alert, In alert new ->
          ra_account_id alert = Some accountId
          /\ (ra_alert_type alert = "leverage_threshold" /\ ra_severity alert = high
              \/ ra_alert_type alert = "loss_threshold" /\ ra_severity alert = medium
              \/ ra_alert_type alert = "exposure_threshold" /\ ra_severity alert = medium))
    /\ (In "leverage_threshold" (map ra_alert_type new)
        <-> (2 < leverage metrics)%Q /\ live)
    /\ (In "loss_threshold" (map ra_alert_type new)
        <-> (1 # 10 < lossRatio metrics)%Q /\ live)
    /\ (In "exposure_threshold" (map ra_alert_type new)
        <-> (accountBalance * (1 # 2) < exposure metrics)%Q
            /\ (0 < exposure metrics)%Q /\ live).
Proof.
  intros Hr w' live. subst w'.
  destruct (checkThresholds env accountId metrics accountBalance w) as [o w'] eqn:Hrun.
  cbn [fst snd] in *. subst o. unfold checkThresholds in Hrun.
  apply bind_returns in Hrun as ([] & w1 & H1 & Hrun).
  apply bind_returns in Hrun as ([] & w2 & H2 & H3).
  apply guarded_alert in H1 as (n1 & E1 & T1 & F1).
  apply guarded_alert in H2 as (n2 & E2 & T2 & F2).
  apply guarded_alert in H3 as (n3 & E3 & T3 & F3).
  exists (n3 ++ n2 ++ n1). rewrite E3, E2, E1, <- !app_assoc.
  split; [reflexivity|].
  split.
  { rewrite <- (length_map ra_alert_type), !map_app, T1, T2, T3, !length_app.
    repeat match goal with |- context [if ?c then _ else _] => destruct c end;
      cbn; lia. }
  split.
  { intros alert Hin. rewrite !in_app_iff in Hin. rewrite List.Forall_forall in F1, F2, F3.
    destruct Hin as [Hin|[Hin|Hin]];
      [ destruct (F3 _ Hin) as (? & ? & ?)
      | destruct (F2 _ Hin) as (? & ? & ?)
      | destruct (F1 _ Hin) as (? & ? & ?) ]; split; auto. }
  rewrite !map_app, T1, T2, T3.
  rewrite <- !Qgt_bool_iff.
  assert (L1 := live_iff env (Qgt_bool (leverage metrics) 2)).
  assert (L2 := live_iff env (Qgt_bool (lossRatio metrics) (1 # 10))).
  assert (L3 : Qgt_bool (exposure metrics) (accountBalance * (1 # 2))
               && Qgt_bool (exposure metrics) 0 && not_test env = true
               <-> Qgt_bool (exposure metrics) (accountBalance * (1 # 2)) = true
                   /\ Qgt_bool (exposure metrics) 0 = true /\ live).
  { rewrite live_iff, andb_true_iff. unfold live. tauto. }
  fold live in L1, L2.
  destruct (Qgt_bool (leverage metrics) 2 && not_test env);
    destruct (Qgt_bool (lossRatio metrics) (1 # 10) && not_test env);
    destruct (Qgt_bool (exposure metrics) (accountBalance * (1 # 2))
              && Qgt_bool (exposure metrics) 0 && not_test env);
    cbn [app In]; intuition (try discriminate; try congruence).
Qed.

(** ** Risk evaluations: what is stored *)

Section StoredEvaluation.

Context `{Platform} (env : Env).


End StoredEvaluation.


(** ** The anomaly detector: events and alerts *)

Section AnomalyEvents.

Context `{Platform} (env : Env).





End AnomalyEvents.


(** ** Risk metrics: signs and the two accumulators *)

Section MetricRelations.

Local Open Scope Q_scope.

Lemma Qsum_nonneg (l : list Q) : Forall (fun q => 0 <= q) l -> 0 <= Qsum l.
Proof.
  induction 1 as [|q l Hq _ IH]; cbn [Qsum fold_right]; [apply Qle_refl|].
  exact (Qplus_le_compat 0 q 0 _ Hq IH).
Qed.

Lemma absolute_amounts_nonneg (l : list TransactionRecord) :
  Forall (fun q => 0 <= q) (map absolute_amount l).
Proof.
  induction l as [|tx l IH]; cbn [map]; [constructor|].
  constructor; [apply Qabs_nonneg | exact IH].
Qed.


Lemma totalCredits_nonneg window : 0 <= totalCredits window.
Proof. apply Qsum_nonneg, absolute_amounts_nonneg. Qed.




End MetricRelations.


(** ** utils/redis: the client and the publish *)

(** X16.  With Redis streams enabled, no client yet and no earlier
    failure: if connecting to Redis fails, publishToStream still returns
    normally, publishes nothing, leaves the database alone, keeps no
    client and records the failure. From then on every publishToStream
    returns without publishing and without changing anything, even when
    Redis has become reachable again: the connection is never retried. *)
Theorem redis_failure_is_sticky `{Platform} (env : Env) (stream : string)
    (entry : list (string * string)) (w : World) :
  enableRedisStreams env = true ->
  redis_client w = false ->
  connectionFailed w = false ->
  redis_connect (redisUrl env) = false ->
  let run := publishToStream env stream entry w in
  fst run = inr tt
  /\ streams (snd run) = streams w
  /\ db (snd run) = db w
  /\ redis_client (snd run) = false
  /\ connectionFailed (snd run) = true
  /\ (forall (P' : Platform) stream' entry',
        publishToStream (H := P') env stream' entry' (snd run) = (inr tt, snd run)).
Proof.
  intros Hon Hc Hf Hconn run. subst run.
  unfold publishToStream, getRedisClient. rewrite Hon. cbn [negb].
  unfold bind, gets. cbn. rewrite Hc, Hf, Hconn. cbn.
  split; [reflexivity|]. split; [reflexivity|]. split; [reflexivity|].
  split; [reflexivity|]. split; [reflexivity|].
  intros P' stream' entry'. reflexivity.
Qed.

(** X17.  When raiseRiskAlert returns: if streams are enabled and a Redis
    client exists or can be connected, exactly one entry has been added to
    the stream risk-alerts, with the fields id, type, severity, accountId
    (the empty string when the alert has no account) and triggeredAt (ISO
    text) of the stored alert, and the client is kept; otherwise nothing
    is published. *)
Theorem alert_stream_entry `{Platform} (env : Env) (accountId : option string)
    (alertType : string) (severity : RiskAlertSeverity) (details : json) (w : World)
    (alert : RiskAlertRecord) :
  fst (raiseRiskAlert env accountId alertType severity details w) = inr alert ->
  let w' := snd (raiseRiskAlert env accountId alertType severity details w) in
  let available :=
    enableRedisStreams env
    && (redis_client w || negb (connectionFailed w) && redis_connect (redisUrl env)) in
  (available = true ->
   streams w'
   = ("risk-alerts",
      [("id", ra_id alert);
       ("type", alertType);
       ("severity", severity_name severity);
       ("accountId", default "" accountId);
       ("triggeredAt", toISOString (triggered_at alert))]) :: streams w
   /\ redis_client w' = true)
  /\ (available = false -> streams w' = streams w).
Proof.
  intros Hr w' available. subst w' available.
  destruct (raiseRiskAlert env accountId alertType severity details w) as [o w'] eqn:Hrun.
  cbn [fst snd] in *. subst o.
  pose proof (raiseRiskAlert_row env _ _ _ _ _ _ _ Hrun) as [Halert _].
  unfold raiseRiskAlert in Hrun.
  apply bind_returns in Hrun as (row & w1 & Hrow & Hrun).
  injection Hrow as <- <-.
  apply bind_returns in Hrun as ([] & w2 & Hau & Hrun).
  injection Hau as <-.
  apply bind_returns in Hrun as ([] & w3 & Hpub & Hrun).
  injection Hrun as _ <-. subst alert.
  cbn [ra_id ra_alert_type ra_severity ra_account_id triggered_at alert_row] in *.
  destruct (enableRedisStreams env) eqn:Hon; cbn [when andb] in *;
    [|injection Hpub as <-; split; [discriminate | reflexivity]].
  unfold publishToStream, getRedisClient in Hpub. rewrite Hon in Hpub.
  cbn [negb] in Hpub. unfold bind, gets in Hpub. cbn in Hpub.
  destruct (redis_client w) eqn:Hc; cbn in Hpub |- *.
  - unfold RISK_ALERT_STREAM in Hpub.
    destruct (redis_xAdd _ _); [|discriminate Hpub].
    injection Hpub as <-. cbn. rewrite Hc. split; [split; reflexivity | discriminate].
  - destruct (connectionFailed w) eqn:Hf; cbn in Hpub |- *.
    + injection Hpub as <-. split; [discriminate | reflexivity].
    + destruct (redis_connect (redisUrl env)) eqn:Hconn; cbn in Hpub |- *.
      * unfold RISK_ALERT_STREAM in Hpub.
        destruct (redis_xAdd _ _); [|discriminate Hpub].
        injection Hpub as <-. cbn. split; [split; reflexivity | discriminate].
      * injection Hpub as <-. split; [discriminate | reflexivity].
Qed.

(** ** The score at its ends *)

Section ScoreEnds.

Import IsolationForest.

Local Open Scope R_scope.

Lemma total_path_zero (ts : list IsolationTreeNode) (sample : list R) (acc : R) :
  0 <= acc ->
  (fold_left (fun acc tree => acc + pathLength tree sample) ts acc = 0
   <-> acc = 0 /\ Forall (fun t => pathLength t sample = 0) ts).
Proof.
  revert acc. induction ts as [|t ts IH]; intros acc Hacc; cbn [fold_left].
  - split; [intros ->; split; [reflexivity | constructor] | intros [-> _]; reflexivity].
  - pose proof (pathLength_nonneg t sample) as Ht.
    rewrite IH by lra. split.
    + intros [E F]. split; [lra|]. constructor; [lra | exact F].
    + intros [-> F]. inversion F; subst. split; [lra | assumption].
Qed.

Lemma Rpower_2_one (x : R) : Rpower 2 x = 1 <-> x = 0.
Proof.
  unfold Rpower. split.
  - intros E. rewrite <- exp_0 in E. apply exp_inv in E.
    pose proof ln_lt_2. nra.
  - intros ->. rewrite Rmult_0_l. apply exp_0.
Qed.

End ScoreEnds.

(** X18.  IsolationForest.score is 0 exactly when the forest has no tree
    (never fitted, or fitted on no data). For a forest with trees, the
    score is 1 exactly when every tree gives the sample the path length 0. *)
Theorem score_extremes (forest : IsolationForest.Forest) (sample : list R) :
  (IsolationForest.score forest sample = 0%R <-> IsolationForest.trees forest = [])
  /\ (IsolationForest.trees forest <> [] ->
      (IsolationForest.score forest sample = 1%R
       <-> Forall (fun tree => IsolationForest.pathLength tree sample = 0%R)
             (IsolationForest.trees forest))).
Proof.
  unfold IsolationForest.score.
  destruct (IsolationForest.trees forest) as [|t ts] eqn:Ht.
  - split; [split; reflexivity|]. intros N. contradiction.
  - set (total := fold_left _ _ _).
    assert (Hlen : (0 < INR (length (t :: ts)))%R) by (apply lt_0_INR; simpl; lia).
    assert (Hc : (0 < IsolationForest.or_one
                         (IsolationForest.averagePathLength
                            (IsolationForest.subsampleSize forest)))%R)
      by apply or_one_pos, averagePathLength_nonneg.
    split.
    + split; [|discriminate]. intros E. exfalso.
      unfold Rpower in E. pose proof (exp_pos (- (total / INR (length (t :: ts)))
        / IsolationForest.or_one (IsolationForest.averagePathLength
            (IsolationForest.subsampleSize forest)) * ln 2)) as Hp.
      lra.
    + intros _. rewrite Rpower_2_one.
      pose proof (total_path_zero (t :: ts) sample 0 (Rle_refl 0)) as Hz. fold total in Hz.
      split.
      * intros E. apply Hz.
        assert (E1 : (- (total / INR (length (t :: ts))) = 0)%R).
        { apply (Rmult_eq_reg_r (/ IsolationForest.or_one
                    (IsolationForest.averagePathLength
                       (IsolationForest.subsampleSize forest)))).
          - rewrite Rmult_0_l. exact E.
          - apply Rinv_neq_0_compat. lra. }
        assert (E2 : (total / INR (length (t :: ts)) = 0)%R) by lra.
        apply (Rmult_eq_reg_r (/ INR (length (t :: ts)))).
        -- rewrite Rmult_0_l. exact E2.
        -- apply Rinv_neq_0_compat. lra.
      * intros F. assert (E : total = 0%R) by (apply Hz; split; [reflexivity | exact F]).
        rewrite E. unfold Rdiv. rewrite Rmult_0_l, Ropp_0, Rmult_0_l.
        reflexivity.
Qed.

(** ** encryptPayload at its edges *)

(** Whether the Vault request got an ok response, and the ciphertext in
    it. *)
Definition is_ok (r : HttpResponse) : bool :=
  match r with
  | Ok _ => true
  | _ => false
  end.

Definition ciphertext_of (r : HttpResponse) : option string :=
  match r with
  | Ok (Some data) => ciphertext_field data
  | _ => None
  end.

(** X19.  encryptPayload fails with Error('RSA key pair is not
    configured.') when the RSA public or private key is empty. With Vault
    configured, encryptPayload fails whenever Vault is unreachable or
    answers not-ok (there is no fallback on encryption); and when Vault
    answers ok without a ciphertext, the vaultCiphertext of the envelope
    is the base64 text of the raw AES key. *)
Theorem encryptPayload_edges `{Platform} (env : Env) (payload : json) (rnd : Entropy) :
  (rsaPublicKey env = "" \/ rsaPrivateKey env = "" ->
   encryptPayload env payload rnd = inl (JsError "RSA key pair is not configured."))
  /\ (isVaultConfigured env = true ->
      (forall url method body, is_ok (vault_http url method body) = false) ->
      returned (encryptPayload env payload rnd) = false)
  /\ (isVaultConfigured env = true ->
      (forall url method body,
          is_ok (vault_http url method body) = true
          /\ ciphertext_of (vault_http url method body) = None) ->
      forall envelope,
        encryptPayload env payload rnd = inr envelope ->
        vaultCiphertext envelope = Some (base64_encode (rnd_aesKey rnd))).
Proof.
  split; [|split].
  - intros Hk. unfold encryptPayload, truthy.
    destruct Hk as [-> | ->]; cbn; [reflexivity|].
    rewrite orb_true_r. reflexivity.
  - intros Hc Hdown. unfold encryptPayload.
    destruct (negb _ || negb _); [reflexivity|].
    destruct (gcm_encrypt _ _ _) as [encrypted tag].
    destruct (rsa_publicEncrypt _ _ _); [|reflexivity].
    unfold encryptWithVault, vaultFetch. rewrite Hc. cbn [negb].
    match goal with
    | |- context [vault_http ?u ?m ?b] =>
        specialize (Hdown u m b); destruct (vault_http u m b)
    end; try reflexivity. discriminate Hdown.
  - intros Hc Hans envelope Henc.
    apply encryptPayload_fields in Henc as (wrapped & token & _ & Ht & ->).
    cbn [vaultCiphertext]. f_equal.
    unfold encryptWithVault, vaultFetch in Ht. rewrite Hc in Ht. cbn [negb] in Ht.
    match type of Ht with
    | context [vault_http ?u ?m ?b] =>
        destruct (Hans u m b) as [Hok Hct]; destruct (vault_http u m b) as [| |[[c p]|]]
    end; try discriminate Hok.
    + cbn in Hct. subst c. injection Ht as <-. reflexivity.
    + injection Ht as <-. reflexivity.
Qed.

(* ===================================================================== *)
(** ** The recent alerts *)

Section RecentAlerts.

Definition ranks_before (a b : RiskAlertRecord) : Prop := AlertOrder.leb a b = true.

Lemma ranks_before_iff a b :
  ranks_before a b <->
  (severity_rank (ra_severity b) < severity_rank (ra_severity a))%Z
  \/ (severity_rank (ra_severity a) = severity_rank (ra_severity b)
      /\ (triggered_at b <= triggered_at a)%Z).
Proof.
  unfold ranks_before, AlertOrder.leb.
  rewrite orb_true_iff, andb_true_iff, Z.ltb_lt, Z.eqb_eq, Z.leb_le. reflexivity.
Qed.

Lemma ranks_before_trans : Transitive ranks_before.
Proof. intros a b c. rewrite !ranks_before_iff. lia. Qed.

Lemma sorted_alerts (rows : list RiskAlertRecord) :
  StronglySorted ranks_before (AlertSort.sort rows).
Proof.
  apply Sorted_StronglySorted; [exact ranks_before_trans|].
  apply AlertSort.Sorted_sort.
Qed.

Lemma StronglySorted_take {A} (R : A -> A -> Prop) (n : nat) (l : list A) :
  StronglySorted R l -> StronglySorted R (take n l).
Proof.
  intros Hs. revert n. induction Hs as [|x l Hs IH Hx]; intros [|n]; cbn;
    try constructor.
  - apply IH.
  - rewrite List.Forall_forall in *. intros y Hy. apply Hx.
    apply list_elem_of_In. apply list_elem_of_In in Hy.
    apply (subseteq_take n l). exact Hy.
Qed.

Lemma StronglySorted_split {A} (R : A -> A -> Prop) (n : nat) (l : list A) :
  StronglySorted R l ->
  forall a b, In a (take n l) -> In b (drop n l) -> R a b.
Proof.
  intros Hs. revert n. induction Hs as [|x l Hs IH Hx]; intros n a b Ha Hb.
  - rewrite take_nil in Ha. destruct Ha.
  - destruct n as [|n]; [destruct Ha|]. cbn in Ha, Hb.
    destruct Ha as [<-|Ha]; [|apply (IH n); assumption].
    rewrite List.Forall_forall in Hx. apply Hx.
    apply list_elem_of_In. apply list_elem_of_In in Hb.
    apply (subseteq_drop n l). exact Hb.
Qed.

End RecentAlerts.

(** X20.  fetchRecentAlerts(limit), with limit 100 by default, changes
    nothing and returns at most limit alerts, ordered by severity
    (critical, high, medium, low) and then newest first. The returned rows
    together with the rows left out are the rows of risk_alerts; no row
    left out ranks before a returned one; rows are left out only when
    exactly limit rows are returned. *)
Theorem recent_alerts_are_the_most_severe (limit : option nat) (w : World) :
  let run := fetchRecentAlerts limit w in
  exists rows rest,
    run = (inr rows, w)
    /\ (length rows <= default 100 limit)%nat
    /\ StronglySorted ranks_before rows
    /\ Permutation (rows ++ rest) (risk_alerts (db w))
    /\ (forall a b, In a rows -> In b rest -> ranks_before a b)
    /\ (rest <> [] -> length rows = default 100%nat limit).
Proof.
  cbv zeta. unfold fetchRecentAlerts, listRecentAlerts, gets.
  set (n := default 100%nat limit). set (sorted := AlertSort.sort (risk_alerts (db w))).
  exists (take n sorted), (drop n sorted).
  split; [reflexivity|].
  split; [rewrite length_take; lia|].
  split; [apply StronglySorted_take, sorted_alerts|].
  split; [rewrite take_drop; symmetry; apply AlertSort.Permuted_sort|].
  split; [apply StronglySorted_split, sorted_alerts|].
  intros Hrest. rewrite length_take.
  destruct (Nat.le_gt_cases (length sorted) n) as [Hle|Hgt]; [|lia].
  exfalso. apply Hrest. apply drop_ge. exact Hle.
Qed.

(* ===================================================================== *)
(** ** Accounts: who may open and see which *)

Section AccountAccess.

Context `{Platform}.

Lemma account_rows_In (d : Db) (a : AccountRecord) :
  In a (account_rows d) <-> exists k, accounts d !! k = Some a.
Proof.
  unfold account_rows. rewrite in_map_iff. split.
  - intros ([k a'] & <- & Hin). exists k.
    apply list_elem_of_In, elem_of_map_to_list in Hin. exact Hin.
  - intros (k & Hk). exists (k, a). split; [reflexivity|].
    apply list_elem_of_In, elem_of_map_to_list. exact Hk.
Qed.

End AccountAccess.

(** X21.  getAccounts changes nothing and returns, to an admin or auditor,
    exactly the accounts of the table, and to a client exactly the
    accounts whose owner is that client. createAccountForUser called with
    a valid request by a requester who is not admin, for a non-empty
    userId other than the requester's, throws ForbiddenError('Insufficient
    privileges to create accounts for other users.') and changes nothing. *)
Theorem accounts_are_private `{Platform} (requester : AuthenticatedUser)
    (req : AccountRequest) (w : World) :
  (exists rows,
      getAccounts requester w = (inr rows, w)
      /\ forall account,
           In account rows
           <-> (exists k, accounts (db w) !! k = Some account)
               /\ (au_role requester = client ->
                   acc_user_id account = au_id requester))
  /\ (forall userId,
        ar_validation_errors req = [] ->
        au_role requester <> admin ->
        ar_userId req = Some userId ->
        userId <> "" ->
        userId <> au_id requester ->
        createAccountForUser req requester w
        = (inl (ForbiddenError
                  "Insufficient privileges to create accounts for other users."), w)).
Proof.
  split.
  - unfold getAccounts, listAccounts, findAccountsByUser, gets.
    destruct (au_role requester) eqn:Hr.
    + eexists. split; [reflexivity|]. intros account. rewrite account_rows_In.
      split; [intros Hk; split; [exact Hk | discriminate] | intros [Hk _]; exact Hk].
    + eexists. split; [reflexivity|]. intros account. rewrite account_rows_In.
      split; [intros Hk; split; [exact Hk | discriminate] | intros [Hk _]; exact Hk].
    + eexists. split; [reflexivity|]. intros account.
      rewrite filter_In, account_rows_In, String.eqb_eq. split.
      * intros [Hk Ho]. split; [exact Hk | intros _; exact Ho].
      * intros [Hk Ho]. split; [exact Hk | apply Ho; reflexivity].
  - intros userId Hv Hrole Hu Hne Hother. unfold createAccountForUser.
    rewrite Hv, Hu.
    assert (Ha : is_admin (au_role requester) = false)
      by (destruct (au_role requester); [contradiction | reflexivity | reflexivity]).
    rewrite Ha. cbn [negb andb].
    assert (Ht : truthy userId = true)
      by (unfold truthy; apply negb_true_iff, String.eqb_neq, Hne).
    assert (Ho : String.eqb (au_id requester) userId = false)
      by (apply String.eqb_neq; congruence).
    rewrite Ht, Ho. reflexivity.
Qed.

(** X22.  When createAccountForUser returns (the userId of the body, if
    given, not being the empty string), it has added exactly one account:
    its id is freshly generated, its balance is 0, its currency is the
    requested one, its owner is the userId of the body if given and the
    requester otherwise, and for a requester who is not admin the owner is
    the requester. Every other account is unchanged. *)
Theorem account_opens_empty `{Platform} (req : AccountRequest)
    (requester : AuthenticatedUser) (w : World) (account : AccountRecord) :
  fst (createAccountForUser req requester w) = inr account ->
  ar_userId req <> Some "" ->
  let w' := snd (createAccountForUser req requester w) in
  account = {| acc_id := uuid_generate_v4 (next_id (db w));
               acc_user_id := default (au_id requester) (ar_userId req);
               acc_currency := ar_currency req;
               acc_balance := 0%Z |}
  /\ (au_role requester <> admin -> acc_user_id account = au_id requester)
  /\ accounts (db w') = <[acc_id account := account]> (accounts (db w))
  /\ (forall k, k <> acc_id account -> accounts (db w') !! k = accounts (db w) !! k).
Proof.
  intros Hr Hne w'. subst w'. unfold createAccountForUser in *.
  destruct (ar_validation_errors req); [|discriminate Hr].
  destruct (negb (is_admin (au_role requester)) && _) eqn:Hguard; [discriminate Hr|].
  cbn in Hr. injection Hr as <-. cbn.
  split; [reflexivity|]. split.
  - intros Hrole.
    assert (Ha : is_admin (au_role requester) = false)
      by (destruct (au_role requester); [contradiction | reflexivity | reflexivity]).
    rewrite Ha in Hguard. cbn [negb andb] in Hguard.
    destruct (ar_userId req) as [userId|]; [|reflexivity]. cbn.
    apply andb_false_iff in Hguard as [Ht|Ho].
    + unfold truthy in Ht. apply negb_false_iff, String.eqb_eq in Ht. subst userId.
      contradiction.
    + apply negb_false_iff, String.eqb_eq in Ho. symmetry. exact Ho.
  - split; [reflexivity|]. intros k Hk. rewrite lookup_insert_ne by congruence.
    reflexivity.
Qed.

(* ===================================================================== *)
(** ** The transactions of an account *)

Lemma getAccountTransactions_run `{Platform} (user : AuthenticatedUser)
    (accountId : string) (w : World) :
  getAccountTransactions user accountId w
  = match accounts (db w) !! accountId with
    | Some account =>
        if negb (truthy (acc_user_id account)) then (inr AccountNotFound, w)
        else if is_client (au_role user)
                && negb (String.eqb (au_id user) (acc_user_id account))
        then (inl (ForbiddenError "You may only view transactions for your accounts."),
              w)
        else (inr (TransactionRows (transactions_of accountId 50 (db w))),
              log_statement (SelectTransactions accountId 50) w)
    | None => (inr AccountNotFound, w)
    end.
Proof.
  unfold getAccountTransactions, bind, gets.
  destruct (accounts (db w) !! accountId) as [account|]; cbn; [|reflexivity].
  destruct (truthy (acc_user_id account)); cbn; [|reflexivity].
  destruct (is_client (au_role user) && _); reflexivity.
Qed.

(** X23.  GET /transactions/account/:accountId sends transaction rows only
    for an account that exists and, to a client, only for an account that
    client owns; the rows are the newest transactions of that account, at
    most 50. A client asking for an account owned by someone else gets
    ForbiddenError('You may only view transactions for your accounts.'),
    an unknown account gets the 404 reply, and the database is never
    changed. *)
Theorem transactions_are_private `{Platform} (user : AuthenticatedUser)
    (accountId : string) (w : World) :
  let run := getAccountTransactions user accountId w in
  (forall rows,
      fst run = inr (TransactionRows rows) ->
      exists account,
        accounts (db w) !! accountId = Some account
        /\ (au_role user = client -> acc_user_id account = au_id user)
        /\ rows = transactions_of accountId 50 (db w)
        /\ (length rows <= 50)%nat
        /\ Forall (fun t => tx_account_id t = accountId) rows)
  /\ (forall account,
        accounts (db w) !! accountId = Some account ->
        acc_user_id account <> "" ->
        au_role user = client ->
        acc_user_id account <> au_id user ->
        run = (inl (ForbiddenError "You may only view transactions for your accounts."),
               w))
  /\ (accounts (db w) !! accountId = None -> run = (inr AccountNotFound, w))
  /\ db (snd run) = db w.
Proof.
  cbv zeta. rewrite getAccountTransactions_run.
  destruct (accounts (db w) !! accountId) as [account|] eqn:Ha.
  2:{ split; [intros rows E; discriminate E|]. split; [intros a E; discriminate E|].
      split; reflexivity. }
  destruct (truthy (acc_user_id account)) eqn:Ht; cbn [negb].
  2:{ split; [intros rows E; discriminate E|]. split.
      - intros a [= <-] Hne. unfold truthy in Ht.
        apply negb_false_iff, String.eqb_eq in Ht. contradiction.
      - split; [discriminate | reflexivity]. }
  destruct (is_client (au_role user)
            && negb (String.eqb (au_id user) (acc_user_id account))) eqn:Hg.
  - split; [intros rows E; discriminate E|]. split; [reflexivity|].
    split; [discriminate | reflexivity].
  - split.
    + intros rows E. cbn in E. injection E as <-. exists account.
      split; [reflexivity|]. split.
      * intros Hr. rewrite Hr in Hg. cbn in Hg.
        apply negb_false_iff, String.eqb_eq in Hg. symmetry. exact Hg.
      * split; [reflexivity|]. unfold transactions_of. split.
        -- rewrite length_take. lia.
        -- apply Forall_take. apply List.Forall_forall. intros t Hin.
           apply filter_In in Hin as [_ E]. apply String.eqb_eq, E.
    + split.
      * intros a [= <-] Hne Hr Ho. rewrite Hr in Hg. cbn in Hg.
        apply negb_false_iff, String.eqb_eq in Hg. congruence.
      * split; [discriminate | reflexivity].
Qed.

(* ===================================================================== *)
(** ** Sessions *)

Section Sessions.

Context `{AuthPlatform} (env : AuthEnv).

Lemma jwt_verify_payload token secret now payload :
  jwt_verify token secret now = Some payload ->
  exists exp, jwt_decode token secret = Some (payload, exp) /\ (now < exp)%Z.
Proof.
  unfold jwt_verify. destruct (jwt_decode token secret) as [[p exp]|]; [|discriminate].
  destruct (Z.ltb_spec now exp); [|discriminate]. intros [= <-]. eauto.
Qed.

(** The rows a refresh token can still be exchanged against. *)
Definition live_rows (payload : JwtPayload) (rows : list RefreshTokenRecord)
    : list RefreshTokenRecord :=
  List.filter (fun r => String.eqb (rt_user_id r) (sub payload)
                        && has_token_id (tokenId payload) r
                        && not_revoked r) rows.

Lemma live_rows_revoked payload p now rows :
  (forall r, String.eqb (rt_user_id r) (sub payload)
             && has_token_id (tokenId payload) r && not_revoked r = true ->
             p r = true) ->
  live_rows payload (map (fun r => if p r then revoke now r else r) rows) = [].
Proof.
  intros Hp. unfold live_rows. induction rows as [|r rows IH]; [reflexivity|].
  cbn [map List.filter]. rewrite IH.
  destruct (p r) eqn:Hr.
  - unfold not_revoked at 1. cbn [revoke rt_revoked_at]. rewrite andb_false_r. reflexivity.
  - destruct (String.eqb (rt_user_id r) (sub payload)
              && has_token_id (tokenId payload) r && not_revoked r) eqn:E; [|reflexivity].
    rewrite (Hp r E) in Hr. discriminate Hr.
Qed.

Lemma rotateRefreshToken_rows token draws now d tokens :
  fst (rotateRefreshToken env token draws now d) = Some tokens ->
  exists payload exp user,
    jwt_decode token (jwtRefreshSecret env) = Some (payload, exp)
    /\ (now < exp)%Z
    /\ live_rows payload (refresh_tokens d) <> []
    /\ findUserById (sub payload) d = Some user
    /\ snd (rotateRefreshToken env token draws now d)
       = snd (generateTokens env {| au_id := u_id user; au_role := u_role user |} draws now
                (revoke_where (has_token_id (tokenId payload)) now d)).
Proof.
  unfold rotateRefreshToken.
  destruct (jwt_verify token (jwtRefreshSecret env) now) as [payload|] eqn:Hv;
    [|discriminate].
  apply jwt_verify_payload in Hv as (exp & Hd & Hlt).
  fold (live_rows payload (refresh_tokens d)).
  destruct (live_rows payload (refresh_tokens d)) as [|r rows] eqn:Hl; [discriminate|].
  change (findUserById (sub payload) (revoke_where _ now d))
    with (findUserById (sub payload) d).
  destruct (findUserById (sub payload) d) as [user|] eqn:Hu; [|discriminate].
  intros _. exists payload, exp, user.
  split; [exact Hd|]. split; [exact Hlt|]. split; [rewrite Hl; discriminate|].
  split; [exact Hu | reflexivity].
Qed.

End Sessions.

(** X24.  A refresh token can be exchanged once: after rotateRefreshToken
    has returned new tokens for a token (the new token id differing from
    the old one), every later rotateRefreshToken with that same token
    returns null and changes nothing, and refreshUserToken throws
    UnauthorizedError('Invalid refresh token.'). *)
Theorem refresh_token_single_use `{AuthPlatform} (env : AuthEnv) (token : string)
    (draws : Draws) (now : Z) (d : AuthDb) (tokens : TokenPair) :
  fst (rotateRefreshToken env token draws now d) = Some tokens ->
  (forall payload exp,
      jwt_decode token (jwtRefreshSecret env) = Some (payload, exp) ->
      tokenId payload <> Some (draw_tokenId draws)) ->
  forall draws' now',
    let d1 := snd (rotateRefreshToken env token draws now d) in
    rotateRefreshToken env token draws' now' d1 = (None, d1)
    /\ refreshUserToken env token draws' now' d1
       = (inl (UnauthorizedError (Some "Invalid refresh token.")), d1).
Proof.
  intros Hrot Hfresh draws' now' d1.
  assert (Hnone : rotateRefreshToken env token draws' now' d1 = (None, d1)).
  { subst d1.
    destruct (rotateRefreshToken_rows env token draws now d tokens Hrot)
      as (payload & exp & user & Hd & _ & _ & _ & ->).
    specialize (Hfresh payload exp Hd).
    unfold rotateRefreshToken at 1, jwt_verify. rewrite Hd.
    destruct (now' <? exp)%Z; [|reflexivity].
    cbn [generateTokens snd refresh_tokens revoke_where].
    match goal with
    | |- match ?l with _ => _ end = _ => replace l with (@nil RefreshTokenRecord)
    end; [reflexivity|].
    cbn [List.filter rt_user_id rt_token_id au_id].
    match goal with
    | |- _ = (if ?c then _ else _) =>
        assert (Hc : c = false); [|rewrite Hc]
    end.
    { destruct (tokenId payload) as [t|] eqn:Ht; cbn [has_token_id rt_token_id].
      - assert (Hne : String.eqb (draw_tokenId draws) t = false).
        { apply String.eqb_neq. intros E. apply Hfresh. rewrite E. reflexivity. }
        rewrite Hne, andb_false_r. reflexivity.
      - rewrite andb_false_r. reflexivity. }
    symmetry. apply (live_rows_revoked payload).
    intros r E. apply andb_true_iff in E as [E _].
    apply andb_true_iff in E as [_ E]. exact E. }
  split; [exact Hnone|]. unfold refreshUserToken. rewrite Hnone. reflexivity.
Qed.

(** X25.  logoutUser(userId) leaves the users table and the refresh token
    rows of other users as they were. After it, no refresh token whose
    subject is that user can be exchanged: rotateRefreshToken returns null
    and changes nothing, at any later time. *)
Theorem logout_revokes_refresh_tokens `{AuthPlatform} (env : AuthEnv) (userId : string)
    (now : Z) (d : AuthDb) :
  let d1 := logoutUser userId now d in
  users d1 = users d
  /\ (forall token draws now',
        (forall payload exp,
            jwt_decode token (jwtRefreshSecret env) = Some (payload, exp) ->
            sub payload = userId) ->
        rotateRefreshToken env token draws now' d1 = (None, d1))
  /\ (forall i r,
        refresh_tokens d !! i = Some r ->
        rt_user_id r <> userId ->
        refresh_tokens d1 !! i = Some r).
Proof.
  cbv zeta. split; [reflexivity|]. split.
  - intros token draws now' Hsub.
    unfold rotateRefreshToken, jwt_verify.
    destruct (jwt_decode token (jwtRefreshSecret env)) as [[payload exp]|] eqn:Hd;
      [|reflexivity].
    destruct (now' <? exp)%Z; [|reflexivity].
    specialize (Hsub payload exp eq_refl).
    match goal with
    | |- match ?l with _ => _ end = _ => replace l with (@nil RefreshTokenRecord)
    end; [reflexivity|].
    symmetry. apply (live_rows_revoked payload).
    intros r E. apply andb_true_iff in E as [E Hn].
    apply andb_true_iff in E as [E _]. rewrite <- Hsub, E, Hn. reflexivity.
  - intros i r Hi Hne. unfold logoutUser, revokeTokensForUser, revoke_where.
    cbn [refresh_tokens]. rewrite list_lookup_fmap, Hi. cbn.
    apply String.eqb_neq in Hne. rewrite Hne. reflexivity.
Qed.

(** X26.  When registerUser returns for an email (password hashing being
    such that a password verifies against its own hash), the email was not
    registered before and the user is now stored with the hashed password
    and the given role. Afterwards loginUser with that email and password
    returns tokens, while loginUser with a password that does not verify,
    or with another email that is not registered, throws the same
    UnauthorizedError('Invalid credentials.') and changes nothing. *)
Theorem register_then_login `{AuthPlatform} (env : AuthEnv) (email password : string)
    (role : UserRole) (draws : Draws) (now : Z) (d : AuthDb) (tokens : TokenPair) :
  fst (registerUser env email password role draws now d) = inr tokens ->
  (forall salt, verifyPassword password (hashPassword password salt) = true) ->
  let d1 := snd (registerUser env email password role draws now d) in
  findUserByEmail email d = None
  /\ findUserByEmail email d1
     = Some {| u_id := draw_userId draws; u_email := email;
               u_password_hash := hashPassword password (draw_salt draws);
               u_role := role |}
  /\ (forall draws' now',
        exists tokens', fst (loginUser env email password draws' now' d1) = inr tokens')
  /\ (forall wrong draws' now',
        verifyPassword wrong (hashPassword password (draw_salt draws)) = false ->
        loginUser env email wrong draws' now' d1
        = (inl (UnauthorizedError (Some "Invalid credentials.")), d1))
  /\ (forall other anything draws' now',
        other <> email ->
        findUserByEmail other d = None ->
        loginUser env other anything draws' now' d1
        = (inl (UnauthorizedError (Some "Invalid credentials.")), d1)).
Proof.
  intros Hreg Hverify d1. subst d1. unfold registerUser in *.
  destruct (findUserByEmail email d) as [user|] eqn:Hu; [discriminate Hreg|].
  cbn [createUser generateTokens snd]. split; [reflexivity|].
  assert (Hfind : forall rows,
            findUserByEmail email
              {| users := {| u_id := draw_userId draws; u_email := email;
                             u_password_hash := hashPassword password (draw_salt draws);
                             u_role := role |} :: users d;
                 refresh_tokens := rows |}
            = Some {| u_id := draw_userId draws; u_email := email;
                      u_password_hash := hashPassword password (draw_salt draws);
                      u_role := role |}).
  { intros rows. unfold findUserByEmail. cbn. rewrite String.eqb_refl. reflexivity. }
  split; [apply Hfind|]. split; [|split].
  - intros draws' now'. unfold loginUser. rewrite Hfind. cbn [u_password_hash].
    rewrite Hverify. cbn. eexists. reflexivity.
  - intros wrong draws' now' Hw. unfold loginUser. rewrite Hfind. cbn [u_password_hash].
    rewrite Hw. reflexivity.
  - intros other anything draws' now' Hne Hnone. unfold loginUser.
    assert (Hf : forall rows,
              findUserByEmail other
                {| users := {| u_id := draw_userId draws; u_email := email;
                               u_password_hash := hashPassword password (draw_salt draws);
                               u_role := role |} :: users d;
                   refresh_tokens := rows |} = None).
    { intros rows. unfold findUserByEmail in *. cbn.
      assert (E : String.eqb email other = false) by (apply String.eqb_neq; congruence).
      rewrite E. exact Hnone. }
    rewrite Hf. reflexivity.
Qed.

(** X27.  POST /auth/register never creates a user whose role is not
    client: the only user it can add has the requested email, the hash of
    the requested password and the role client. It keeps the emails of the
    users table distinct, fails when the email is already registered, and
    changes nothing whenever it fails. *)
Theorem self_registration `{AuthPlatform} (env : AuthEnv) (validation_errors : list string)
    (email password : string) (role : option UserRole) (draws : Draws) (now : Z)
    (d : AuthDb) :
  let run := registerRoute env validation_errors email password role draws now d in
  (List.NoDup (map u_email (users d)) -> List.NoDup (map u_email (users (snd run))))
  /\ (forall user,
        In user (users (snd run)) ->
        In user (users d)
        \/ user = {| u_id := draw_userId draws; u_email := email;
                     u_password_hash := hashPassword password (draw_salt draws);
                     u_role := client |})
  /\ (forall user,
        findUserByEmail email d = Some user ->
        exists e, fst run = inl e)
  /\ (forall e, fst run = inl e -> snd run = d).
Proof.
  cbv zeta. unfold registerRoute.
  destruct validation_errors as [|v vs].
  2:{ cbn. repeat split; auto; eauto. }
  destruct (default client role);
    [cbn; repeat split; auto; eauto | cbn; repeat split; auto; eauto |].
  unfold registerUser.
  destruct (findUserByEmail email d) as [existing|] eqn:Hu.
  { cbn. repeat split; auto; eauto. }
  cbn [createUser generateTokens fst snd users]. split; [|split; [|split]].
  - intros Hnd. cbn [map u_email]. constructor; [|exact Hnd].
    intros Hin. apply in_map_iff in Hin as (u & He & Hin).
    unfold findUserByEmail in Hu.
    apply (find_none _ _ Hu) in Hin. rewrite He, String.eqb_refl in Hin.
    discriminate Hin.
  - intros user [<-|Hin]; [right; reflexivity | left; exact Hin].
  - intros user Hf. discriminate Hf.
  - intros e He. discriminate He.
Qed.

(* ===================================================================== *)
(** ** The authorization header *)

Fixpoint has_space (s : string) : bool :=
  match s with
  | EmptyString => false
  | String c s' => Ascii.eqb c " " || has_space s'
  end.

Section Header.

Lemma append_empty (s : string) : s +:+ "" = s.
Proof.
  induction s as [|c s IH]; [reflexivity|].
  change (String c s +:+ "") with (String c (s +:+ "")). rewrite IH. reflexivity.
Qed.

Lemma split_spaces_cons (s : string) : exists piece pieces, split_spaces s = piece :: pieces.
Proof.
  induction s as [|c s (piece & pieces & IH)]; cbn [split_spaces]; [eauto|].
  destruct (Ascii.eqb c " "); [eauto|]. rewrite IH. eauto.
Qed.

Lemma split_spaces_word (word rest : string) :
  has_space word = false ->
  split_spaces (word +:+ String " " rest) = word :: split_spaces rest.
Proof.
  induction word as [|c word IH]; cbn [has_space]; intros Hw.
  - reflexivity.
  - apply orb_false_iff in Hw as [Hc Hw].
    change (String c word +:+ String " " rest) with (String c (word +:+ String " " rest)).
    cbn [split_spaces]. rewrite Hc, (IH Hw). reflexivity.
Qed.

Lemma split_spaces_last (word : string) :
  has_space word = false -> split_spaces word = [word].
Proof.
  induction word as [|c word IH]; cbn [has_space]; intros Hw; [reflexivity|].
  apply orb_false_iff in Hw as [Hc Hw]. cbn [split_spaces]. rewrite Hc, (IH Hw).
  reflexivity.
Qed.

End Header.

(** X28.  requireAuth takes the second space-separated word of the
    Authorization header as the token, whatever the first word is: the
    request gets the id and role of the token payload when the token
    verifies under the access secret, and is rejected with
    UnauthorizedError('Invalid or expired token.') otherwise. A non-empty
    header without a space is rejected with 'Bearer token missing.', a
    missing or empty header with 'Authorization header missing.'. *)
Theorem bearer_token_is_second_word `{AuthPlatform} (env : AuthEnv) (now : Z) :
  (forall scheme token tail,
      has_space scheme = false ->
      has_space token = false ->
      token <> "" ->
      tail = "" \/ (exists more, tail = String " " more) ->
      requireAuth env (Some (scheme +:+ String " " (token +:+ tail))) now
      = match jwt_verify token (jwtAccessSecret env) now with
        | Some payload => inr {| au_id := sub payload; au_role := role payload |}
        | None => inl (UnauthorizedError (Some "Invalid or expired token."))
        end)
  /\ (forall header,
        has_space header = false ->
        header <> "" ->
        requireAuth env (Some header) now
        = inl (UnauthorizedError (Some "Bearer token missing.")))
  /\ (forall header,
        header = None \/ header = Some "" ->
        requireAuth env header now
        = inl (UnauthorizedError (Some "Authorization header missing."))).
Proof.
  split; [|split].
  - intros scheme token tail Hs Ht Hne Htail. unfold requireAuth.
    assert (Htr : truthy (scheme +:+ String " " (token +:+ tail)) = true).
    { destruct scheme; reflexivity. }
    rewrite Htr. cbn [negb]. rewrite (split_spaces_word scheme _ Hs).
    assert (Hsp : exists pieces, split_spaces (token +:+ tail) = token :: pieces).
    { destruct Htail as [-> | (more & ->)].
      - rewrite append_empty. rewrite (split_spaces_last token Ht). eauto.
      - rewrite (split_spaces_word token more Ht). eauto. }
    destruct Hsp as (pieces & ->).
    assert (Htt : truthy token = true).
    { unfold truthy. apply negb_true_iff, String.eqb_neq, Hne. }
    rewrite Htt. reflexivity.
  - intros header Hs Hne. unfold requireAuth.
    assert (Htr : truthy header = true).
    { unfold truthy. apply negb_true_iff, String.eqb_neq, Hne. }
    rewrite Htr, (split_spaces_last header Hs). reflexivity.
  - intros header [-> | ->]; reflexivity.
Qed.

(* ===================================================================== *)
(** ** The trees of a forest *)

Section TreeShape.

Import IsolationForest ForestBuilding.

Definition size_of (t : IsolationTreeNode) : nat :=
  match t with
  | Node size _ _ _ _ _ => size
  end.

Fixpoint height (t : IsolationTreeNode) : nat :=
  match t with
  | Node _ _ _ (Some l) (Some r) false => S (Nat.max (height l) (height r))
  | _ => 0
  end.

(** A leaf, or a node with its attribute, its value and both branches, none
    larger than the node. *)
Inductive well_formed : IsolationTreeNode -> Prop :=
| well_formed_leaf size : well_formed (Node size None None None None true)
| well_formed_node size attribute value l r :
    well_formed l -> well_formed r ->
    (size_of l <= size)%nat -> (size_of r <= size)%nat ->
    (1 <= size_of l)%nat -> (1 <= size_of r)%nat ->
    well_formed (Node size (Some attribute) (Some value) (Some l) (Some r) false).

Variable rand : nat -> R.

Lemma randomBetween_drawn (min max : R) (drawn : nat) :
  (drawn <= snd (randomBetween rand min max drawn) <= S drawn)%nat.
Proof. unfold randomBetween. destruct (Req_dec_T min max); cbn; lia. Qed.

Lemma buildTree_shape (levels : nat) (data : list (list R)) (drawn : nat) :
  let t := fst (buildTree rand levels data drawn) in
  well_formed t
  /\ size_of t = length data
  /\ (height t <= levels)%nat
  /\ (drawn <= snd (buildTree rand levels data drawn))%nat.
Proof.
  revert data drawn. induction levels as [|levels IH]; intros data drawn; cbn [buildTree].
  - cbn. repeat split; [constructor | lia | lia].
  - destruct (length data <=? 1)%nat eqn:Hlen;
      [cbn; repeat split; [constructor | lia | lia]|].
    apply Nat.leb_gt in Hlen.
    destruct (length (hd [] data) =? 0)%nat;
      [cbn; repeat split; [constructor | lia | lia]|].
    pose proof (randomBetween_drawn 0 (INR (length (hd [] data))) drawn) as Hd1.
    destruct (randomBetween rand 0 (INR (length (hd [] data))) drawn) as [r drawn1].
    cbn [snd] in Hd1.
    set (attribute := Nat.min _ _).
    set (values := map _ data).
    destruct (Req_dec_T (minimum values) (maximum values));
      [cbn; repeat split; [constructor | lia | lia]|].
    pose proof (randomBetween_drawn (minimum values) (maximum values) drawn1) as Hd2.
    destruct (randomBetween rand (minimum values) (maximum values) drawn1)
      as [splitValue drawn2].
    cbn [snd] in Hd2.
    set (left := List.filter (goes_left attribute splitValue) data).
    set (right := List.filter (fun row => negb (goes_left attribute splitValue row)) data).
    assert (Hl : (length left <= length data)%nat) by apply filter_length_le.
    assert (Hr : (length right <= length data)%nat) by apply filter_length_le.
    pose proof (IH (if (0 <? length left)%nat then left else data) drawn2)
      as (Wl & Sl & Hhl & Dl).
    destruct (buildTree rand levels (if (0 <? length left)%nat then left else data) drawn2)
      as [l drawn3].
    pose proof (IH (if (0 <? length right)%nat then right else data) drawn3)
      as (Wr & Sr & Hhr & Dr).
    destruct (buildTree rand levels (if (0 <? length right)%nat then right else data) drawn3)
      as [r' drawn4].
    cbn [fst snd] in *.
    assert (Sl' : (1 <= size_of l <= length data)%nat).
    { rewrite Sl. destruct (Nat.ltb_spec 0 (length left)); lia. }
    assert (Sr' : (1 <= size_of r' <= length data)%nat).
    { rewrite Sr. destruct (Nat.ltb_spec 0 (length right)); lia. }
    split; [constructor; (assumption || lia)|].
    split; [reflexivity|]. split; [cbn [height]; lia | lia].
Qed.

End TreeShape.

Section PathBound.

Import IsolationForest ForestBuilding.

Local Open Scope R_scope.

Lemma ln_le_minus_1 (y : R) : 0 < y -> ln y <= y - 1.
Proof.
  intros Hy. pose proof (exp_ineq1_le (ln y)) as He. rewrite exp_ln in He by exact Hy. lra.
Qed.

Lemma averagePathLength_step (n : nat) :
  averagePathLength n <= averagePathLength (S n).
Proof.
  destruct (Nat.le_gt_cases n 1) as [Hle|Hgt].
  - replace (averagePathLength n) with 0.
    + apply averagePathLength_nonneg.
    + unfold averagePathLength. apply Nat.leb_le in Hle. rewrite Hle. reflexivity.
  - unfold averagePathLength.
    destruct (Nat.leb_spec n 1) as [|_]; [lia|].
    destruct (Nat.leb_spec (S n) 1) as [|_]; [lia|].
    rewrite S_INR.
    assert (Hn : 2 <= INR n).
    { replace 2 with (INR 2) by (simpl; lra). apply le_INR. lia. }
    replace (INR n + 1 - 1) with (INR n) by lra.
    assert (Hln : ln (INR n - 1) - ln (INR n) <= - / INR n).
    { assert (Hq : 0 < (INR n - 1) * / INR n).
      { apply Rmult_lt_0_compat; [lra | apply Rinv_0_lt_compat; lra]. }
      pose proof (ln_le_minus_1 _ Hq) as Hl.
      rewrite ln_mult in Hl by (try apply Rinv_0_lt_compat; lra).
      rewrite ln_Rinv in Hl by lra.
      replace ((INR n - 1) * / INR n - 1) with (- / INR n) in Hl
        by (field; lra).
      lra. }
    assert (Hfrac : 2 * INR n / (INR n + 1) - 2 * (INR n - 1) / INR n <= 2 * / INR n).
    { replace (2 * INR n / (INR n + 1) - 2 * (INR n - 1) / INR n)
        with (2 * / INR n * / (INR n + 1)) by (field; lra).
      rewrite <- (Rmult_1_r (2 * / INR n)) at 2.
      apply Rmult_le_compat_l.
      - apply Rmult_le_pos; [lra | left; apply Rinv_0_lt_compat; lra].
      - rewrite <- Rinv_1. apply Rinv_le_contravar; lra. }
    lra.
Qed.

Lemma averagePathLength_monotone (n m : nat) :
  (n <= m)%nat -> averagePathLength n <= averagePathLength m.
Proof.
  induction 1 as [|m _ IH]; [lra|].
  pose proof (averagePathLength_step m). lra.
Qed.

Lemma pathLength_bound (t : IsolationTreeNode) (n : nat) (sample : list R) :
  well_formed t -> (size_of t <= n)%nat ->
  pathLength t sample <= INR (height t) + averagePathLength n.
Proof.
  intros Hw. revert n. induction Hw as [size|size attribute value l r Wl IHl Wr IHr Sl Sr _ _];
    intros n Hn; cbn [size_of] in Hn.
  - cbn. pose proof (averagePathLength_monotone size n Hn). lra.
  - cbn [pathLength height]. rewrite S_INR.
    pose proof (Nat.le_max_l (height l) (height r)) as Hml.
    pose proof (Nat.le_max_r (height l) (height r)) as Hmr.
    apply le_INR in Hml, Hmr.
    destruct (below sample attribute value).
    + specialize (IHl n ltac:(lia)). lra.
    + specialize (IHr n ltac:(lia)). lra.
Qed.

End PathBound.

(** X29.  buildTree returns a well-formed tree: every node is a leaf or
    has a split attribute, a split value and two children, no child being
    empty or larger than its parent. The size of the root is the number of
    rows, the height is at most heightLimit - currentDepth, and at most
    one row gives a single leaf. Hence pathLength on the tree lies between
    0 and that height bound plus averagePathLength(number of rows). *)
Theorem built_tree_shape (rand : nat -> R) (levels : nat) (data : list (list R))
    (drawn : nat) :
  let tree := fst (ForestBuilding.buildTree rand levels data drawn) in
  well_formed tree
  /\ size_of tree = length data
  /\ (height tree <= levels)%nat
  /\ ((length data <= 1)%nat -> height tree = 0%nat)
  /\ (forall sample,
        (0 <= IsolationForest.pathLength tree sample
         <= INR levels + IsolationForest.averagePathLength (length data))%R).
Proof.
  intros tree. destruct (buildTree_shape rand levels data drawn) as (Hw & Hs & Hh & _).
  fold tree in Hw, Hs, Hh.
  split; [exact Hw|]. split; [exact Hs|]. split; [exact Hh|]. split.
  - intros Hlen. subst tree. destruct levels as [|levels]; [reflexivity|].
    cbn [ForestBuilding.buildTree]. apply Nat.leb_le in Hlen. rewrite Hlen. reflexivity.
  - intros sample. split; [apply pathLength_nonneg|].
    pose proof (pathLength_bound tree (length data) sample Hw ltac:(lia)) as Hb.
    apply le_INR in Hh. lra.
Qed.

Section Sampling.

Import ForestBuilding.

Variable rand : nat -> R.

Lemma sample_loop_length tries data size result used drawn sample drawn' :
  sample_loop rand tries data size result used drawn = Some (sample, drawn') ->
  (length result <= size)%nat ->
  length sample = size.
Proof.
  revert result used drawn.
  induction tries as [|tries IH]; intros result used drawn; cbn [sample_loop].
  - destruct (Nat.leb_spec size (length result)); [|discriminate].
    intros [= <- _] Hle. lia.
  - destruct (Nat.leb_spec size (length result)).
    + intros [= <- _] Hle. lia.
    + destruct (randomBetween rand 0 (INR (length data)) drawn) as [ratio drawn1].
      destruct (length data <=? _)%nat; [apply IH|].
      destruct (existsb _ used); [apply IH|].
      intros Hrun _. apply (IH _ _ _ Hrun). rewrite length_app. cbn. lia.
Qed.

Lemma randomSample_length tries data size drawn sample drawn' :
  randomSample rand tries data size drawn = Some (sample, drawn') ->
  length sample = Nat.min (length data) size.
Proof.
  unfold randomSample. destruct (Nat.leb_spec (length data) size) as [Hle|Hgt].
  - intros [= <- _]. lia.
  - intros Hrun. apply sample_loop_length in Hrun; [lia | cbn; lia].
Qed.

Lemma build_trees_shape tries count subsampleSize data drawn trees drawn' :
  build_trees rand tries count subsampleSize data drawn = Some (trees, drawn') ->
  length trees = count
  /\ Forall (fun tree =>
               well_formed tree
               /\ size_of tree = Nat.min (length data) subsampleSize
               /\ (height tree <= heightLimit subsampleSize)%nat) trees.
Proof.
  revert drawn trees drawn'. induction count as [|count IH]; intros drawn trees drawn';
    cbn [build_trees].
  - intros [= <- _]. split; [reflexivity | constructor].
  - destruct (randomSample rand tries data subsampleSize drawn) as [[sample drawn1]|] eqn:Hs;
      [|discriminate].
    apply randomSample_length in Hs.
    pose proof (buildTree_shape rand (heightLimit subsampleSize) sample drawn1)
      as (Hw & Hsz & Hh & _).
    destruct (buildTree rand (heightLimit subsampleSize) sample drawn1) as [tree drawn2].
    cbn [fst] in *.
    destruct (build_trees rand tries count subsampleSize data drawn2)
      as [[rest drawn3]|] eqn:Hb; [|discriminate].
    intros [= <- _]. destruct (IH _ _ _ Hb) as [Hlen Hall].
    split; [cbn; lia|]. constructor; [|exact Hall].
    rewrite Hsz, Hs. repeat split; assumption.
Qed.

(** No sampling is needed when the rows are no more than the sub-sample
    size: the trees are built whatever the bound on the draws. *)
Lemma build_trees_total tries count subsampleSize data drawn :
  (length data <= subsampleSize)%nat ->
  exists trees drawn',
    build_trees rand tries count subsampleSize data drawn = Some (trees, drawn').
Proof.
  intros Hle. revert drawn. induction count as [|count IH]; intros drawn;
    cbn [build_trees]; [eauto|].
  unfold randomSample. apply Nat.leb_le in Hle. rewrite Hle.
  destruct (buildTree rand (heightLimit subsampleSize) data drawn) as [tree drawn2].
  destruct (IH drawn2) as (trees & drawn3 & ->). eauto.
Qed.

End Sampling.

(** X30.  IsolationForest.fit: when the data has at most subsampleSize
    rows, the sampling loop is never entered and fit returns. After fit
    the forest has no tree if the data is empty or its first row has no
    attribute, and treeCount trees otherwise; each tree is well-formed,
    its root size is min(number of rows, subsampleSize), its height is at
    most ceil(log2(subsampleSize)), so every path length is at most that
    height plus averagePathLength(subsampleSize). *)
Theorem fitted_trees_shape (rand : nat -> R) (tries treeCount subsampleSize : nat)
    (data : list (list R)) (drawn : nat) :
  let fitted := ForestBuilding.fit rand tries treeCount subsampleSize data drawn in
  ((length data <= subsampleSize)%nat -> exists trees, fitted = Some trees)
  /\ (forall trees,
        fitted = Some trees ->
        (data = [] \/ hd [] data = [] -> trees = [])
        /\ (data <> [] -> hd [] data <> [] -> length trees = treeCount)
        /\ Forall (fun tree =>
                     well_formed tree
                     /\ size_of tree = Nat.min (length data) subsampleSize
                     /\ (height tree <= Nat.log2_up subsampleSize)%nat
                     /\ forall sample,
                          (IsolationForest.pathLength tree sample
                           <= INR (Nat.log2_up subsampleSize)
                              + IsolationForest.averagePathLength subsampleSize)%R)
             trees).
Proof.
  cbv zeta. unfold ForestBuilding.fit. split.
  - intros Hle. destruct data as [|first rest]; [eauto|].
    destruct (build_trees_total rand tries treeCount subsampleSize (first :: rest) drawn Hle)
      as (trees & drawn' & ->).
    destruct (length first =? 0)%nat; eauto.
  - intros trees Hfit. destruct data as [|first rest].
    { injection Hfit as <-. split; [reflexivity|]. split; [congruence | constructor]. }
    destruct (ForestBuilding.build_trees rand tries treeCount subsampleSize (first :: rest)
                drawn) as [[built drawn']|] eqn:Hb; [|discriminate Hfit].
    apply build_trees_shape in Hb as [Hlen Hall].
    destruct (Nat.eqb_spec (length first) 0) as [Hz|Hnz].
    + injection Hfit as <-. split; [reflexivity|]. split; [|constructor].
      intros _ Hne. cbn in Hne. destruct first; [contradiction | discriminate Hz].
    + injection Hfit as <-. split.
      * intros [E|E]; [discriminate E|]. cbn in E. subst first. contradiction.
      * split; [intros _ _; exact Hlen|].
        revert Hall. apply List.Forall_impl. intros tree (Hw & Hs & Hh).
        unfold ForestBuilding.heightLimit in Hh.
        repeat split; try assumption. intros sample.
        pose proof (pathLength_bound tree subsampleSize sample Hw ltac:(lia)) as Hp.
        apply le_INR in Hh. lra.
Qed.

(* ===================================================================== *)
(** ** The properties above on concrete runs *)

Section TransferCases.

#[local] Existing Instance Demo.platform.

Import Demo Cases.





Lemma transfer_rejects_unknown_account_and_currency_witness :
  let run := createTransfer test_env (transfer "Z" "B" (units 250)) alice rnd world in
  fst run = inl (AppError "Account not found." 404)
  /\ statements (snd run)
     = [BEGIN; SelectAccountForUpdate "Z"; SelectAccountForUpdate "B"; ROLLBACK]
  /\ db (snd run) = bank.
Proof.
  intro run.
  assert (Hreach : reaches_database test_env (transfer "Z" "B" (units 250)) alice rnd).
  { split; [reflexivity|]. split; [discriminate|].
    exists (units 250). split; [reflexivity|]. split; [reflexivity|].
    vm_compute. reflexivity. }
  destruct (transfer_rejects_unknown_account_and_currency test_env
              (transfer "Z" "B" (units 250)) alice rnd world Hreach) as [Hmiss _].
  destruct Hmiss as (He & Hst & Hdb); [left; vm_compute; reflexivity|].
  repeat split; assumption.
Defined.

Lemma aml_flag_alert_witness :
  let run := simulateAml streaming_env "alice" "id-0" (units 60000) "USD"
               (Some "Invoice payment") world in
  exists r alert,
    fst run = inr r
    /\ cr_status r = failed
    /\ risk_alerts (db (snd run)) = [alert]
    /\ ra_alert_type alert = "aml_flag"
    /\ ra_severity alert = critical
    /\ json_get "reason" (ra_details alert) = Some (JStr "high_value").
Proof.
  intro run.
  destruct (fst run) as [e|r] eqn:Hr; [vm_compute in Hr; discriminate Hr|].
  assert (Hf : cr_status r = failed)
    by (vm_compute in Hr; injection Hr as <-; reflexivity).
  destruct (aml_flag_alert streaming_env "alice" "id-0" (units 60000) "USD"
              (Some "Invoice payment") world r Hr) as [Hal _].
  destruct (Hal Hf ltac:(discriminate))
    as (alert & Hrows & Ht & Hs & _ & _ & _ & _ & Hreason).
  exists r, alert. fold run in Hrows. repeat split; try assumption.
  apply Hreason. intros N. apply memoMatch_of_iff in N. vm_compute in N. discriminate N.
Defined.

Lemma threshold_alerts_witness :
  let run := checkThresholds streaming_env "A" strained 1000 world in
  exists new,
    risk_alerts (db (snd run)) = new ++ []
    /\ (length new <= 3)%nat
    /\ In "leverage_threshold" (map ra_alert_type new)
    /\ In "loss_threshold" (map ra_alert_type new)
    /\ In "exposure_threshold" (map ra_alert_type new).
Proof.
  intro run.
  destruct (threshold_alerts streaming_env "A" strained 1000 world)
    as (new & Hrows & Hlen & _ & Hlev & Hloss & Hexp); [vm_compute; reflexivity|].
  exists new. fold run in Hrows. split; [exact Hrows|]. split; [exact Hlen|].
  split; [|split].
  - apply Hlev. split; [reflexivity | discriminate].
  - apply Hloss. split; [reflexivity | discriminate].
  - apply Hexp. split; [reflexivity|]. split; [reflexivity | discriminate].
Defined.

Lemma alert_stream_entry_witness :
  let run := raiseRiskAlert streaming_env (Some "A") "loss_threshold" medium JNull world in
  exists alert,
    fst run = inr alert
    /\ streams (snd run)
       = [("risk-alerts",
           [("id", ra_id alert); ("type", "loss_threshold"); ("severity", "medium");
            ("accountId", "A"); ("triggeredAt", toISOString (triggered_at alert))])]
    /\ redis_client (snd run) = true.
Proof.
  intro run.
  destruct (fst run) as [e|alert] eqn:Hr; [vm_compute in Hr; discriminate Hr|].
  exists alert. split; [reflexivity|].
  destruct (alert_stream_entry streaming_env (Some "A") "loss_threshold" medium JNull
              world alert Hr) as [Hon _].
  apply Hon. reflexivity.
Defined.


End TransferCases.

Section RedisCases.

Import Demo Cases.

Lemma redis_failure_is_sticky_witness :
  let run := publishToStream (H := unreachable_redis) streaming_env "risk-alerts" [] world in
  fst run = inr tt
  /\ streams (snd run) = []
  /\ connectionFailed (snd run) = true
  /\ publishToStream (H := platform) streaming_env "risk-alerts" [] (snd run)
     = (inr tt, snd run).
Proof.
  intro run.
  destruct (redis_failure_is_sticky (H := unreachable_redis) streaming_env "risk-alerts" []
              world) as (Hr & Hs & _ & _ & Hf & Hnext);
    try reflexivity.
  fold run in Hr, Hs, Hf, Hnext.
  split; [exact Hr|]. split; [exact Hs|]. split; [exact Hf|]. apply Hnext.
Defined.

End RedisCases.

Section EnvelopeCases.

Import Demo Cases.

Lemma reading_laws : @PlatformLaws reading_platform.
Proof.
  split.
  - apply list_byte_of_string_of_list_byte.
  - reflexivity.
  - intros key iv data. apply rev_involutive.
Qed.

Lemma reading_matching_keys : matching_keys (H := reading_platform) test_env.
Proof. intros seed data wrapped [= <-]. reflexivity. Qed.

Lemma vault_matching_keys : matching_keys (H := platform) vault_env.
Proof. intros seed data wrapped [= <-]. reflexivity. Qed.

Lemma stored_payload_decrypts_witness :
  let run := createTransfer (H := reading_platform) test_env
               (transfer "A" "B" (units 250)) alice rnd world in
  exists r,
    fst run = inr r
    /\ tx_encrypted_payload (tr_debit r)
       = stringify (json_of_envelope (tr_encryptedPayload r))
    /\ decryptPayload (H := reading_platform) test_env (tr_encryptedPayload r)
       = inr transfer_payload.
Proof.
  intro run.
  destruct (fst run) as [e|r] eqn:Hr; [vm_compute in Hr; discriminate Hr|].
  exists r. split; [reflexivity|].
  destruct (stored_payload_decrypts (P := reading_platform) (L := reading_laws) test_env
              (transfer "A" "B" (units 250)) alice rnd world r)
    as (amount & Ha & Hd & _ & Hdec).
  - exact reading_matching_keys.
  - apply (@vault_faithful_unconfigured reading_platform test_env reading_laws).
    reflexivity.
  - intros amount [= <-]. vm_compute. reflexivity.
  - exact Hr.
  - injection Ha as <-. split; [exact Hd | exact Hdec].
Defined.

Lemma decrypt_falls_back_to_rsa_witness :
  exists envelope,
    encryptPayload (H := platform) vault_env JNull rnd = inr envelope
    /\ vault_key (H := with_vault_http vault_down platform) vault_env envelope = None
    /\ decryptPayload (H := with_vault_http vault_down platform) vault_env envelope
       = inr JNull.
Proof.
  destruct (encryptPayload (H := platform) vault_env JNull rnd) as [e|envelope] eqn:He;
    [vm_compute in He; discriminate He|].
  exists envelope. split; [reflexivity|].
  apply (decrypt_falls_back_to_rsa (P := platform) (L := demo_laws) vault_env JNull rnd
           envelope vault_down).
  - exact vault_matching_keys.
  - vm_compute. reflexivity.
  - reflexivity.
  - exact He.
  - intros url method body. reflexivity.
Defined.

End EnvelopeCases.

Section AccountCases.

#[local] Existing Instance Demo.platform.

Import Demo Cases.

Lemma account_opens_empty_witness :
  let run := createAccountForUser opening alice world in
  exists opened,
    fst run = inr opened
    /\ acc_user_id opened = "alice"
    /\ acc_balance opened = 0%Z
    /\ accounts (db (snd run)) !! acc_id opened = Some opened
    /\ accounts (db (snd run)) !! "A" = accounts bank !! "A".
Proof.
  intro run.
  destruct (fst run) as [e|opened] eqn:Hr; [vm_compute in Hr; discriminate Hr|].
  exists opened. split; [reflexivity|].
  destruct (account_opens_empty opening alice world opened Hr ltac:(discriminate))
    as (Hrow & Hown & Hacc & Hrest).
  fold run in Hacc, Hrest.
  split; [apply Hown; discriminate|].
  split; [rewrite Hrow; reflexivity|].
  split; [rewrite Hacc; apply lookup_insert_eq|].
  apply Hrest. rewrite Hrow. cbn. vm_compute. discriminate.
Defined.

End AccountCases.

Section SessionCases.

Import Cases.

Lemma refresh_token_single_use_witness :
  let first := rotateRefreshToken auth_env "refresh:t-1" (draws 2) 10%Z one_user in
  exists tokens,
    fst first = Some tokens
    /\ refreshUserToken auth_env "refresh:t-1" (draws 3) 20%Z (snd first)
       = (inl (UnauthorizedError (Some "Invalid refresh token.")), snd first).
Proof.
  intro first.
  destruct (fst first) as [tokens|] eqn:Hr; [|vm_compute in Hr; discriminate Hr].
  exists tokens. split; [reflexivity|].
  apply (refresh_token_single_use auth_env "refresh:t-1" (draws 2) 10%Z one_user tokens Hr).
  intros payload exp Hd. vm_compute in Hd. injection Hd as <- _. discriminate.
Defined.

Lemma register_then_login_witness :
  exists tokens,
    fst (loginUser auth_env "ada@example.com" "correct horse" (draws 2) 5%Z one_user)
    = inr tokens
    /\ loginUser auth_env "ada@example.com" "battery staple" (draws 2) 5%Z one_user
       = (inl (UnauthorizedError (Some "Invalid credentials.")), one_user)
    /\ loginUser auth_env "eve@example.com" "correct horse" (draws 2) 5%Z one_user
       = (inl (UnauthorizedError (Some "Invalid credentials.")), one_user).
Proof.
  destruct (fst (registerUser auth_env "ada@example.com" "correct horse" client (draws 1)
                   0%Z no_users)) as [e|tokens] eqn:Hr;
    [vm_compute in Hr; discriminate Hr|].
  destruct (register_then_login auth_env "ada@example.com" "correct horse" client
              (draws 1) 0%Z no_users tokens Hr)
    as (_ & _ & Hlogin & Hwrong & Hother).
  - intros salt. reflexivity.
  - destruct (Hlogin (draws 2) 5%Z) as [tokens' Ht]. exists tokens'.
    split; [exact Ht|]. split.
    + apply Hwrong. reflexivity.
    + apply Hother; [discriminate | reflexivity].
Defined.

End SessionCases.
